(** * Ollama provider discovery: a shallow embedding and its properties

    The development follows the TypeScript sources file by file:

    - [JS]        the fragment of the JavaScript runtime the sources rely on
                  (strings, JSON values, exceptions);
    - [Limit]     [src/utils/limit.ts], the concurrency limiter;
    - [Filter]    [src/agents/live-model-filter.ts];
    - [Providers] [src/agents/models-config.providers.ts], together with the
                  keep-alive fetch wrapper of [src/utils/http.ts];
    - [Audit]     [src/utils/audit.ts], the JSON-line audit logger, and
                  [GatewayCli], the start-up call of [src/cli/gateway-cli.ts].

    Strings are sequences of 8-bit code units (the Latin-1 range of the
    UTF-16 code units of a JavaScript string); numbers of type [number]
    that count things are integers of [Z]; numbers read from JSON are
    rationals extended with the two infinities and NaN. *)

From Stdlib Require Import ZArith QArith Qround List Bool Ascii String Lia.
From Stdlib Require Import DecimalString Permutation.
Import ListNotations.

Close Scope Q_scope.
Set Warnings "-register-all".
Open Scope string_scope.
Open Scope list_scope.

(* ================================================================== *)
(** * The JavaScript fragment *)
(* ================================================================== *)

Module JS.

(** ** Strings *)

Definition chars (s : string) : list ascii := list_ascii_of_string s.
Definition str (l : list ascii) : string := string_of_list_ascii l.

Fixpoint dropWhile {A} (p : A -> bool) (l : list A) : list A :=
  match l with
  | [] => []
  | x :: l' => if p x then dropWhile p l' else l
  end.

(** Removes the longest suffix all of whose elements satisfy [p]. *)
Definition dropWhileEnd {A} (p : A -> bool) (l : list A) : list A :=
  rev (dropWhile p (rev l)).

(** [s.endsWith(suffix)] *)
Definition endsWith (s suffix : string) : bool :=
  let n := String.length s in
  let m := String.length suffix in
  if (n <? m)%nat then false
  else String.eqb (substring (n - m) m s) suffix.

(** [s.startsWith(p)] is [String.prefix p s]; [s.includes(sub)] looks for
    a position at which [sub] starts. *)
Fixpoint includes (s sub : string) : bool :=
  if String.prefix sub s then true
  else match s with
       | EmptyString => false
       | String _ s' => includes s' sub
       end.

(** [toLowerCase] on one code unit: [A-Z] and the upper-case letters of
    the Latin-1 supplement (U+00C0 to U+00DE without the multiplication
    sign U+00D7) move up by 32; every other code unit stays. *)
Definition lowerChar (c : ascii) : ascii :=
  let n := nat_of_ascii c in
  if ((65 <=? n) && (n <=? 90)
      || (192 <=? n) && (n <=? 222) && negb (n =? 215))%nat
  then ascii_of_nat (n + 32)
  else c.

Definition toLowerCase (s : string) : string := str (map lowerChar (chars s)).

(** The white space and line terminators of ECMAScript below U+0100:
    TAB, LF, VT, FF, CR, SP and NBSP. *)
Definition isWhiteSpace (c : ascii) : bool :=
  let n := nat_of_ascii c in
  ((9 <=? n) && (n <=? 13) || (n =? 32) || (n =? 160))%nat.

(** [s.trim()] *)
Definition trim (s : string) : string :=
  str (dropWhileEnd isWhiteSpace (dropWhile isWhiteSpace (chars s))).

(** [s.replace(/\/+$/, "")]: the leftmost match of one or more slashes
    followed by the end of input is the whole trailing run of slashes. *)
Definition isSlash (c : ascii) : bool := Ascii.eqb c "/".

Definition stripTrailingSlashes (s : string) : string :=
  str (dropWhileEnd isSlash (chars s)).

(** Does [s] match [/^\/v1$/i]?  Under the [i] flag the letter [v] matches
    [v] and [V]; [/] and [1] have no case variants. *)
Definition isV1 (s : string) : bool :=
  match chars s with
  | [a; b; c] =>
      Ascii.eqb a "/" && (Ascii.eqb b "v" || Ascii.eqb b "V") && Ascii.eqb c "1"
  | _ => false
  end.

(** [s.endsWith] for the pattern [/\/v1$/i]. *)
Definition endsWithV1 (s : string) : bool :=
  let n := String.length s in
  (3 <=? n)%nat && isV1 (substring (n - 3) 3 s).

(** [s.replace(/\/v1$/i, "")] *)
Definition stripV1Suffix (s : string) : string :=
  if endsWithV1 s then substring 0 (String.length s - 3) s else s.

(** ** Numbers and JSON values *)

(** A value of type [number]: every finite double is a rational. *)
Inductive number : Type :=
| Finite (q : Q)
| PosInfinity
| NegInfinity
| NaN.

(** An integer as a [number]. *)
Definition int (z : Z) : number := Finite (inject_Z z).

(** [a < b] and [a >= b] on numbers; a comparison with [NaN] is false. *)
Definition lessThan (a b : number) : bool :=
  match a, b with
  | NaN, _ | _, NaN => false
  | _, NegInfinity => false
  | NegInfinity, _ => true
  | PosInfinity, _ => false
  | Finite _, PosInfinity => true
  | Finite p, Finite q => negb (Qle_bool q p)
  end.

Definition atLeast (a b : number) : bool :=
  match a, b with
  | NaN, _ | _, NaN => false
  | _, NegInfinity => true
  | NegInfinity, _ => false
  | PosInfinity, _ => true
  | Finite _, PosInfinity => false
  | Finite p, Finite q => Qle_bool q p
  end.

(** What [JSON.parse] and [response.json()] produce.  The fields of an
    object are listed in property order, the order of [Object.entries]. *)
Inductive value : Type :=
| JNull
| JBool (b : bool)
| JNum (n : number)
| JStr (s : string)
| JArr (elems : list value)
| JObj (fields : list (string * value)).

(** An object literal or [Record<string, any>]. *)
Definition object : Type := list (string * value).

(** [undefined] is the absence of a value. *)
Definition maybe : Type := option value.

Fixpoint lookup (key : string) (o : object) : maybe :=
  match o with
  | [] => None
  | (k, v) :: o' => if String.eqb k key then Some v else lookup key o'
  end.

(** [Number.isFinite(v)] together with [typeof v === "number"] *)
Definition isFiniteNumber (v : value) : option Q :=
  match v with
  | JNum (Finite q) => Some q
  | _ => None
  end.

(** Truthiness of a JSON value and of a possibly undefined one. *)
Definition truthy (v : value) : bool :=
  match v with
  | JNull => false
  | JBool b => b
  | JNum (Finite q) => negb (Qeq_bool q 0)
  | JNum NaN => false
  | JNum _ => true
  | JStr s => negb (String.eqb s "")
  | JArr _ | JObj _ => true
  end.

(** [!!s] for [s : string | undefined] *)
Definition truthyString (s : option string) : bool :=
  match s with
  | Some x => negb (String.eqb x "")
  | None => false
  end.

Definition truthy' (m : maybe) : bool :=
  match m with
  | Some v => truthy v
  | None => false
  end.

Definition ofZ (z : Z) : value := JNum (Finite (inject_Z z)).
Definition ofNat (n : nat) : value := ofZ (Z.of_nat n).

(** The key of the [n]-th element of an array or string. *)
Definition indexKey (n : nat) : string :=
  NilEmpty.string_of_uint (Nat.to_uint n).

Fixpoint indexed {A} (f : A -> value) (n : nat) (l : list A) : object :=
  match l with
  | [] => []
  | x :: l' => (indexKey n, f x) :: indexed f (S n) l'
  end.

(** [Object.entries(v)] for a value that is neither [null] nor
    [undefined]. *)
Definition entries (v : value) : object :=
  match v with
  | JObj fields => fields
  | JArr elems => indexed (fun x => x) 0 elems
  | JStr s => indexed (fun c => JStr (String c EmptyString)) 0 (chars s)
  | _ => []
  end.

(** [a.slice(start, end)] on an array; a negative index counts from the
    end. *)
Definition sliceIndex (len k : Z) : Z :=
  if (k <? 0)%Z then Z.max (len + k) 0 else Z.min k len.

Definition slice {A} (l : list A) (from to : Z) : list A :=
  let len := Z.of_nat (List.length l) in
  let i := sliceIndex len from in
  let j := sliceIndex len to in
  firstn (Z.to_nat (j - i)) (skipn (Z.to_nat i) l).

(** ** Exceptions *)

Inductive error : Type :=
| Error (message : string)      (* [new Error(message)] *)
| TypeError                     (* property access on [null], call of a non-function *)
| SyntaxError                   (* a body that is not JSON *)
| FetchError                    (* a rejected [fetch]: refused, reset, timed out *)
| FsError                       (* a failed file operation *)
| ReferenceError.               (* a name that is not bound, as [require] in an ES module *)

Inductive result (A : Type) : Type :=
| Ok (a : A)
| Thrown (e : error).
Arguments Ok {A} a.
Arguments Thrown {A} e.

(** [v.key] for a property name that is not an array index. *)
Definition getProp (v : value) (key : string) : result maybe :=
  match v with
  | JNull => Thrown TypeError
  | JObj fields => Ok (lookup key fields)
  | JArr elems =>
      Ok (if String.eqb key "length" then Some (ofNat (List.length elems)) else None)
  | JStr s =>
      Ok (if String.eqb key "length" then Some (ofNat (String.length s)) else None)
  | _ => Ok None
  end.

(** [JSON.parse(JSON.stringify(v))]: a number that is not finite is
    written as [null]; everything else comes back as it was. *)
Fixpoint jsonClone (v : value) : value :=
  match v with
  | JNum (Finite q) => v
  | JNum _ => JNull
  | JArr elems => JArr (map jsonClone elems)
  | JObj fields => JObj (map (fun '(k, x) => (k, jsonClone x)) fields)
  | _ => v
  end.

End JS.

(* ================================================================== *)
(** * [src/utils/limit.ts]: the concurrency limiter *)
(* ================================================================== *)

Module Limit.
Import JS.
Local Open Scope Z_scope.

(** A task is the closure [task] built by one call of the scheduling
    function; it is named by the rank of that call (0 for the first).

    [queue] and [active] are the two variables captured by the closures
    of [limit]; the remaining fields record what has been run and exist
    for the specification only. *)
Record state : Type := {
  queue : list nat;        (* [const queue: (() => void)[]] *)
  active : Z;              (* [let active] *)
  submitted : nat;         (* calls of the scheduling function so far *)
  started : list nat;      (* tasks whose [fn()] was called, oldest first *)
  inFlight : list nat;     (* [fn()] called and its promise still pending *)
  settled : list nat       (* promise of [fn()] settled, [finally] not yet run *)
}.

(** The closure state at the end of [limit]: [queue = []], [active = 0]. *)
Definition initial : state :=
  {| queue := []; active := 0; submitted := 0;
     started := []; inFlight := []; settled := [] |}.

(** [limit(max)]: the guard, then the fresh closure state.  [max] is
    any [number]: the guard and [next()] compare with it as JavaScript
    does, so that [limit(1.5)] is a limiter and [limit(NaN)] is one
    too. *)
Definition limit (max : number) : result state :=
  if lessThan max (int 1) then Thrown (Error "Concurrency limit must be >= 1")
  else Ok initial.

(** [run()]: the task calls [fn()] and suspends at its [await]. *)
Definition run (t : nat) (s : state) : state :=
  {| queue := queue s; active := active s; submitted := submitted s;
     started := started s ++ [t];
     inFlight := inFlight s ++ [t];
     settled := settled s |}.

(** [next()] *)
Definition next (max : number) (s : state) : state :=
  if atLeast (int (active s)) max || (Nat.eqb (List.length (queue s)) 0) then s
  else
    match queue s with
    | [] => s
    | t :: rest =>
        run t {| queue := rest; active := active s + 1;
                 submitted := submitted s; started := started s;
                 inFlight := inFlight s; settled := settled s |}
    end.

(** The scheduling function returned by [limit]: the executor of the
    new promise pushes the task and calls [next()]. *)
Definition schedule (max : number) (s : state) : state :=
  next max {| queue := queue s ++ [submitted s]; active := active s;
              submitted := S (submitted s); started := started s;
              inFlight := inFlight s; settled := settled s |}.

Definition remove (t : nat) (l : list nat) : list nat :=
  filter (fun u => negb (Nat.eqb u t)) l.

(** The promise returned by [fn()] settles (or [fn()] threw): the task is
    no longer in flight, its continuation is waiting to run. *)
Definition settle (t : nat) (s : state) : state :=
  {| queue := queue s; active := active s; submitted := submitted s;
     started := started s;
     inFlight := remove t (inFlight s);
     settled := settled s ++ [t] |}.

(** The continuation of the task after its [await]: [resolve] or
    [reject], then the [finally] block, [active--; next()]. *)
Definition resume (max : number) (t : nat) (s : state) : state :=
  next max {| queue := queue s; active := active s - 1;
              submitted := submitted s; started := started s;
              inFlight := inFlight s;
              settled := remove t (settled s) |}.

(** What can happen to a limiter.  Every call of [next()] is the last
    statement of its caller, so a task that submits another task from
    inside [fn()] is a [Schedule] right after the step that started it. *)
Inductive event : Type :=
| Schedule
| Settle (t : nat)
| Resume (t : nat).

Definition enabled (e : event) (s : state) : bool :=
  match e with
  | Schedule => true
  | Settle t => existsb (Nat.eqb t) (inFlight s)
  | Resume t => existsb (Nat.eqb t) (settled s)
  end.

Definition step (max : number) (e : event) (s : state) : state :=
  match e with
  | Schedule => schedule max s
  | Settle t => settle t s
  | Resume t => resume max t s
  end.

(** Runs a sequence of events; [None] when one of them cannot happen. *)
Fixpoint exec (max : number) (es : list event) (s : state) : option state :=
  match es with
  | [] => Some s
  | e :: es' => if enabled e s then exec max es' (step max e s) else None
  end.

(** The states a limiter can get into from its initial state. *)
Definition reachable (max : number) (s : state) : Prop :=
  exists es, exec max es initial = Some s.

End Limit.

(* ================================================================== *)
(** * [src/agents/live-model-filter.ts] *)
(* ================================================================== *)

Module Filter.
Import JS.

(** [provider] and [id] may be a string, [null] or [undefined]; the
    optional chaining [?.trim()] treats the last two alike. *)
Record ModelRef : Type := {
  provider : option string;
  id : option string
}.

Definition isModernModelRef (ref : ModelRef) : bool :=
  let provider := option_map trim (provider ref) in
  let id := option_map trim (id ref) in
  truthyString provider && truthyString id.

End Filter.

(* ================================================================== *)
(** * [src/agents/models-config.providers.ts] *)
(* ================================================================== *)

Module Providers.
Import JS.

(** ** The world outside: network, file system, logger *)

Inductive agent : Type := HttpAgent | HttpsAgent.
Inductive verb : Type := GET | POST.

(** One call of [fetch]: [body] is the JSON document that was
    stringified into the request body, if any. *)
Record Request : Type := {
  url : string;
  method : verb;
  body : maybe;
  timeout : Z;
  via : agent
}.

(** [json] is [None] when the body is not JSON and [response.json()]
    rejects. *)
Record Response : Type := {
  ok : bool;
  status : Z;
  json : option value
}.

Inductive reply : Type :=
| Rejects
| Responds (r : Response).

Inductive logEntry : Type :=
| WarnStatus (status : Z)
| DebugNoModels
| WarnCapping (cap received : Z)
| WarnFailed (e : error).

(** [.openclaw_model_cache.json]: missing, present but unreadable or not
    JSON, or holding a JSON document. *)
Inductive file : Type :=
| Absent
| Unreadable
| Content (v : value).

Record World : Type := {
  requests : list Request;     (* calls of [fetch] so far, oldest first *)
  logs : list logEntry;
  cacheFile : file
}.

Record ProcessEnv : Type := {
  VITEST : option string;
  NODE_ENV : option string
}.

(** ** Computations: state, exceptions, and loops that may not end *)

Inductive outcome (A : Type) : Type :=
| Returns (a : A)
| Throws (e : error)
| Diverges.
Arguments Returns {A} a.
Arguments Throws {A} e.
Arguments Diverges {A}.

Definition M (A : Type) : Type := World -> outcome A * World.

Definition ret {A} (a : A) : M A := fun w => (Returns a, w).
Definition throw {A} (e : error) : M A := fun w => (Throws e, w).
Definition diverge {A} : M A := fun w => (Diverges, w).

Definition bind {A B} (m : M A) (k : A -> M B) : M B :=
  fun w =>
    match m w with
    | (Returns a, w') => k a w'
    | (Throws e, w') => (Throws e, w')
    | (Diverges, w') => (Diverges, w')
    end.

(** [try { m } catch (e) { h e }] *)
Definition tryCatch {A} (m : M A) (h : error -> M A) : M A :=
  fun w =>
    match m w with
    | (Throws e, w') => h e w'
    | r => r
    end.

Definition lift {A} (r : result A) : M A :=
  match r with
  | Ok a => ret a
  | Thrown e => throw e
  end.

Notation "x <- m ;; k" := (bind m (fun x => k))
  (at level 61, m at next level, right associativity).
Notation "m ;; k" := (bind m (fun _ => k))
  (at level 61, right associativity).

Definition when (b : bool) (m : M unit) : M unit :=
  if b then m else ret tt.

Definition log (e : logEntry) : M unit :=
  fun w => (Returns tt,
            {| requests := requests w; logs := logs w ++ [e];
               cacheFile := cacheFile w |}).

(** [await Promise.all(tasks)] for tasks that all start at once: every
    task runs, the results keep the order of the tasks, and one rejection
    rejects the whole (the earliest in the list stands for the earliest in
    time). *)
Fixpoint promiseAll {A} (tasks : list (M A)) : M (list A) :=
  fun w =>
    match tasks with
    | [] => (Returns [], w)
    | t :: ts =>
        let (r, w1) := t w in
        let (rs, w2) := promiseAll ts w1 in
        (match r, rs with
         | Throws e, _ => Throws e
         | _, Throws e => Throws e
         | Returns a, Returns l => Returns (a :: l)
         | _, _ => Diverges
         end, w2)
    end.

(** [ModelDefinitionConfig], as far as discovery fills it in. *)
Record ModelDefinitionConfig : Type := {
  id : string;
  name : string;
  reasoning : bool;
  input : list string;
  cost : value;
  contextWindow : Z;
  maxTokens : Z
}.

Definition modelJson (m : ModelDefinitionConfig) : value :=
  JObj [("id", JStr (id m));
        ("name", JStr (name m));
        ("reasoning", JBool (reasoning m));
        ("input", JArr (map JStr (input m)));
        ("cost", cost m);
        ("contextWindow", ofZ (contextWindow m));
        ("maxTokens", ofZ (maxTokens m))].

(** The object returned by [buildOllamaProvider]. *)
Record Provider : Type := {
  baseUrl : string;
  api : string;
  models : list ModelDefinitionConfig
}.

Record Options : Type := { quiet : option bool }.

(** [!opts?.quiet] *)
Definition loud (opts : option Options) : bool :=
  match opts with
  | Some {| quiet := Some true |} => false
  | _ => true
  end.

Record ExplicitProvider : Type := { cfgBaseUrl : option string }.

Record Params : Type := {
  agentDir : string;
  explicitProviders : option (list (string * ExplicitProvider))
}.

Fixpoint assoc {A} (key : string) (l : list (string * A)) : option A :=
  match l with
  | [] => None
  | (k, v) :: l' => if String.eqb k key then Some v else assoc key l'
  end.

Definition MODEL_CACHE_FILE : string := ".openclaw_model_cache.json".
Definition CONTEXT_LENGTH_SUFFIX : string := ".context_length".

(** The loop of [queryOllamaContextWindow] over
    [Object.entries(data.model_info)]. *)
Fixpoint scanContextLength (es : object) : option Z :=
  match es with
  | [] => None
  | (key, v) :: es' =>
      match (if endsWith key CONTEXT_LENGTH_SUFFIX then isFiniteNumber v else None) with
      | Some q =>
          let cw := Qfloor q in
          if (cw >? 0)%Z then Some cw else scanContextLength es'
      | None => scanContextLength es'
      end
  end.

(** ** The functions of the file *)

Section Discovery.

(** The constants imported from [./ollama-stream.js]. *)
Variable OLLAMA_API_BASE_URL : string.
Variable OLLAMA_DEFAULT_COST : value.
Variable OLLAMA_DEFAULT_CONTEXT_WINDOW : Z.
Variable OLLAMA_DEFAULT_MAX_TOKENS : Z.
Variable OLLAMA_SHOW_MAX_MODELS : Z.
Variable OLLAMA_SHOW_CONCURRENCY : Z.

(** The credential helpers of [./model-auth.js] and
    [./auth-profiles.js]. *)
Variable AuthProfileStore : Type.
Variable ensureAuthProfileStore : string -> AuthProfileStore.
Variable resolveEnvApiKeyVarName : string -> option string.
Variable resolveApiKeyFromProfiles : string -> AuthProfileStore -> option string.

(** The surroundings of one run: the process environment, the backend
    (its answer to a request, given the requests made before), and
    whether the cache file can be written. *)
Variable env : ProcessEnv.
Variable network : list Request -> Request -> reply.
Variable writable : bool.

Definition resolveOllamaApiBase (configuredBaseUrl : option string) : string :=
  match configuredBaseUrl with
  | None => OLLAMA_API_BASE_URL
  | Some configured =>
      if String.eqb configured "" then OLLAMA_API_BASE_URL
      else
        let trimmed := stripTrailingSlashes configured in
        stripV1Suffix trimmed
  end.

(** [existsSync], [readFileSync] with [JSON.parse], and [writeFileSync]
    with [JSON.stringify], all on [MODEL_CACHE_FILE]. *)
Definition existsSync : M bool :=
  fun w => (Returns (match cacheFile w with Absent => false | _ => true end), w).

Definition readJson : M value :=
  fun w =>
    match cacheFile w with
    | Content v => (Returns v, w)
    | Absent => (Throws FsError, w)
    | Unreadable => (Throws SyntaxError, w)
    end.

Definition writeJson (v : value) : M unit :=
  fun w =>
    if writable
    then (Returns tt,
          {| requests := requests w; logs := logs w;
             cacheFile := Content (jsonClone v) |})
    else (Throws FsError, w).

Definition loadModelCache : M value :=
  present <- existsSync ;;
  if negb present then ret (JObj [])
  else tryCatch readJson (fun _ => ret (JObj [])).

Definition saveModelCache (cache : object) : M unit :=
  tryCatch (writeJson (JObj cache)) (fun _ => ret tt).

(** [src/utils/http.ts] *)
Definition ollamaFetch (input : string) (method : verb) (body : maybe)
    (timeout : Z) : M Response :=
  fun w =>
    let isHttps := String.prefix "https" input in
    let agent := if isHttps then HttpsAgent else HttpAgent in
    let request := {| url := input; method := method; body := body;
                      timeout := timeout; via := agent |} in
    let w' := {| requests := requests w ++ [request]; logs := logs w;
                 cacheFile := cacheFile w |} in
    match network (requests w) request with
    | Rejects => (Throws FetchError, w')
    | Responds r => (Returns r, w')
    end.

(** [await response.json()] *)
Definition responseJson (response : Response) : M value :=
  match json response with
  | Some data => ret data
  | None => throw SyntaxError
  end.

Definition queryOllamaContextWindow (apiBase : string) (modelName : maybe)
    : M (option Z) :=
  tryCatch
    (response <- ollamaFetch (apiBase ++ "/api/show") POST
                   (Some (JObj (match modelName with
                                | Some n => [("name", jsonClone n)]
                                | None => []
                                end)))
                   3000 ;;
     if negb (ok response) then ret None
     else
       data <- responseJson response ;;
       model_info <- lift (getProp data "model_info") ;;
       match model_info with
       | Some info =>
           if negb (truthy info) then ret None
           else ret (scanContextLength (entries info))
       | None => ret None
       end)
    (fun _ => ret None).

(** The task handed to the limiter for one entry of the tag list. *)
Definition inspectModel (apiBase : string) (model : value)
    : M ModelDefinitionConfig :=
  modelId <- lift (getProp model "name") ;;
  ctx <- queryOllamaContextWindow apiBase modelId ;;
  match modelId with
  | Some (JStr modelId) =>
      let isReasoning := includes (toLowerCase modelId) "r1"
                         || includes (toLowerCase modelId) "reasoning" in
      ret {| id := modelId;
             name := modelId;
             reasoning := isReasoning;
             input := ["text"];
             cost := OLLAMA_DEFAULT_COST;
             contextWindow := match ctx with
                              | Some cw => cw
                              | None => OLLAMA_DEFAULT_CONTEXT_WINDOW
                              end;
             maxTokens := OLLAMA_DEFAULT_MAX_TOKENS |}
  | _ => throw TypeError
  end.

(** The [for] loop over the batches.  A batch has at most
    [OLLAMA_SHOW_CONCURRENCY] tasks and the batch before it has been
    awaited, so the limiter starts every task as it is submitted (lemma
    [LimitFacts.batch_starts_at_once]); the tasks issue their requests in list
    order.  [fuel] bounds the number of iterations. *)
Fixpoint inspectBatches (fuel : nat) (apiBase : string)
    (toInspect : list value) (i : Z)
    (discovered : list ModelDefinitionConfig)
    : M (list ModelDefinitionConfig) :=
  if (i <? Z.of_nat (List.length toInspect))%Z then
    match fuel with
    | O => diverge
    | S fuel' =>
        let batch := slice toInspect i (i + OLLAMA_SHOW_CONCURRENCY) in
        batchDiscovered <- promiseAll (map (inspectModel apiBase) batch) ;;
        inspectBatches fuel' apiBase toInspect (i + OLLAMA_SHOW_CONCURRENCY)
          (discovered ++ batchDiscovered)
    end
  else ret discovered.

(** The warning about a capped list. *)
Definition warnCapped (inspected received : nat) (opts : option Options)
    : M unit :=
  when ((inspected <? received)%nat && loud opts)
    (log (WarnCapping OLLAMA_SHOW_MAX_MODELS (Z.of_nat received))).

(** The body of the [try] block of [discoverOllamaModels]. *)
Definition discoverBody (baseUrl : option string) (opts : option Options)
    : M (list ModelDefinitionConfig) :=
  let apiBase := resolveOllamaApiBase baseUrl in
  response <- ollamaFetch (apiBase ++ "/api/tags") GET None 5000 ;;
  if negb (ok response) then
    when (loud opts) (log (WarnStatus (status response))) ;;
    ret []
  else
    data <- responseJson response ;;
    models <- lift (getProp data "models") ;;
    len <- match models with
           | None | Some JNull => ret None
           | Some m => lift (getProp m "length")
           end ;;
    if negb (truthy' len) then
      log DebugNoModels ;;
      ret []
    else
      match models with
      | Some (JArr models) =>
          let toInspect := slice models 0 OLLAMA_SHOW_MAX_MODELS in
          warnCapped (List.length toInspect) (List.length models) opts ;;
          _ <- lift (Limit.limit (int OLLAMA_SHOW_CONCURRENCY)) ;;
          inspectBatches (S (List.length toInspect)) apiBase toInspect 0 []
      | Some (JStr models) =>
          (* a string has [length] and [slice], but its slices have no [map] *)
          let toInspect := slice (chars models) 0 OLLAMA_SHOW_MAX_MODELS in
          warnCapped (List.length toInspect) (String.length models) opts ;;
          _ <- lift (Limit.limit (int OLLAMA_SHOW_CONCURRENCY)) ;;
          if (0 <? List.length toInspect)%nat then throw TypeError else ret []
      | _ => throw TypeError      (* [data.models.slice] is not a function *)
      end.

(** [process.env.VITEST || process.env.NODE_ENV === "test"] *)
Definition underTest : bool :=
  truthyString (VITEST env)
  || match NODE_ENV env with
     | Some v => String.eqb v "test"
     | None => false
     end.

Definition discoverOllamaModels (baseUrl : option string)
    (opts : option Options) : M (list ModelDefinitionConfig) :=
  if underTest then ret []
  else
    tryCatch (discoverBody baseUrl opts)
      (fun e => when (loud opts) (log (WarnFailed e)) ;; ret []).

Definition buildOllamaProvider (configuredBaseUrl : option string)
    (opts : option Options) : M Provider :=
  models <- discoverOllamaModels configuredBaseUrl opts ;;
  ret {| baseUrl := resolveOllamaApiBase configuredBaseUrl;
         api := "ollama";
         models := models |}.

(** [{ ...ollamaProvider, apiKey }] *)
Definition providerEntry (p : Provider) (apiKey : string) : value :=
  JObj [("baseUrl", JStr (baseUrl p));
        ("api", JStr (api p));
        ("models", JArr (map modelJson (models p)));
        ("apiKey", JStr apiKey)].

(** [a ?? b] *)
Definition orElse {A} (a : option A) (b : option A) : option A :=
  match a with
  | Some _ => a
  | None => b
  end.

(** The constants computed at the start of [resolveImplicitProviders]. *)
Definition ollamaKeyOf (params : Params) : option string :=
  let authStore := ensureAuthProfileStore (agentDir params) in
  orElse (resolveEnvApiKeyVarName "ollama")
         (resolveApiKeyFromProfiles "ollama" authStore).

(** [params.explicitProviders?.ollama] *)
Definition explicitOllamaOf (params : Params) : option ExplicitProvider :=
  match explicitProviders params with
  | Some explicit => assoc "ollama" explicit
  | None => None
  end.

Definition ollamaBaseUrlOf (params : Params) : option string :=
  match explicitOllamaOf params with
  | Some o => cfgBaseUrl o
  | None => None
  end.

Definition hasExplicitOllamaConfigOf (params : Params) : bool :=
  match explicitOllamaOf params with
  | Some _ => true
  | None => false
  end.

(** The options [resolveImplicitProviders] passes down to discovery. *)
Definition discoveryOptionsOf (params : Params) : option Options :=
  Some {| quiet := Some (negb (truthyString (ollamaKeyOf params))
                         && negb (hasExplicitOllamaConfigOf params)) |}.

Definition resolveImplicitProviders (params : Params) : M object :=
  let ollamaKey := ollamaKeyOf params in
  let ollamaBaseUrl := ollamaBaseUrlOf params in
  ollamaProvider <-
    buildOllamaProvider ollamaBaseUrl (discoveryOptionsOf params) ;;
  if (0 <? List.length (models ollamaProvider))%nat || truthyString ollamaKey
  then
    let ollama :=
      providerEntry ollamaProvider
        (match ollamaKey with Some k => k | None => "ollama-local" end) in
    saveModelCache [("ollama", ollama)] ;;
    ret [("ollama", ollama)]
  else
    cached <- loadModelCache ;;
    cachedOllama <- lift (getProp cached "ollama") ;;
    if truthy' cachedOllama
    then ret (match cachedOllama with
              | Some c => [("ollama", c)]
              | None => []
              end)
    else ret [].

End Discovery.

End Providers.

(* ================================================================== *)
(** * The requests that discovery sends *)
(* ================================================================== *)

(** Names for what [ollamaFetch] hands to [fetch], for use in
    statements about the network traffic. *)
Module Trace.
Import JS Providers.

Definition request (input : string) (method : verb) (body : maybe)
    (timeout : Z) : Request :=
  {| url := input; method := method; body := body; timeout := timeout;
     via := if String.prefix "https" input then HttpsAgent else HttpAgent |}.

(** [GET {apiBase}/api/tags] *)
Definition tagsRequest (apiBase : string) : Request :=
  request (apiBase ++ "/api/tags") GET None 5000.

(** [POST {apiBase}/api/show] with body [{ name: modelName }] *)
Definition showRequest (apiBase : string) (modelName : maybe) : Request :=
  request (apiBase ++ "/api/show") POST
    (Some (JObj (match modelName with
                 | Some n => [("name", jsonClone n)]
                 | None => []
                 end)))
    3000.

Definition probeOf (apiBase : string) (modelId : string) : Request :=
  showRequest apiBase (Some (JStr modelId)).

Definition addRequest (w : World) (r : Request) : World :=
  {| requests := requests w ++ [r]; logs := logs w; cacheFile := cacheFile w |}.

End Trace.

(* ================================================================== *)
(** * Notions used in the statements and in their proofs *)
(* ================================================================== *)

Module Notions.
Import JS Providers Trace.
Local Open Scope string_scope.

(** A string with something other than white space in it. *)
Definition visible (s : string) : Prop :=
  exists c, In c (chars s) /\ isWhiteSpace c = false.

(** ** The limiter *)

(** The invariant of the closure state of [limit(max)]. *)
Record core (max : number) (s : Limit.state) : Prop := {
  core_count :
    Limit.active s
    = Z.of_nat (List.length (Limit.inFlight s ++ Limit.settled s)%list);
  (* the task started last found a free slot *)
  core_bound :
    Limit.active s = 0%Z \/ atLeast (int (Limit.active s - 1)) max = false;
  core_fifo :
    (Limit.started s ++ Limit.queue s)%list = seq 0 (Limit.submitted s);
  core_nodup : NoDup (Limit.inFlight s ++ Limit.settled s)%list;
  core_started :
    incl (Limit.inFlight s ++ Limit.settled s)%list (Limit.started s)
}.

(** A task waits only when every slot is taken. *)
Definition busy (max : number) (s : Limit.state) : Prop :=
  Limit.queue s <> [] -> atLeast (int (Limit.active s)) max = true.

(** ** Computations *)

(** The computation ends, by returning or by throwing. *)
Definition total {A} (m : M A) : Prop :=
  forall w, fst (m w) <> Diverges.

(** The computation leaves the cache file as it found it. *)
Definition keepsFile {A} (m : M A) : Prop :=
  forall w, cacheFile (snd (m w)) = cacheFile w.

(** Whatever the computation returns satisfies [Q]. *)
Definition ensures {A} (Q : A -> Prop) (m : M A) : Prop :=
  forall w a w', m w = (Returns a, w') -> Q a.

(** ** Discovery *)

(** The classification every assembled descriptor carries. *)
Definition classified (m : ModelDefinitionConfig) : Prop :=
  reasoning m = includes (toLowerCase (id m)) "r1"
                || includes (toLowerCase (id m)) "reasoning".

(** The entry [t] of the tag list has the string [s] as its [name]. *)
Definition named (t : value) (s : string) : Prop :=
  getProp t "name" = Ok (Some (JStr s)).

(** What the [catch] clause of [discoverOllamaModels] leaves behind. *)
Definition afterCatch (opts : option Options) (e : error) (w : World) : World :=
  if loud opts
  then {| requests := requests w; logs := logs w ++ [WarnFailed e];
          cacheFile := cacheFile w |}
  else w.

(** The entry for [ollama] when nothing was discovered and a key is
    there. *)
Definition keyedEntry (apiBase : string) (key : string) : value :=
  JObj [("baseUrl", JStr apiBase);
        ("api", JStr "ollama");
        ("models", JArr []);
        ("apiKey", JStr key)].

End Notions.

(* ================================================================== *)
(** * Sample inputs *)
(* ================================================================== *)

Module Samples.
Import JS.

(** [limit(2)] after three submissions, the first task settled, its
    continuation not yet run. *)
Definition limiterState : Limit.state :=
  {| Limit.queue := [2];
     Limit.active := 2;
     Limit.submitted := 3;
     Limit.started := [0; 1];
     Limit.inFlight := [1];
     Limit.settled := [0] |}.

Definition refWithoutProvider : Filter.ModelRef :=
  {| Filter.provider := None; Filter.id := Some "llama3" |}.

Definition defaultBase : string := "http://127.0.0.1:11434".

(** Stand-ins for the constants of [./ollama-stream.js]. *)
Definition cost : value :=
  JObj [("input", ofZ 0); ("output", ofZ 0);
        ("cacheRead", ofZ 0); ("cacheWrite", ofZ 0)].
Definition contextWindow : Z := 128000.
Definition maxTokens : Z := 8192.
Definition showMaxModels : Z := 3.
Definition showConcurrency : Z := 2.

Definition env : Providers.ProcessEnv :=
  {| Providers.VITEST := None; Providers.NODE_ENV := Some "production" |}.

Definition world (f : Providers.file) : Providers.World :=
  {| Providers.requests := []; Providers.logs := []; Providers.cacheFile := f |}.

(** A backend with four models, each with a context length of 8192. *)
Definition tag (name : string) : value :=
  JObj [("name", JStr name); ("size", ofZ 4661224676)].

Definition names : list string := ["llama3"; "deepseek-R1:7b"; "phi3"; "qwen2"].
Definition tags : list value := map tag names.
Definition tagList : value := JObj [("models", JArr tags)].

Definition metadata : object :=
  [("general.architecture", JStr "llama");
   ("llama.context_length", JNum (Finite (8192 # 1)))].
Definition modelInfo : value := JObj [("model_info", JObj metadata)].

Definition answer (data : value) : Providers.Response :=
  {| Providers.ok := true; Providers.status := 200; Providers.json := Some data |}.

Definition backend (_ : list Providers.Request) (request : Providers.Request)
    : Providers.reply :=
  Providers.Responds
    (answer (if endsWith (Providers.url request) "/api/tags"
             then tagList else modelInfo)).


(** No backend at all. *)
Definition unreachable (_ : list Providers.Request) (_ : Providers.Request)
    : Providers.reply :=
  Providers.Rejects.

(** Credentials: a store with nothing in it, and an environment with or
    without a key. *)
Definition openStore (_ : string) : unit := tt.
Definition noProfile (_ : string) (_ : unit) : option string := None.
Definition noEnvKey (_ : string) : option string := None.
Definition envKey (_ : string) : option string := Some "sk-local".

Definition params : Providers.Params :=
  {| Providers.agentDir := "/home/agent"; Providers.explicitProviders := None |}.

(** What an earlier run left in the cache file. *)
Definition cachedEntry : value :=
  JObj [("baseUrl", JStr defaultBase);
        ("api", JStr "ollama");
        ("models",
         JArr [JObj [("id", JStr "llama3"); ("name", JStr "llama3");
                     ("reasoning", JBool false);
                     ("input", JArr [JStr "text"]);
                     ("cost", cost);
                     ("contextWindow", ofZ 8192);
                     ("maxTokens", ofZ 8192)]]);
        ("apiKey", JStr "ollama-local")].
Definition cachedDocument : value := JObj [("ollama", cachedEntry)].

(** What discovery returns against [backend]. *)
Definition discovery :
    Providers.outcome (list Providers.ModelDefinitionConfig) * Providers.World :=
  Providers.discoverOllamaModels defaultBase cost contextWindow maxTokens
    showMaxModels showConcurrency env backend None None (world Providers.Absent).

Definition discovered : list Providers.ModelDefinitionConfig :=
  match fst discovery with
  | Providers.Returns ms => ms
  | _ => []
  end.

End Samples.

(* ================================================================== *)
(** * [src/utils/audit.ts]: the audit logger *)
(* ================================================================== *)

Module Audit.
Import JS.

(** The module variable [_fd], the parts of [process] the logger reads,
    and what it has done to the file system: the descriptors it was
    given, each with the path it was opened for, and the lines it wrote,
    each with its descriptor and the JSON document of the line. *)
Record state : Type := {
  _fd : option nat;                    (* [let _fd: number | null] *)
  OPENCLAW_AUDIT : option string;      (* [process.env.OPENCLAW_AUDIT] *)
  argv : list string;                  (* [process.argv] *)
  cwd : string;                        (* [process.cwd()] *)
  descriptors : list (nat * string);   (* oldest first *)
  appended : list (nat * value)        (* oldest first *)
}.

(** A computation on that state which may throw. *)
Definition A (T : Type) : Type := state -> result T * state.

Definition ret {T} (x : T) : A T := fun s => (Ok x, s).

Definition bind {T U} (m : A T) (k : T -> A U) : A U :=
  fun s =>
    match m s with
    | (Ok x, s') => k x s'
    | (Thrown e, s') => (Thrown e, s')
    end.

(** [try { m } catch { h }] *)
Definition tryCatch {T} (m : A T) (h : A T) : A T :=
  fun s =>
    match m s with
    | (Thrown _, s') => h s'
    | r => r
    end.

Definition lift {T} (r : result T) : A T := fun s => (r, s).

(** [{ ...o, key: v }]: an own property keeps its place and takes the
    new value, a new property goes last. *)
Fixpoint withProp (o : object) (key : string) (v : value) : object :=
  match o with
  | [] => [(key, v)]
  | (k, x) :: o' =>
      if String.eqb k key then (k, v) :: o' else (k, x) :: withProp o' key v
  end.

Definition AUDIT_FILE : string := "/.openclaw_audit.log".

Section FileSystem.

(** [require(id)] gives the module or throws.  The file is written as
    an ES module ([export function], imported as [../utils/audit.js]):
    loaded as one, [require] is not bound and the call throws a
    [ReferenceError]; compiled to CommonJS, [require("node:fs")] gives
    the built-in module. *)
Variable require : string -> result unit.

(** [fs.openSync(path, "a", 0o600)] gives a descriptor or throws;
    [fs.writeSync(fd, line)] appends the line or throws. *)
Variable openSync : state -> string -> option nat.
Variable writeSync : state -> nat -> bool.

Definition _open : A unit :=
  fun s =>
    match _fd s with
    | Some _ => (Ok tt, s)
    | None =>
        let path := (cwd s ++ AUDIT_FILE)%string in
        bind (lift (require "node:fs")) (fun _ s =>
          match openSync s path with
          | Some d =>
              (Ok tt,
               {| _fd := Some d; OPENCLAW_AUDIT := OPENCLAW_AUDIT s;
                  argv := argv s; cwd := cwd s;
                  descriptors := descriptors s ++ [(d, path)];
                  appended := appended s |})
          | None => (Thrown FsError, s)
          end) s
    end.

(** [fs.writeSync(_fd!, line)] *)
Definition write (line : value) : A unit :=
  fun s =>
    match _fd s with
    | Some d =>
        if writeSync s d
        then (Ok tt,
              {| _fd := _fd s; OPENCLAW_AUDIT := OPENCLAW_AUDIT s;
                 argv := argv s; cwd := cwd s;
                 descriptors := descriptors s;
                 appended := appended s ++ [(d, line)] |})
        else (Thrown FsError, s)
    | None => (Thrown TypeError, s)
    end.

(** [process.env.OPENCLAW_AUDIT !== "1"] *)
Definition disabled (s : state) : bool :=
  match OPENCLAW_AUDIT s with
  | Some v => negb (String.eqb v "1")
  | None => true
  end.

(** [audit(rec)]; [now] is what [new Date().toISOString()] gives during
    the call. *)
Definition audit (now : string) (rec : object) : A unit :=
  fun s =>
    if disabled s then (Ok tt, s)
    else
      tryCatch
        (bind _open (fun _ =>
         bind (lift (require "node:fs")) (fun _ =>
         let line := jsonClone (JObj (withProp rec "ts" (JStr now))) in
         write line)))
        (ret tt) s.

End FileSystem.

Definition enableAuditIfRequested : A unit :=
  fun s =>
    if existsb (String.eqb "--audit") (argv s)
    then (Ok tt,
          {| _fd := _fd s; OPENCLAW_AUDIT := Some "1";
             argv := argv s; cwd := cwd s;
             descriptors := descriptors s; appended := appended s |})
    else (Ok tt, s).

(** The process as it starts: nothing opened, nothing written. *)
Definition start (env : option string) (args : list string) (dir : string)
    : state :=
  {| _fd := None; OPENCLAW_AUDIT := env; argv := args; cwd := dir;
     descriptors := []; appended := [] |}.

End Audit.

(* ================================================================== *)
(** * [src/cli/gateway-cli.ts] *)
(* ================================================================== *)

Module GatewayCli.

(** The module body: the logger is switched on before anything else
    runs. *)
Definition load : Audit.A unit := Audit.enableAuditIfRequested.

End GatewayCli.

(* ================================================================== *)
(** * Further notions for statements *)
(* ================================================================== *)

Module Views.
Import JS Providers Trace Notions.
Local Open Scope string_scope.

(** ** The limiter *)

(** An event that is not a submission. *)
Definition finishing (e : Limit.event) : Prop := e <> Limit.Schedule.

(** ** Worlds *)

(** [m] takes every world to one that [R] relates it to. *)
Definition respects {A} (R : World -> World -> Prop) (m : M A) : Prop :=
  forall w, R w (snd (m w)).

(** The requests of [w'] are those of [w] and then some, each of which
    satisfies [P]. *)
Definition sends (P : Request -> Prop) (w w' : World) : Prop :=
  exists extra,
    requests w' = (requests w ++ extra)%list /\ Forall P extra.

(** The same for the log. *)
Definition logged (P : logEntry -> Prop) (w w' : World) : Prop :=
  exists extra, logs w' = (logs w ++ extra)%list /\ Forall P extra.

(** Neither the network nor the logger is touched between [w] and
    [w']. *)
Definition silently (w w' : World) : Prop :=
  requests w' = requests w /\ logs w' = logs w.

(** The connection pool [ollamaFetch] picks for a URL. *)
Definition agentFor (input : string) : agent :=
  if String.prefix "https" input then HttpsAgent else HttpAgent.

(** A request for the metadata of some model at [apiBase]. *)
Definition isProbe (apiBase : string) (r : Request) : Prop :=
  exists modelName, r = showRequest apiBase modelName.

(** ** JSON *)

(** A value that [JSON.stringify] and [JSON.parse] give back unchanged. *)
Definition clean (v : value) : Prop := jsonClone v = v.

(** ** Descriptors and tag entries *)

(** What every descriptor assembled by discovery looks like, given the
    default cost, context window and token limit. *)
Definition assembled (dfltCost : value) (dfltWindow dfltTokens : Z)
    (m : ModelDefinitionConfig) : Prop :=
  name m = id m
  /\ input m = ["text"]
  /\ cost m = dfltCost
  /\ maxTokens m = dfltTokens
  /\ (contextWindow m = dfltWindow \/ (0 < contextWindow m)%Z).

(** An entry of the tag list without a string as its [name]. *)
Definition unnamed (t : value) : Prop := forall s, ~ named t s.

(** ** The audit logger over time *)

(** The state of a logger that has opened its file at most once. *)
Definition opened_once (s : Audit.state) : Prop :=
  (Audit._fd s = None /\ Audit.descriptors s = [] /\ Audit.appended s = [])
  \/ (exists d dir,
        Audit._fd s = Some d
        /\ Audit.descriptors s = [(d, dir ++ Audit.AUDIT_FILE)]
        /\ Forall (fun line => fst line = d) (Audit.appended s)).

Inductive happening : Type :=
| Audited (now : string) (rec : object)     (* a call of [audit] *)
| ChangedDir (dir : string).                (* [process.chdir(dir)] *)

Section Happenings.

Variable require : string -> result unit.
Variable openSync : Audit.state -> string -> option nat.
Variable writeSync : Audit.state -> nat -> bool.

Definition happen (h : happening) (s : Audit.state) : Audit.state :=
  match h with
  | Audited now rec => snd (Audit.audit require openSync writeSync now rec s)
  | ChangedDir dir =>
      {| Audit._fd := Audit._fd s;
         Audit.OPENCLAW_AUDIT := Audit.OPENCLAW_AUDIT s;
         Audit.argv := Audit.argv s; Audit.cwd := dir;
         Audit.descriptors := Audit.descriptors s;
         Audit.appended := Audit.appended s |}
  end.

Definition happenAll (hs : list happening) (s : Audit.state) : Audit.state :=
  fold_left (fun s h => happen h s) hs s.

End Happenings.

End Views.

(* ================================================================== *)
(** * More sample inputs *)
(* ================================================================== *)

Module MoreSamples.
Import JS.

(** A backend that answers the first four requests like
    [Samples.backend] and is gone after that. *)
Definition flaky (history : list Providers.Request)
    (request : Providers.Request) : Providers.reply :=
  if (List.length history <? 4)%nat
  then Samples.backend history request
  else Providers.Rejects.

(** A backend whose second model comes without a name. *)
Definition broken (_ : list Providers.Request) (request : Providers.Request)
    : Providers.reply :=
  Providers.Responds
    (Samples.answer
       (if endsWith (Providers.url request) "/api/tags"
        then JObj [("models",
                    JArr [Samples.tag "llama3";
                          JObj [("size", ofZ 4661224676)];
                          Samples.tag "phi3"])]
        else Samples.modelInfo)).

(** The first run of the resolver against [flaky], without a key and
    with a cache file that can be written. *)
Definition firstDiscovery :
    Providers.outcome (list Providers.ModelDefinitionConfig) * Providers.World :=
  Providers.discoverOllamaModels Samples.defaultBase Samples.cost
    Samples.contextWindow Samples.maxTokens Samples.showMaxModels
    Samples.showConcurrency Samples.env flaky None
    (Some {| Providers.quiet := Some true |})
    (Samples.world Providers.Absent).

Definition firstModels : list Providers.ModelDefinitionConfig :=
  match fst firstDiscovery with
  | Providers.Returns ms => ms
  | _ => []
  end.

Definition firstRun : Providers.outcome object * Providers.World :=
  Providers.resolveImplicitProviders Samples.defaultBase Samples.cost
    Samples.contextWindow Samples.maxTokens Samples.showMaxModels
    Samples.showConcurrency unit Samples.openStore Samples.noEnvKey
    Samples.noProfile Samples.env flaky true Samples.params
    (Samples.world Providers.Absent).





End MoreSamples.

(* ================================================================== *)
(** * Properties of the JavaScript fragment *)
(* ================================================================== *)

Module JSFacts.
Import JS.
Local Open Scope string_scope.

(** ** Strings and their lists of code units *)

Lemma chars_str (l : list ascii) : chars (str l) = l.
Proof. apply list_ascii_of_string_of_list_ascii. Qed.

Lemma str_chars (s : string) : str (chars s) = s.
Proof. apply string_of_list_ascii_of_string. Qed.

Lemma chars_app (a b : string) : chars (a ++ b) = (chars a ++ chars b)%list.
Proof.
  induction a as [|c a IH]; simpl; [reflexivity|].
  unfold chars in *. simpl. now rewrite IH.
Qed.

Lemma str_app (a b : list ascii) : str (a ++ b)%list = str a ++ str b.
Proof.
  induction a as [|c a IH]; simpl; [reflexivity|].
  unfold str in *. simpl. now rewrite IH.
Qed.

Lemma chars_inj (a b : string) : chars a = chars b -> a = b.
Proof.
  intros H. rewrite <- (str_chars a), <- (str_chars b). now rewrite H.
Qed.

Lemma length_chars (s : string) : List.length (chars s) = String.length s.
Proof. induction s as [|c s IH]; simpl; [reflexivity|]. unfold chars in *. simpl. now rewrite IH. Qed.

Lemma length_append (a b : string) :
  String.length (a ++ b) = (String.length a + String.length b)%nat.
Proof. induction a as [|c a IH]; simpl; [reflexivity|]. now rewrite IH. Qed.

Lemma append_nil_r (s : string) : s ++ "" = s.
Proof. induction s as [|c s IH]; simpl; [reflexivity|]. now rewrite IH. Qed.

Lemma append_assoc (a b c : string) : (a ++ b) ++ c = a ++ (b ++ c).
Proof. induction a as [|x a IH]; simpl; [reflexivity|]. now rewrite IH. Qed.

(** ** [substring] *)

Lemma substring_all (s : string) : substring 0 (String.length s) s = s.
Proof. induction s as [|c s IH]; simpl; [reflexivity|]. now rewrite IH. Qed.

Lemma substring_skip (p q : string) (m : nat) :
  substring (String.length p) m (p ++ q) = substring 0 m q.
Proof. induction p as [|c p IH]; simpl; [reflexivity|]. exact IH. Qed.

Lemma substring_take (p q : string) :
  substring 0 (String.length p) (p ++ q) = p.
Proof. induction p as [|c p IH]; simpl; [now destruct q|]. now rewrite IH. Qed.

Lemma substring_split (s : string) (n : nat) :
  (n <= String.length s)%nat ->
  s = substring 0 n s ++ substring n (String.length s - n) s.
Proof.
  revert n. induction s as [|c s IH]; intros n Hn; simpl in *.
  - destruct n; reflexivity.
  - destruct n as [|n]; simpl.
    + now rewrite substring_all.
    + f_equal. apply IH. lia.
Qed.

(** ** [endsWith], [prefix] and [includes] against concatenation *)

Lemma endsWith_iff (s suffix : string) :
  endsWith s suffix = true <-> exists p, s = p ++ suffix.
Proof.
  unfold endsWith. split.
  - destruct (Nat.ltb_spec (String.length s) (String.length suffix)) as [|Hle];
      [discriminate|].
    intros H. apply String.eqb_eq in H.
    exists (substring 0 (String.length s - String.length suffix) s).
    pose proof (substring_split s (String.length s - String.length suffix)
                  ltac:(lia)) as Hs.
    replace (String.length s - (String.length s - String.length suffix))%nat
      with (String.length suffix) in Hs by lia.
    now rewrite H in Hs.
  - intros [p ->]. rewrite length_append.
    destruct (Nat.ltb_spec (String.length p + String.length suffix)
                (String.length suffix)) as [|_]; [lia|].
    replace (String.length p + String.length suffix - String.length suffix)%nat
      with (String.length p) by lia.
    rewrite substring_skip, substring_all. apply String.eqb_refl.
Qed.

Lemma prefix_iff (p s : string) :
  String.prefix p s = true <-> exists q, s = p ++ q.
Proof.
  revert s. induction p as [|c p IH]; intros s.
  - split; [intros _; now exists s | intros _; now destruct s].
  - destruct s as [|d s]; simpl.
    + split; [discriminate | intros [q H]; discriminate].
    + destruct (ascii_dec c d) as [->|Hne].
      * rewrite IH. split; intros [q H]; exists q; [now rewrite H | now inversion H].
      * split; [discriminate | intros [q H]; inversion H; congruence].
Qed.

Lemma includes_unfold (s sub : string) :
  includes s sub =
  if String.prefix sub s then true
  else match s with
       | EmptyString => false
       | String _ s' => includes s' sub
       end.
Proof. destruct s; reflexivity. Qed.

Lemma includes_iff (s sub : string) :
  includes s sub = true <-> exists a b, s = a ++ sub ++ b.
Proof.
  induction s as [|c s IH]; rewrite includes_unfold;
    destruct (String.prefix sub _) eqn:Hp.
  - apply prefix_iff in Hp. destruct Hp as [q Hq].
    split; [intros _; now exists "", q | reflexivity].
  - split; [discriminate|]. intros [a [b H]].
    destruct a; [|discriminate]. simpl in H.
    assert (String.prefix sub "" = true) by (apply prefix_iff; now exists b).
    congruence.
  - apply prefix_iff in Hp. destruct Hp as [q Hq].
    split; [intros _; now exists "", q | reflexivity].
  - rewrite IH. split.
    + intros [a [b ->]]. now exists (String c a), b.
    + intros [a [b H]]. destruct a as [|d a]; simpl in H.
      * assert (String.prefix sub (String c s) = true)
          by (apply prefix_iff; now exists b).
        congruence.
      * inversion H; subst. now exists a, b.
Qed.

Lemma toLowerCase_app (a b : string) :
  toLowerCase (a ++ b) = toLowerCase a ++ toLowerCase b.
Proof. unfold toLowerCase. now rewrite chars_app, map_app, str_app. Qed.

(** A lower-cased string splits where the original splits. *)
Lemma toLowerCase_split (s x y : string) :
  toLowerCase s = x ++ y ->
  exists a b, s = a ++ b /\ toLowerCase a = x /\ toLowerCase b = y.
Proof.
  unfold toLowerCase. intros H.
  assert (Hc : map lowerChar (chars s) = (chars x ++ chars y)%list).
  { rewrite <- chars_app, <- H. now rewrite chars_str. }
  apply map_eq_app in Hc. destruct Hc as [la [lb [Hs [Ha Hb]]]].
  exists (str la), (str lb). repeat split.
  - rewrite <- str_app, <- Hs. now rewrite str_chars.
  - now rewrite chars_str, Ha, str_chars.
  - now rewrite chars_str, Hb, str_chars.
Qed.

(** ** [dropWhile] and [dropWhileEnd] *)

Lemma dropWhile_nil {A} (p : A -> bool) (l : list A) :
  dropWhile p l = [] <-> forallb p l = true.
Proof.
  induction l as [|x l IH]; simpl; [tauto|].
  destruct (p x); simpl; [exact IH | split; discriminate].
Qed.

Lemma dropWhile_split {A} (p : A -> bool) (l : list A) :
  exists dropped, l = (dropped ++ dropWhile p l)%list /\ forallb p dropped = true.
Proof.
  induction l as [|x l [d [Hl Hd]]]; simpl.
  - now exists [].
  - destruct (p x) eqn:Hx.
    + exists (x :: d). simpl. rewrite Hx, Hd. split; [now rewrite <- Hl | reflexivity].
    + now exists [].
Qed.

Lemma dropWhile_head {A} (p : A -> bool) (l : list A) (x : A) (r : list A) :
  dropWhile p l = x :: r -> p x = false.
Proof.
  induction l as [|y l IH]; simpl; [discriminate|].
  destruct (p y) eqn:Hy; [exact IH|]. intros H. inversion H. now subst.
Qed.

Lemma dropWhileEnd_split {A} (p : A -> bool) (l : list A) :
  exists dropped,
    l = (dropWhileEnd p l ++ dropped)%list /\ forallb p dropped = true.
Proof.
  unfold dropWhileEnd.
  destruct (dropWhile_split p (rev l)) as [d [Hl Hd]].
  exists (rev d). split.
  - rewrite <- rev_app_distr, <- Hl. now rewrite rev_involutive.
  - rewrite forallb_forall in *. intros x Hx. apply Hd. now apply in_rev.
Qed.

Lemma dropWhileEnd_last {A} (p : A -> bool) (l r : list A) (x : A) :
  dropWhileEnd p l = (r ++ [x])%list -> p x = false.
Proof.
  unfold dropWhileEnd. intros H.
  apply (f_equal (@rev A)) in H. rewrite rev_involutive, rev_app_distr in H.
  simpl in H. now apply dropWhile_head in H.
Qed.

Lemma forallb_rev {A} (p : A -> bool) (l : list A) :
  forallb p (rev l) = forallb p l.
Proof.
  induction l as [|x l IH]; simpl; [reflexivity|].
  rewrite forallb_app, IH. simpl. rewrite andb_true_r. apply andb_comm.
Qed.

Lemma dropWhileEnd_nil {A} (p : A -> bool) (l : list A) :
  dropWhileEnd p l = [] <-> forallb p l = true.
Proof.
  unfold dropWhileEnd. rewrite <- (forallb_rev p l), <- dropWhile_nil.
  split; intros H.
  - apply (f_equal (@rev A)) in H. now rewrite rev_involutive in H.
  - now rewrite H.
Qed.

(** [trim] leaves nothing exactly when there was only white space. *)
Lemma trim_empty (s : string) :
  trim s = "" <-> forallb isWhiteSpace (chars s) = true.
Proof.
  unfold trim. split.
  - intros H. apply (f_equal chars) in H. rewrite chars_str in H.
    change (chars "") with (@nil ascii) in H.
    apply dropWhileEnd_nil in H.
    destruct (dropWhile_split isWhiteSpace (chars s)) as [d [Hs Hd]].
    rewrite Hs, forallb_app, Hd, H. reflexivity.
  - intros H. apply dropWhile_nil in H. rewrite H. reflexivity.
Qed.

(** ** The two replacements of [resolveOllamaApiBase] *)

Lemma isV1_cases (v : string) : isV1 v = true <-> v = "/v1" \/ v = "/V1".
Proof.
  unfold isV1. split.
  - destruct v as [|a [|b [|c [|d v]]]]; simpl; try discriminate.
    rewrite !andb_true_iff, orb_true_iff, !Ascii.eqb_eq.
    intros [[-> [-> | ->]] ->]; auto.
  - intros [-> | ->]; reflexivity.
Qed.

Lemma endsWithV1_iff (s : string) :
  endsWithV1 s = true <-> exists p, s = p ++ "/v1" \/ s = p ++ "/V1".
Proof.
  unfold endsWithV1. rewrite andb_true_iff, isV1_cases. split.
  - intros [Hn Hv]. apply Nat.leb_le in Hn.
    exists (substring 0 (String.length s - 3) s).
    pose proof (substring_split s (String.length s - 3) ltac:(lia)) as Hs.
    replace (String.length s - (String.length s - 3))%nat with 3%nat in Hs by lia.
    destruct Hv as [Hv | Hv]; rewrite Hv in Hs; auto.
  - intros [p Hp].
    assert (Hlen : String.length s = (String.length p + 3)%nat)
      by (destruct Hp as [-> | ->]; now rewrite length_append).
    split; [apply Nat.leb_le; lia|].
    replace (String.length s - 3)%nat with (String.length p) by lia.
    destruct Hp as [-> | ->]; rewrite substring_skip; simpl; auto.
Qed.

Lemma stripV1Suffix_spec (s : string) :
  (exists v, (v = "/v1" \/ v = "/V1") /\ s = stripV1Suffix s ++ v)
  \/ (stripV1Suffix s = s /\ forall p, s <> p ++ "/v1" /\ s <> p ++ "/V1").
Proof.
  unfold stripV1Suffix. destruct (endsWithV1 s) eqn:He.
  - left. apply endsWithV1_iff in He. destruct He as [p Hp].
    assert (Hlen : (String.length s - 3)%nat = String.length p)
      by (destruct Hp as [-> | ->]; rewrite length_append; simpl; lia).
    rewrite Hlen.
    destruct Hp as [-> | ->]; rewrite substring_take; eauto.
  - right. split; [reflexivity|]. intros p. split; intros E.
    + assert (endsWithV1 s = true) by (apply endsWithV1_iff; eauto).
      congruence.
    + assert (endsWithV1 s = true) by (apply endsWithV1_iff; eauto).
      congruence.
Qed.

Lemma stripTrailingSlashes_spec (s : string) :
  exists slashes,
    s = stripTrailingSlashes s ++ slashes
    /\ forallb isSlash (chars slashes) = true
    /\ forall p, stripTrailingSlashes s <> p ++ "/".
Proof.
  unfold stripTrailingSlashes.
  destruct (dropWhileEnd_split isSlash (chars s)) as [d [Hs Hd]].
  exists (str d). split; [|split].
  - rewrite <- str_app, <- Hs. now rewrite str_chars.
  - now rewrite chars_str.
  - intros p H. apply (f_equal chars) in H.
    rewrite chars_str, chars_app in H.
    apply dropWhileEnd_last in H. discriminate.
Qed.

(** ** Comparisons of numbers *)

Lemma lessThan_int (a b : Z) : lessThan (int a) (int b) = (a <? b)%Z.
Proof.
  unfold lessThan, int. apply eq_true_iff_eq.
  rewrite negb_true_iff, <- not_true_iff_false, Qle_bool_iff, Z.ltb_lt,
    <- Zle_Qle.
  lia.
Qed.

Lemma atLeast_int (a b : Z) : atLeast (int a) (int b) = (a >=? b)%Z.
Proof.
  unfold atLeast, int. apply eq_true_iff_eq.
  rewrite Qle_bool_iff, <- Zle_Qle, Z.geb_le. reflexivity.
Qed.

(** [a >= max] stays true when [a] grows. *)
Lemma atLeast_mono (max : number) (a b : Z) :
  (a <= b)%Z -> atLeast (int a) max = true -> atLeast (int b) max = true.
Proof.
  intros Hab. destruct max as [q| | |]; simpl; auto.
  rewrite !Qle_bool_iff. intros H.
  apply (Qle_trans _ _ _ H). now rewrite <- Zle_Qle.
Qed.

(** A number that is at least 1 is not below 1, and 0 is below it. *)
Lemma atLeast_one (max : number) :
  atLeast max (int 1) = true ->
  lessThan max (int 1) = false /\ atLeast (int 0) max = false.
Proof.
  destruct max as [q| | |]; simpl; try discriminate; [|now split].
  intros H. rewrite H. split; [reflexivity|].
  apply not_true_iff_false. rewrite Qle_bool_iff in *.
  intros H0. pose proof (Qle_trans _ _ _ H H0) as H1.
  now apply (Qle_not_lt _ _ H1).
Qed.

End JSFacts.

(* ================================================================== *)
(** * Properties of the concurrency limiter *)
(* ================================================================== *)

Module LimitFacts.
Import JS JSFacts Limit Notions.
Local Open Scope Z_scope.

#[local] Arguments atLeast : simpl never.
#[local] Arguments lessThan : simpl never.

(** ** Removing a task from a list without repetitions *)

Lemma remove_perm (t : nat) (l : list nat) :
  NoDup l -> In t l -> Permutation l (t :: remove t l).
Proof.
  unfold remove. induction 1 as [|x l Hx Hl IH]; intros Hin; [destruct Hin|].
  simpl. destruct (Nat.eqb_spec x t) as [->|Hne]; simpl.
  - constructor.
    rewrite (proj2 (filter_ext_in_iff _ (fun _ => true) l)).
    + clear. induction l; simpl; auto.
    + intros u Hu. destruct (Nat.eqb_spec u t) as [->|]; [contradiction|reflexivity].
  - destruct Hin as [->|Hin]; [congruence|].
    rewrite perm_swap. constructor. now apply IH.
Qed.

Lemma existsb_In (t : nat) (l : list nat) :
  existsb (Nat.eqb t) l = true -> In t l.
Proof.
  intros H. apply existsb_exists in H. destruct H as [u [Hu E]].
  apply Nat.eqb_eq in E. now subst.
Qed.

(** ** The invariant of the closure state *)

Lemma core_init (max : number) : core max initial /\ busy max initial.
Proof.
  split.
  - constructor; simpl; try (now left); try constructor; try reflexivity.
    intros x [].
  - intros E. now contradiction E.
Qed.

Lemma next_core (max : number) (s : state) : core max s -> core max (next max s).
Proof.
  intros Hcore. unfold next.
  destruct (atLeast (int (active s)) max) eqn:Hfull; simpl; [exact Hcore|].
  destruct (queue s) as [|t rest] eqn:Hq; simpl; [exact Hcore|].
  destruct Hcore as [Hc Hb Hf Hn Hs]. rewrite Hq in Hf.
  assert (Hfresh : ~ In t (started s)).
  { assert (Hnd : NoDup (started s ++ t :: rest)) by (rewrite Hf; apply seq_NoDup).
    apply NoDup_remove_2 in Hnd. intros Hin. apply Hnd.
    apply in_or_app. now left. }
  assert (Hperm : Permutation ((inFlight s ++ [t]) ++ settled s)
                    (t :: inFlight s ++ settled s)).
  { rewrite <- app_assoc. simpl. symmetry. apply Permutation_middle. }
  constructor; simpl.
  - rewrite (Permutation_length Hperm). cbn [List.length]. lia.
  - right. now rewrite Z.add_simpl_r.
  - now rewrite <- app_assoc.
  - apply (Permutation_NoDup (Permutation_sym Hperm)). constructor; [|exact Hn].
    intros Hin. apply Hfresh. now apply Hs.
  - intros x Hx. apply (Permutation_in _ Hperm) in Hx. apply in_or_app.
    destruct Hx as [->|Hx]; [right; now left | left; now apply Hs].
Qed.

Lemma next_busy (max : number) (s : state) :
  (queue s <> [] ->
   atLeast (int (active s + 1)) max = true \/ List.length (queue s) = 1%nat) ->
  busy max (next max s).
Proof.
  intros H. unfold busy, next.
  destruct (atLeast (int (active s)) max) eqn:Hfull; simpl; [now intros _|].
  destruct (queue s) as [|t rest] eqn:Hq; simpl; [intros E; now contradiction E|].
  intros Hrest. destruct H as [H|H]; [discriminate | exact H |].
  destruct rest; [now contradiction Hrest | discriminate].
Qed.

(** What [next()] does when it starts a task. *)
Lemma next_starts (max : number) (s : state) (u : nat) (rest : list nat) :
  atLeast (int (active s)) max = false -> queue s = u :: rest ->
  next max s
  = {| queue := rest; active := active s + 1; submitted := submitted s;
       started := started s ++ [u]; inFlight := inFlight s ++ [u];
       settled := settled s |}.
Proof. intros Hfull Hq. unfold next. now rewrite Hfull, Hq. Qed.

Lemma step_inv (max : number) (e : event) (s : state) :
  core max s -> busy max s -> enabled e s = true ->
  core max (step max e s) /\ busy max (step max e s).
Proof.
  intros Hcore Hbusy Hen. pose proof Hcore as [Hc Hb Hf Hn Hs].
  destruct e as [|t|t]; simpl in *.
  - (* a new task is pushed *)
    unfold schedule.
    match goal with |- core _ (next _ ?s1) /\ _ => set (pushed := s1) end.
    assert (Hp : core max pushed).
    { constructor; simpl; auto.
      rewrite app_assoc, Hf. symmetry. apply seq_S. }
    split; [now apply next_core|]. apply next_busy. simpl.
    intros _. destruct (queue s) as [|u q] eqn:Hq; [now right|].
    left. apply (atLeast_mono max (active s)); [lia|].
    apply Hbusy. now rewrite Hq.
  - (* the promise of a task in flight settles *)
    apply existsb_In in Hen.
    assert (Hnf : NoDup (inFlight s)) by now apply NoDup_app_remove_r in Hn.
    pose proof (remove_perm t _ Hnf Hen) as Hrm.
    assert (Hperm : Permutation (remove t (inFlight s) ++ settled s ++ [t])
                      (inFlight s ++ settled s)).
    { rewrite Hrm at 2. simpl. rewrite app_assoc.
      rewrite <- Permutation_cons_append. reflexivity. }
    split; [|exact Hbusy]. constructor; simpl; auto.
    + now rewrite (Permutation_length Hperm).
    + now apply (Permutation_NoDup (Permutation_sym Hperm)).
    + intros x Hx. apply Hs. now apply (Permutation_in _ Hperm).
  - (* the continuation of a settled task runs *)
    apply existsb_In in Hen. unfold resume.
    match goal with |- core _ (next _ ?s1) /\ _ => set (freed := s1) end.
    assert (Hns : NoDup (settled s)) by now apply NoDup_app_remove_l in Hn.
    pose proof (remove_perm t _ Hns Hen) as Hrm.
    assert (Hperm : Permutation (inFlight s ++ settled s)
                      (t :: inFlight s ++ remove t (settled s))).
    { rewrite Hrm at 1. symmetry. apply Permutation_middle. }
    assert (Hpos : 1 <= active s).
    { rewrite Hc, (Permutation_length Hperm). cbn [List.length]. lia. }
    assert (Hp : core max freed).
    { constructor; simpl; auto.
      - rewrite Hc, (Permutation_length Hperm). cbn [List.length]. lia.
      - destruct Hb as [Hb|Hb]; [lia|]. right.
        destruct (atLeast (int (active s - 1 - 1)) max) eqn:E; [|reflexivity].
        rewrite (atLeast_mono max (active s - 1 - 1) (active s - 1)) in Hb;
          [discriminate | lia | exact E].
      - apply (Permutation_NoDup Hperm) in Hn. now inversion Hn.
      - intros x Hx. apply Hs. apply (Permutation_in _ (Permutation_sym Hperm)).
        now right. }
    split; [now apply next_core|]. apply next_busy. simpl.
    intros Hq. left. rewrite Z.sub_add. exact (Hbusy Hq).
Qed.

Lemma exec_inv (max : number) (es : list event) (s s' : state) :
  core max s -> busy max s -> exec max es s = Some s' ->
  core max s' /\ busy max s'.
Proof.
  revert s. induction es as [|e es IH]; intros s Hc Hb; simpl.
  - intros H. inversion H; subst. now split.
  - destruct (enabled e s) eqn:He; [|discriminate].
    destruct (step_inv max e s Hc Hb He) as [Hc' Hb']. now apply IH.
Qed.

Lemma reachable_inv (max : number) (s : state) :
  reachable max s -> core max s /\ busy max s.
Proof.
  intros [es Hes]. destruct (core_init max) as [Hc Hb].
  exact (exec_inv max es initial s Hc Hb Hes).
Qed.

(** The running tasks are fewer than [max + 1]: at most [max] of them
    for an integer [max]. *)
Lemma core_fewer (max : number) (s : state) (q : Q) :
  atLeast max (int 1) = true -> core max s -> max = Finite q ->
  (inject_Z (active s) < q + 1)%Q.
Proof.
  intros Hmax [_ Hb _ _ _] ->. unfold atLeast, int in *.
  rewrite Qle_bool_iff in Hmax.
  destruct Hb as [->|Hb].
  - apply Qlt_le_trans with (y := 1%Q); [reflexivity|].
    rewrite <- (Qplus_0_l 1) at 1. apply Qplus_le_l.
    apply Qle_trans with (y := inject_Z 1); [discriminate | exact Hmax].
  - apply not_true_iff_false in Hb. rewrite Qle_bool_iff in Hb.
    apply Qnot_le_lt in Hb.
    replace (active s) with (active s - 1 + 1) at 1 by lia.
    rewrite inject_Z_plus. now apply Qplus_lt_l.
Qed.

(** ** A batch that fits starts at once *)

(** [n] submissions to a limiter with an empty queue and [n] free slots
    start all [n] tasks as they are submitted: nothing is queued.  This
    is the situation of every batch of [discoverOllamaModels]. *)
Lemma batch_starts_at_once (max : Z) (n : nat) (s : state) :
  queue s = [] -> active s + Z.of_nat n <= max ->
  let s' := Nat.iter n (schedule (int max)) s in
  queue s' = []
  /\ active s' = active s + Z.of_nat n
  /\ submitted s' = (submitted s + n)%nat
  /\ started s' = (started s ++ seq (submitted s) n)%list
  /\ inFlight s' = (inFlight s ++ seq (submitted s) n)%list
  /\ settled s' = settled s.
Proof.
  intros Hq. induction n as [|n IH]; intros Hn.
  - simpl. rewrite !app_nil_r, Nat.add_0_r, Z.add_0_r. repeat split; auto.
  - destruct IH as [Hq' [Ha [Hsub [Hst [Hfl Hse]]]]]; [lia|].
    rewrite seq_S, Nat2Z.inj_succ.
    change (Nat.iter (S n) (schedule (int max)) s)
      with (schedule (int max) (Nat.iter n (schedule (int max)) s)).
    set (s1 := Nat.iter n (schedule (int max)) s) in *.
    unfold schedule, next. cbn [queue active]. rewrite Hq', atLeast_int. cbn.
    destruct (Z.geb_spec (active s1) max) as [|_]; [lia|]. cbn.
    rewrite Ha, Hsub, Hst, Hfl, Hse, !app_assoc.
    repeat split; lia.
Qed.

Lemma app_eq_length {A} (l1 l1' l2 l2' : list A) :
  List.length l1 = List.length l1' ->
  (l1 ++ l2 = l1' ++ l2')%list -> l1 = l1' /\ l2 = l2'.
Proof.
  revert l1'. induction l1 as [|x l1 IH]; intros [|y l1'] Hlen H;
    simpl in *; try discriminate; [now split|].
  inversion H; subst. destruct (IH l1') as [-> ->]; auto.
Qed.

(** ** The two claims about the limiter *)

(** C2, amended.  For every number [max >= 1] and every state the
    limiter built by [limit(max)] can reach: the tasks in flight are
    fewer than [max + 1], so at most [max] when [max] is an integer; the
    counter [active] is the number of tasks started and not yet finished
    with; every submitted task has been started or is queued; the tasks
    started so far are the first submissions, in submission order, and
    the queue holds the later ones in submission order; a task waits only
    while [active >= max]; and capacity that frees up is used at once:
    when the continuation of a finished task runs while tasks wait, the
    task at the head of the queue starts in the same step, and a task
    submitted while [active < max] starts in its own call. *)
Theorem limiter_bound_and_fifo (max : number) (s : state) :
  atLeast max (int 1) = true -> reachable max s ->
  (forall q, max = Finite q ->
             (inject_Z (Z.of_nat (List.length (inFlight s))) < q + 1)%Q)
  /\ (forall m, max = int m -> Z.of_nat (List.length (inFlight s)) <= m)
  /\ active s = Z.of_nat (List.length (inFlight s) + List.length (settled s))
  /\ submitted s = (List.length (started s) + List.length (queue s))%nat
  /\ started s = seq 0 (List.length (started s))
  /\ queue s = seq (List.length (started s)) (List.length (queue s))
  /\ (queue s <> [] -> atLeast (int (active s)) max = true)
  /\ (forall t u rest,
        In t (settled s) -> queue s = u :: rest ->
        let s' := resume max t s in
        started s' = (started s ++ [u])%list
        /\ inFlight s' = (inFlight s ++ [u])%list
        /\ queue s' = rest
        /\ active s' = active s)
  /\ (atLeast (int (active s)) max = false ->
      let s' := schedule max s in
      started s' = (started s ++ [submitted s])%list
      /\ inFlight s' = (inFlight s ++ [submitted s])%list
      /\ queue s' = []
      /\ active s' = active s + 1).
Proof.
  intros Hmax Hr.
  destruct (reachable_inv max s Hr) as [Hcore Hbusy].
  pose proof Hcore as [Hc Hb Hf Hn Hs].
  rewrite length_app in Hc.
  assert (Hlen : submitted s
                 = (List.length (started s) + List.length (queue s))%nat).
  { apply (f_equal (@List.length nat)) in Hf.
    now rewrite length_app, length_seq in Hf. }
  assert (Hf' := Hf). rewrite Hlen, seq_app in Hf'. simpl in Hf'.
  apply app_eq_length in Hf'; [|now rewrite length_seq].
  destruct Hf' as [Hst Hqu].
  assert (Hfewer : forall q, max = Finite q ->
             (inject_Z (Z.of_nat (List.length (inFlight s))) < q + 1)%Q).
  { intros q E. apply Qle_lt_trans with (y := inject_Z (active s)).
    - rewrite <- Zle_Qle. lia.
    - now apply (core_fewer max). }
  split; [exact Hfewer|]. split.
  { intros m E. destruct Hb as [Hb|Hb].
    - apply atLeast_one in Hmax. destruct Hmax as [_ H0].
      rewrite E, atLeast_int in H0. lia.
    - rewrite E, atLeast_int in Hb. lia. }
  split; [exact Hc|]. split; [exact Hlen|].
  split; [exact Hst|]. split; [exact Hqu|]. split; [exact Hbusy|]. split.
  - (* a slot frees up while tasks wait *)
    intros t u rest Ht Hq. cbv zeta. unfold resume.
    assert (Hpos : 1 <= active s).
    { destruct (settled s); [destruct Ht | simpl in Hc; lia]. }
    assert (Hroom : atLeast (int (active s - 1)) max = false).
    { destruct Hb as [Hb|Hb]; [lia | exact Hb]. }
    rewrite (next_starts max _ u rest); [|exact Hroom | exact Hq].
    simpl. repeat split. lia.
  - (* a submission that finds a free slot *)
    intros Hroom. cbv zeta. unfold schedule.
    assert (Hq : queue s = []).
    { destruct (queue s) as [|u q] eqn:Hq; [reflexivity|].
      rewrite Hbusy in Hroom; [discriminate | now rewrite Hq]. }
    rewrite (next_starts max _ (submitted s) []);
      [|exact Hroom | simpl; now rewrite Hq].
    simpl. now repeat split.
Qed.

(** Three submissions to [limit(2)]; the first task has settled and its
    continuation has not run yet. *)
Lemma sample_reachable : reachable (int 2) Samples.limiterState.
Proof.
  exists [Schedule; Schedule; Schedule; Settle 0%nat]. reflexivity.
Defined.

Lemma limiter_bound_and_fifo_witness :
  Z.of_nat (List.length (inFlight Samples.limiterState)) <= 2
  /\ active Samples.limiterState = 2
  /\ started Samples.limiterState = [0; 1]%nat
  /\ queue Samples.limiterState = [2]%nat
  /\ inFlight (resume (int 2) 0 Samples.limiterState) = [1; 2]%nat
  /\ queue (resume (int 2) 0 Samples.limiterState) = [].
Proof.
  destruct (limiter_bound_and_fifo (int 2) Samples.limiterState eq_refl
              sample_reachable)
    as [_ [H1 [H2 [_ [H3 [H4 [_ [H5 _]]]]]]]].
  split; [exact (H1 2 eq_refl)|]. split; [exact H2|].
  split; [exact H3|]. split; [exact H4|].
  destruct (H5 0%nat 2%nat [] (or_introl eq_refl) eq_refl) as [_ [H6 [H7 _]]].
  split; [exact H6 | exact H7].
Defined.

(** [limit(1.5)] passes the guard, and its second task starts while the
    first is in flight: two tasks run, more than [max]. *)
Lemma limiter_exceeds_fractional_max :
  atLeast (Finite (3 # 2)) (int 1) = true
  /\ limit (Finite (3 # 2)) = Ok initial
  /\ exec (Finite (3 # 2)) [Schedule; Schedule] initial
     = Some {| queue := []; active := 2; submitted := 2;
               started := [0; 1]%nat; inFlight := [0; 1]%nat;
               settled := [] |}
  /\ lessThan (Finite (3 # 2)) (int (Z.of_nat (List.length [0; 1]%nat))) = true.
Proof. repeat split. Qed.

(** C3.  [limit(max)] throws when [max < 1], before any scheduling
    function exists; otherwise, so whenever [max >= 1], it returns a
    limiter with nothing queued and nothing running.  For an integer
    [max] the comparison is the one of the integers. *)
Theorem limit_guard (max : number) :
  (lessThan max (int 1) = true ->
   limit max = Thrown (Error "Concurrency limit must be >= 1"))
  /\ (lessThan max (int 1) = false ->
      limit max = Ok initial
      /\ queue initial = [] /\ active initial = 0 /\ inFlight initial = [])
  /\ (atLeast max (int 1) = true -> lessThan max (int 1) = false)
  /\ (forall m, max = int m -> lessThan max (int 1) = (m <? 1)).
Proof.
  unfold limit. split; [|split; [|split]].
  - intros ->. reflexivity.
  - intros ->. now repeat split.
  - intros H. now apply atLeast_one.
  - intros m ->. apply lessThan_int.
Qed.

Lemma limit_guard_witness :
  limit (int 0) = Thrown (Error "Concurrency limit must be >= 1")
  /\ limit (Finite (1 # 2)) = Thrown (Error "Concurrency limit must be >= 1")
  /\ limit (int 1) = Ok initial.
Proof.
  split; [|split].
  - apply (proj1 (limit_guard (int 0))). reflexivity.
  - apply (proj1 (limit_guard (Finite (1 # 2)))). reflexivity.
  - apply (proj1 (proj2 (limit_guard (int 1)))). reflexivity.
Defined.

End LimitFacts.

(* ================================================================== *)
(** * Properties of the model filter *)
(* ================================================================== *)

Module FilterFacts.
Import JS JSFacts Filter Notions.
Local Open Scope string_scope.

Lemma truthyString_trim (o : option string) :
  truthyString (option_map trim o) = true <-> exists s, o = Some s /\ visible s.
Proof.
  destruct o as [s|]; simpl.
  - rewrite negb_true_iff. split.
    + intros H. exists s. split; [reflexivity|].
      destruct (forallb isWhiteSpace (chars s)) eqn:Hall.
      * apply trim_empty in Hall. rewrite Hall in H. discriminate.
      * apply not_true_iff_false in Hall. unfold visible.
        destruct (existsb (fun c => negb (isWhiteSpace c)) (chars s)) eqn:Hex.
        -- apply existsb_exists in Hex. destruct Hex as [c [Hc Hw]].
           exists c. split; [exact Hc | now apply negb_true_iff].
        -- exfalso. apply Hall. apply forallb_forall. intros c Hc.
           destruct (isWhiteSpace c) eqn:Hw; [reflexivity|].
           assert (existsb (fun c => negb (isWhiteSpace c)) (chars s) = true)
             by (apply existsb_exists; exists c; now rewrite Hw).
           congruence.
    + intros [s' [E [c [Hc Hw]]]]. inversion E; subst s'; clear E.
      destruct (String.eqb_spec (trim s) ""); [|reflexivity].
      assert (Hall : forallb isWhiteSpace (chars s) = true) by now apply trim_empty.
      rewrite forallb_forall in Hall. rewrite (Hall c Hc) in Hw. discriminate.
  - split; [discriminate | intros [s [E _]]; discriminate].
Qed.

(** C9, amended.  [isModernModelRef] accepts a reference exactly when its
    provider and its id are both present and both contain a character that
    is not white space. *)
Theorem isModernModelRef_iff (ref : ModelRef) :
  isModernModelRef ref = true <->
  exists p i, provider ref = Some p /\ id ref = Some i
              /\ visible p /\ visible i.
Proof.
  unfold isModernModelRef. rewrite andb_true_iff, !truthyString_trim. split.
  - intros [[p [Hp Vp]] [i [Hi Vi]]]. now exists p, i.
  - intros [p [i [Hp [Hi [Vp Vi]]]]]. split; eauto.
Qed.

Lemma isModernModelRef_iff_witness :
  isModernModelRef {| provider := Some "ollama"; id := Some " llama3 " |} = true.
Proof.
  apply (proj2 (isModernModelRef_iff
                  {| provider := Some "ollama"; id := Some " llama3 " |})).
  exists "ollama", " llama3 ". split; [reflexivity|]. split; [reflexivity|].
  split.
  - exists "o"%char. split; [now left | reflexivity].
  - exists "l"%char. split; [right; now left | reflexivity].
Defined.

(** C9 as stated fails: a reference without a provider is rejected. *)
Lemma isModernModelRef_rejects :
  ~ (forall ref : ModelRef, isModernModelRef ref = true).
Proof.
  intros H. specialize (H Samples.refWithoutProvider). discriminate H.
Qed.

End FilterFacts.

(* ================================================================== *)
(** * Properties of provider discovery *)
(* ================================================================== *)

Module ProvidersFacts.
Import JS JSFacts Providers Trace Notions.
Local Open Scope string_scope.

(** ** [resolveOllamaApiBase] *)

(** C6, amended.  For a non-empty configured URL the result is the URL
    without its trailing slashes and without one [/v1] (in either case)
    that stood in front of them; everything before is kept.  When there
    was no such [/v1], the result ends neither in a slash nor in [/v1].
    The two examples of the specification hold. *)
Theorem resolveOllamaApiBase_strips (dflt s : string) :
  (s <> "" ->
   exists v slashes,
     s = resolveOllamaApiBase dflt (Some s) ++ v ++ slashes
     /\ (v = "" \/ v = "/v1" \/ v = "/V1")
     /\ (forall c, In c (chars slashes) -> c = "/"%char)
     /\ (v = "" ->
         forall p, resolveOllamaApiBase dflt (Some s) <> p ++ "/"
                   /\ resolveOllamaApiBase dflt (Some s) <> p ++ "/v1"
                   /\ resolveOllamaApiBase dflt (Some s) <> p ++ "/V1"))
  /\ resolveOllamaApiBase dflt (Some "http://x/v1/") = "http://x"
  /\ resolveOllamaApiBase dflt (Some "http://x") = "http://x".
Proof.
  split; [|split; reflexivity].
  intros Hs. unfold resolveOllamaApiBase.
  destruct (String.eqb_spec s "") as [|_]; [contradiction|].
  destruct (stripTrailingSlashes_spec s) as [slashes [Hsplit [Hall Hno]]].
  assert (Hsl : forall c, In c (chars slashes) -> c = "/"%char).
  { intros c Hc. rewrite forallb_forall in Hall.
    now apply Ascii.eqb_eq, Hall. }
  destruct (stripV1Suffix_spec (stripTrailingSlashes s))
    as [[v [Hv Hstrip]] | [Hsame Hnov1]].
  - exists v, slashes. split; [|split; [|split]].
    + rewrite <- append_assoc, <- Hstrip. exact Hsplit.
    + tauto.
    + exact Hsl.
    + intros ->. destruct Hv; discriminate.
  - exists "", slashes. rewrite Hsame. split; [|split; [|split]].
    + exact Hsplit.
    + tauto.
    + exact Hsl.
    + intros _ p. destruct (Hnov1 p). auto.
Qed.

Lemma resolveOllamaApiBase_strips_witness :
  exists v slashes,
    "http://host:11434/api/V1//"
    = resolveOllamaApiBase Samples.defaultBase (Some "http://host:11434/api/V1//")
      ++ v ++ slashes
    /\ (v = "" \/ v = "/v1" \/ v = "/V1")
    /\ (forall c, In c (chars slashes) -> c = "/"%char)
    /\ (v = "" ->
        forall p,
          resolveOllamaApiBase Samples.defaultBase (Some "http://host:11434/api/V1//")
          <> p ++ "/"
          /\ resolveOllamaApiBase Samples.defaultBase (Some "http://host:11434/api/V1//")
             <> p ++ "/v1"
          /\ resolveOllamaApiBase Samples.defaultBase (Some "http://host:11434/api/V1//")
             <> p ++ "/V1").
Proof.
  apply (proj1 (resolveOllamaApiBase_strips Samples.defaultBase
                  "http://host:11434/api/V1//")).
  discriminate.
Defined.

(** C6 as stated fails: only one [/v1] is removed, and slashes in front
    of it stay, so a result can still end in [/v1] or in a slash. *)
Lemma resolveOllamaApiBase_keeps_second_v1 :
  resolveOllamaApiBase Samples.defaultBase (Some "http://x/v1/v1") = "http://x/v1"
  /\ resolveOllamaApiBase Samples.defaultBase (Some "http://x//v1") = "http://x/"
  /\ ~ (forall s, s <> "" ->
         endsWith (resolveOllamaApiBase Samples.defaultBase (Some s)) "/" = false
         /\ endsWithV1 (resolveOllamaApiBase Samples.defaultBase (Some s))
            = false).
Proof.
  split; [reflexivity|]. split; [reflexivity|]. intros H.
  destruct (H "http://x/v1/v1" ltac:(discriminate)) as [_ H1]. discriminate H1.
Qed.

(** ** Computations that end, and computations that leave the cache alone *)

Create HintDb monad.

Lemma total_ret {A} (a : A) : total (ret a).
Proof. intros w. discriminate. Qed.

Lemma total_throw {A} (e : error) : total (@throw A e).
Proof. intros w. discriminate. Qed.

Lemma total_lift {A} (r : result A) : total (lift r).
Proof. destruct r; [apply total_ret | apply total_throw]. Qed.

Lemma total_log (e : logEntry) : total (log e).
Proof. intros w. discriminate. Qed.

Lemma total_bind {A B} (m : M A) (k : A -> M B) :
  total m -> (forall a, total (k a)) -> total (bind m k).
Proof.
  intros Hm Hk w. unfold bind. specialize (Hm w).
  destruct (m w) as [[a|e|] w']; simpl in *;
    [apply Hk | discriminate | congruence].
Qed.

Lemma total_tryCatch {A} (m : M A) (h : error -> M A) :
  total m -> (forall e, total (h e)) -> total (tryCatch m h).
Proof.
  intros Hm Hh w. unfold tryCatch. specialize (Hm w).
  destruct (m w) as [[a|e|] w']; simpl in *;
    [discriminate | apply Hh | congruence].
Qed.

Lemma total_when (b : bool) (m : M unit) : total m -> total (when b m).
Proof. destruct b; [auto | intros _; apply total_ret]. Qed.

Lemma total_promiseAll {A} (tasks : list (M A)) :
  Forall total tasks -> total (promiseAll tasks).
Proof.
  induction 1 as [|t ts Ht _ IH]; intros w; simpl; [discriminate|].
  specialize (Ht w). destruct (t w) as [r w1]. specialize (IH w1).
  destruct (promiseAll ts w1) as [rs w2]. simpl in *.
  destruct r, rs; simpl; congruence.
Qed.

Lemma keepsFile_ret {A} (a : A) : keepsFile (ret a).
Proof. intros w. reflexivity. Qed.

Lemma keepsFile_throw {A} (e : error) : keepsFile (@throw A e).
Proof. intros w. reflexivity. Qed.

Lemma keepsFile_diverge {A} : keepsFile (@diverge A).
Proof. intros w. reflexivity. Qed.

Lemma keepsFile_lift {A} (r : result A) : keepsFile (lift r).
Proof. destruct r; [apply keepsFile_ret | apply keepsFile_throw]. Qed.

Lemma keepsFile_log (e : logEntry) : keepsFile (log e).
Proof. intros w. reflexivity. Qed.

Lemma keepsFile_bind {A B} (m : M A) (k : A -> M B) :
  keepsFile m -> (forall a, keepsFile (k a)) -> keepsFile (bind m k).
Proof.
  intros Hm Hk w. unfold bind. specialize (Hm w).
  destruct (m w) as [[a|e|] w']; simpl in *; [|assumption..].
  now rewrite Hk.
Qed.

Lemma keepsFile_tryCatch {A} (m : M A) (h : error -> M A) :
  keepsFile m -> (forall e, keepsFile (h e)) -> keepsFile (tryCatch m h).
Proof.
  intros Hm Hh w. unfold tryCatch. specialize (Hm w).
  destruct (m w) as [[a|e|] w']; simpl in *; [assumption| |assumption].
  now rewrite Hh.
Qed.

Lemma keepsFile_when (b : bool) (m : M unit) : keepsFile m -> keepsFile (when b m).
Proof. destruct b; [auto | intros _; apply keepsFile_ret]. Qed.

Lemma keepsFile_promiseAll {A} (tasks : list (M A)) :
  Forall keepsFile tasks -> keepsFile (promiseAll tasks).
Proof.
  induction 1 as [|t ts Ht _ IH]; intros w; simpl; [reflexivity|].
  specialize (Ht w). destruct (t w) as [r w1]. specialize (IH w1).
  destruct (promiseAll ts w1) as [rs w2]. simpl in *. congruence.
Qed.

#[local] Hint Resolve total_ret total_throw total_lift total_log total_bind
  total_tryCatch total_when total_promiseAll
  keepsFile_ret keepsFile_throw keepsFile_diverge keepsFile_lift keepsFile_log
  keepsFile_bind keepsFile_tryCatch keepsFile_when keepsFile_promiseAll : monad.

(** Splits a computation along its binds and case distinctions. *)
Ltac monad_cases :=
  repeat first
    [ progress (intros)
    | apply total_bind | apply total_tryCatch | apply total_when
    | apply keepsFile_bind | apply keepsFile_tryCatch | apply keepsFile_when
    | solve [auto with monad]
    | match goal with
      | |- context [match ?x with _ => _ end] => destruct x
      end ].

Section Surroundings.

Variable OLLAMA_API_BASE_URL : string.
Variable OLLAMA_DEFAULT_COST : value.
Variable OLLAMA_DEFAULT_CONTEXT_WINDOW : Z.
Variable OLLAMA_DEFAULT_MAX_TOKENS : Z.
Variable OLLAMA_SHOW_MAX_MODELS : Z.
Variable OLLAMA_SHOW_CONCURRENCY : Z.
Variable AuthProfileStore : Type.
Variable ensureAuthProfileStore : string -> AuthProfileStore.
Variable resolveEnvApiKeyVarName : string -> option string.
Variable resolveApiKeyFromProfiles : string -> AuthProfileStore -> option string.
Variable env : ProcessEnv.
Variable network : list Request -> Request -> reply.
Variable writable : bool.

Local Abbreviation apiBaseOf := (resolveOllamaApiBase OLLAMA_API_BASE_URL).
Local Abbreviation query := (queryOllamaContextWindow network).
Local Abbreviation inspect :=
  (inspectModel OLLAMA_DEFAULT_COST OLLAMA_DEFAULT_CONTEXT_WINDOW
     OLLAMA_DEFAULT_MAX_TOKENS network).
Local Abbreviation batches :=
  (inspectBatches OLLAMA_DEFAULT_COST OLLAMA_DEFAULT_CONTEXT_WINDOW
     OLLAMA_DEFAULT_MAX_TOKENS OLLAMA_SHOW_CONCURRENCY network).
Local Abbreviation body :=
  (discoverBody OLLAMA_API_BASE_URL OLLAMA_DEFAULT_COST
     OLLAMA_DEFAULT_CONTEXT_WINDOW OLLAMA_DEFAULT_MAX_TOKENS
     OLLAMA_SHOW_MAX_MODELS OLLAMA_SHOW_CONCURRENCY network).
Local Abbreviation discover :=
  (discoverOllamaModels OLLAMA_API_BASE_URL OLLAMA_DEFAULT_COST
     OLLAMA_DEFAULT_CONTEXT_WINDOW OLLAMA_DEFAULT_MAX_TOKENS
     OLLAMA_SHOW_MAX_MODELS OLLAMA_SHOW_CONCURRENCY env network).
Local Abbreviation build :=
  (buildOllamaProvider OLLAMA_API_BASE_URL OLLAMA_DEFAULT_COST
     OLLAMA_DEFAULT_CONTEXT_WINDOW OLLAMA_DEFAULT_MAX_TOKENS
     OLLAMA_SHOW_MAX_MODELS OLLAMA_SHOW_CONCURRENCY env network).
Local Abbreviation resolve :=
  (resolveImplicitProviders OLLAMA_API_BASE_URL OLLAMA_DEFAULT_COST
     OLLAMA_DEFAULT_CONTEXT_WINDOW OLLAMA_DEFAULT_MAX_TOKENS
     OLLAMA_SHOW_MAX_MODELS OLLAMA_SHOW_CONCURRENCY AuthProfileStore
     ensureAuthProfileStore resolveEnvApiKeyVarName resolveApiKeyFromProfiles
     env network writable).
Local Abbreviation keyOf :=
  (ollamaKeyOf AuthProfileStore ensureAuthProfileStore resolveEnvApiKeyVarName
     resolveApiKeyFromProfiles).
Local Abbreviation optionsOf :=
  (discoveryOptionsOf AuthProfileStore ensureAuthProfileStore
     resolveEnvApiKeyVarName resolveApiKeyFromProfiles).

(** *** The parts of discovery end and leave the cache alone *)

Lemma total_ollamaFetch input method body timeout :
  total (ollamaFetch network input method body timeout).
Proof. intros w. unfold ollamaFetch. destruct (network _ _); discriminate. Qed.

Lemma keepsFile_ollamaFetch input method body timeout :
  keepsFile (ollamaFetch network input method body timeout).
Proof. intros w. unfold ollamaFetch. destruct (network _ _); reflexivity. Qed.

Lemma total_responseJson r : total (responseJson r).
Proof. unfold responseJson. destruct (json r); auto with monad. Qed.

Lemma keepsFile_responseJson r : keepsFile (responseJson r).
Proof. unfold responseJson. destruct (json r); auto with monad. Qed.

Hint Resolve total_ollamaFetch keepsFile_ollamaFetch total_responseJson
  keepsFile_responseJson : monad.

Lemma total_query apiBase modelName : total (query apiBase modelName).
Proof. unfold queryOllamaContextWindow. monad_cases. Qed.

Lemma keepsFile_query apiBase modelName : keepsFile (query apiBase modelName).
Proof. unfold queryOllamaContextWindow. monad_cases. Qed.

Hint Resolve total_query keepsFile_query : monad.

Lemma total_inspect apiBase model : total (inspect apiBase model).
Proof. unfold inspectModel. monad_cases. Qed.

Lemma keepsFile_inspect apiBase model : keepsFile (inspect apiBase model).
Proof. unfold inspectModel. monad_cases. Qed.

Hint Resolve total_inspect keepsFile_inspect : monad.

Lemma total_inspectAll apiBase batch :
  total (promiseAll (map (inspect apiBase) batch)).
Proof.
  apply total_promiseAll, Forall_forall. intros t Ht.
  apply in_map_iff in Ht. destruct Ht as [model [<- _]]. auto with monad.
Qed.

Lemma keepsFile_inspectAll apiBase batch :
  keepsFile (promiseAll (map (inspect apiBase) batch)).
Proof.
  apply keepsFile_promiseAll, Forall_forall. intros t Ht.
  apply in_map_iff in Ht. destruct Ht as [model [<- _]]. auto with monad.
Qed.

Hint Resolve total_inspectAll keepsFile_inspectAll : monad.

Lemma keepsFile_batches fuel apiBase toInspect i discovered :
  keepsFile (batches fuel apiBase toInspect i discovered).
Proof.
  revert i discovered. induction fuel as [|fuel IH]; intros i discovered; simpl;
    destruct (i <? _)%Z; auto with monad.
Qed.

(** The loop ends: each round moves [i] forward by at least one. *)
Lemma total_batches fuel apiBase toInspect i discovered :
  (1 <= OLLAMA_SHOW_CONCURRENCY)%Z ->
  (Z.of_nat (List.length toInspect) - i < Z.of_nat fuel)%Z ->
  total (batches fuel apiBase toInspect i discovered).
Proof.
  intros Hc. revert i discovered.
  induction fuel as [|fuel IH]; intros i discovered Hfuel; simpl;
    destruct (Z.ltb_spec i (Z.of_nat (List.length toInspect)));
    auto with monad; [lia|].
  apply total_bind; [auto with monad|]. intros ms. apply IH. lia.
Qed.

(** *** What the context-length scan finds *)

Lemma floor_positive (q : Q) : (Qfloor q >? 0)%Z = true <-> (1 <= q)%Q.
Proof.
  rewrite Z.gtb_ltb, Z.ltb_lt. split; intros H.
  - apply Qle_trans with (inject_Z (Qfloor q)); [|apply Qfloor_le].
    change 1%Q with (inject_Z 1). rewrite <- Zle_Qle. lia.
  - apply Qfloor_resp_le in H. change 1%Q with (inject_Z 1) in H.
    rewrite Qfloor_Z in H. lia.
Qed.

Lemma scan_positive (info : object) (cw : Z) :
  scanContextLength info = Some cw -> (0 < cw)%Z.
Proof.
  induction info as [|[k v] info IH]; simpl; [discriminate|].
  destruct (endsWith k CONTEXT_LENGTH_SUFFIX); [|exact IH].
  destruct (isFiniteNumber v) as [q|]; [|exact IH].
  destruct (Z.gtb_spec (Qfloor q) 0); [|exact IH].
  intros E. inversion E; subst. assumption.
Qed.



(** *** One call of [fetch] *)

Lemma ollamaFetch_eval input method body timeout w :
  ollamaFetch network input method body timeout w
  = (match network (requests w) (request input method body timeout) with
     | Rejects => Throws FetchError
     | Responds r => Returns r
     end,
     addRequest w (request input method body timeout)).
Proof.
  unfold ollamaFetch, request, addRequest. now destruct (network _ _).
Qed.

(** The probe always comes back, with a context window or with nothing,
    after exactly one request. *)
Lemma query_returns apiBase modelName w :
  exists found,
    query apiBase modelName w
    = (Returns found, addRequest w (showRequest apiBase modelName))
    /\ forall cw, found = Some cw -> (0 < cw)%Z.
Proof.
  unfold queryOllamaContextWindow, tryCatch, bind at 1.
  rewrite ollamaFetch_eval. fold (showRequest apiBase modelName).
  destruct (network _ _) as [|r]; simpl; [now exists None|].
  destruct (ok r); simpl; [|now exists None].
  unfold bind, responseJson. destruct (json r) as [data|]; simpl;
    [|now exists None].
  destruct (getProp data "model_info") as [[info|]|e]; simpl;
    try (now exists None).
  destruct (truthy info); simpl; [|now exists None].
  exists (scanContextLength (entries info)). split; [reflexivity|].
  intros cw. apply scan_positive.
Qed.


(** The task of one well-formed entry: one probe, one descriptor. *)
Lemma inspect_named apiBase model modelId w :
  getProp model "name" = Ok (Some (JStr modelId)) ->
  exists found,
    query apiBase (Some (JStr modelId)) w
    = (Returns found, addRequest w (probeOf apiBase modelId))
    /\ inspect apiBase model w
       = (Returns
            {| id := modelId;
               name := modelId;
               reasoning := includes (toLowerCase modelId) "r1"
                            || includes (toLowerCase modelId) "reasoning";
               input := ["text"];
               cost := OLLAMA_DEFAULT_COST;
               contextWindow := match found with
                                | Some cw => cw
                                | None => OLLAMA_DEFAULT_CONTEXT_WINDOW
                                end;
               maxTokens := OLLAMA_DEFAULT_MAX_TOKENS |},
          addRequest w (probeOf apiBase modelId)).
Proof.
  intros Hname.
  destruct (query_returns apiBase (Some (JStr modelId)) w) as [found [Hq _]].
  exists found. split; [exact Hq|].
  unfold inspectModel, bind. rewrite Hname. simpl. rewrite Hq. reflexivity.
Qed.


(** *** What a computation returns, if it returns *)

Lemma ensures_ret {A} (Q : A -> Prop) (a : A) : Q a -> ensures Q (ret a).
Proof. intros H w a' w' E. inversion E; now subst. Qed.

Lemma ensures_throw {A} (Q : A -> Prop) (e : error) : ensures Q (throw e).
Proof. intros w a w' E. discriminate. Qed.

Lemma ensures_diverge {A} (Q : A -> Prop) : ensures Q diverge.
Proof. intros w a w' E. discriminate. Qed.

Lemma ensures_bind {A B} (R : A -> Prop) (Q : B -> Prop) (m : M A)
    (k : A -> M B) :
  ensures R m -> (forall a, R a -> ensures Q (k a)) -> ensures Q (bind m k).
Proof.
  intros Hm Hk w b w' E. unfold bind in E.
  destruct (m w) as [[a|e|] w1] eqn:Em; try discriminate.
  exact (Hk a (Hm _ _ _ Em) _ _ _ E).
Qed.

Lemma ensures_then {A B} (Q : B -> Prop) (m : M A) (k : A -> M B) :
  (forall a, ensures Q (k a)) -> ensures Q (bind m k).
Proof.
  intros Hk. apply (ensures_bind (fun _ => True)); [now intros w a w' _ | auto].
Qed.

Lemma ensures_tryCatch {A} (Q : A -> Prop) (m : M A) (h : error -> M A) :
  ensures Q m -> (forall e, ensures Q (h e)) -> ensures Q (tryCatch m h).
Proof.
  intros Hm Hh w a w' E. unfold tryCatch in E.
  destruct (m w) as [[a1|e|] w1] eqn:Em; try discriminate.
  - inversion E; subst. exact (Hm _ _ _ Em).
  - exact (Hh e _ _ _ E).
Qed.

Lemma ensures_promiseAll {A} (P : A -> Prop) (tasks : list (M A)) :
  Forall (ensures P) tasks -> ensures (Forall P) (promiseAll tasks).
Proof.
  induction 1 as [|t ts Ht _ IH]; intros w l w' E; simpl in E.
  - inversion E; subst. constructor.
  - destruct (t w) as [r w1] eqn:Et.
    destruct (promiseAll ts w1) as [rs w2] eqn:Ets.
    destruct r as [a|e|], rs as [l'|e'|]; inversion E; subst.
    constructor; [exact (Ht _ _ _ Et) | exact (IH _ _ _ Ets)].
Qed.

Ltac ensures_cases :=
  repeat first
    [ progress (intros)
    | apply ensures_ret; solve [constructor | auto]
    | apply ensures_throw | apply ensures_diverge
    | apply ensures_then | apply ensures_tryCatch
    | match goal with
      | |- context [match ?x with _ => _ end] => destruct x
      end ].

Lemma ensures_inspect apiBase model : ensures classified (inspect apiBase model).
Proof.
  unfold inspectModel. apply ensures_then. intros modelId.
  apply ensures_then. intros ctx.
  destruct modelId as [[| | | s | |]|];
    first [apply ensures_throw | apply ensures_ret; reflexivity].
Qed.

Lemma ensures_batches fuel apiBase toInspect i discovered :
  Forall classified discovered ->
  ensures (Forall classified) (batches fuel apiBase toInspect i discovered).
Proof.
  revert i discovered.
  induction fuel as [|fuel IH]; intros i discovered Hd; simpl;
    destruct (i <? _)%Z;
    try (apply ensures_diverge); try (now apply ensures_ret).
  apply (ensures_bind (Forall classified)).
  - apply ensures_promiseAll, Forall_forall. intros t Ht.
    apply in_map_iff in Ht. destruct Ht as [model [<- _]].
    apply ensures_inspect.
  - intros ms Hms. apply IH. apply Forall_app. now split.
Qed.

Lemma ensures_body baseUrl opts :
  ensures (Forall classified) (body baseUrl opts).
Proof.
  unfold discoverBody. apply ensures_then. intros response.
  destruct (negb (ok response)); [ensures_cases|].
  apply ensures_then. intros data. apply ensures_then. intros models.
  apply ensures_then. intros len.
  destruct (negb (truthy' len)); [ensures_cases|].
  destruct models as [[| | | s | tags |]|]; try apply ensures_throw.
  - ensures_cases.
  - apply ensures_then. intros _. apply ensures_then. intros _.
    apply ensures_batches. constructor.
Qed.

Lemma ensures_discover baseUrl opts :
  ensures (Forall classified) (discover baseUrl opts).
Proof.
  unfold discoverOllamaModels. destruct (underTest env).
  - apply ensures_ret. constructor.
  - apply ensures_tryCatch; [apply ensures_body | ensures_cases].
Qed.

Lemma lower_contains (s sub : string) :
  (exists a b, toLowerCase s = a ++ sub ++ b)
  <-> exists a x b, s = a ++ x ++ b /\ toLowerCase x = sub.
Proof.
  split.
  - intros [a [b H]].
    apply toLowerCase_split in H. destruct H as [a' [r [Hs [Ha Hr]]]].
    apply toLowerCase_split in Hr. destruct Hr as [x [b' [Hr [Hx Hb]]]].
    exists a', x, b'. subst. now split.
  - intros [a [x [b [Hs Hx]]]]. subst.
    exists (toLowerCase a), (toLowerCase b). now rewrite !toLowerCase_app.
Qed.

(** C8.  Every descriptor that discovery returns has [reasoning = true]
    exactly when its lower-cased id contains [r1] or [reasoning], that is,
    exactly when the id contains one of the two words in some mix of upper
    and lower case. *)
Theorem reasoning_flag baseUrl opts w ms w' :
  discover baseUrl opts w = (Returns ms, w') ->
  Forall (fun m =>
            (reasoning m = true <->
             (exists a b, toLowerCase (id m) = a ++ "r1" ++ b)
             \/ (exists a b, toLowerCase (id m) = a ++ "reasoning" ++ b))
            /\ (reasoning m = true <->
                exists a x b,
                  id m = a ++ x ++ b
                  /\ (toLowerCase x = "r1" \/ toLowerCase x = "reasoning")))
         ms.
Proof.
  intros H. apply ensures_discover in H.
  apply (Forall_impl _ (P := classified)); [|exact H].
  intros m Hm. unfold classified in Hm.
  assert (Hlow : reasoning m = true <->
                 (exists a b, toLowerCase (id m) = a ++ "r1" ++ b)
                 \/ (exists a b, toLowerCase (id m) = a ++ "reasoning" ++ b)).
  { rewrite Hm, orb_true_iff, !includes_iff. reflexivity. }
  split; [exact Hlow|]. rewrite Hlow, !lower_contains. split.
  - intros [[a [x [b [Hs Hx]]]] | [a [x [b [Hs Hx]]]]]; exists a, x, b; auto.
  - intros [a [x [b [Hs [Hx | Hx]]]]]; [left | right]; exists a, x, b; auto.
Qed.

(** *** Discovery always comes back *)

Lemma total_limited {A} (c : Z) (m : M A) :
  ((1 <= c)%Z -> total m) ->
  total (bind (lift (Limit.limit (int c))) (fun _ => m)).
Proof.
  intros H. unfold Limit.limit. rewrite lessThan_int.
  destruct (Z.ltb_spec c 1); simpl.
  - intros w. discriminate.
  - apply total_bind; auto with monad.
Qed.

Lemma total_warnCapped inspected received opts :
  total (warnCapped OLLAMA_SHOW_MAX_MODELS inspected received opts).
Proof. unfold warnCapped. auto with monad. Qed.

Lemma keepsFile_warnCapped inspected received opts :
  keepsFile (warnCapped OLLAMA_SHOW_MAX_MODELS inspected received opts).
Proof. unfold warnCapped. auto with monad. Qed.

Hint Resolve total_warnCapped keepsFile_warnCapped : monad.

Lemma total_body baseUrl opts : total (body baseUrl opts).
Proof.
  unfold discoverBody. apply total_bind; [auto with monad|]. intros response.
  destruct (negb (ok response)); [auto 6 with monad|].
  apply total_bind; [auto with monad|]. intros data.
  apply total_bind; [auto with monad|]. intros models.
  apply total_bind; [destruct models as [[]|]; auto with monad|]. intros len.
  destruct (negb (truthy' len)); [auto 6 with monad|].
  destruct models as [[| | | s | tags |]|]; auto with monad.
  - apply total_bind; [auto with monad|]. intros _.
    apply total_limited. intros _. destruct (0 <? _)%nat; auto with monad.
  - apply total_bind; [auto with monad|]. intros _.
    apply total_limited. intros Hc. apply total_batches; [exact Hc | lia].
Qed.

Lemma keepsFile_body baseUrl opts : keepsFile (body baseUrl opts).
Proof.
  unfold discoverBody. apply keepsFile_bind; [auto with monad|]. intros response.
  destruct (negb (ok response)); [auto 6 with monad|].
  apply keepsFile_bind; [auto with monad|]. intros data.
  apply keepsFile_bind; [auto with monad|]. intros models.
  apply keepsFile_bind; [destruct models as [[]|]; auto with monad|]. intros len.
  destruct (negb (truthy' len)); [auto 6 with monad|].
  destruct models as [[| | | s | tags |]|]; auto with monad.
  - apply keepsFile_bind; [auto with monad|]. intros _.
    apply keepsFile_bind; [auto with monad|]. intros _.
    destruct (0 <? _)%nat; auto with monad.
  - apply keepsFile_bind; [auto with monad|]. intros _.
    apply keepsFile_bind; [auto with monad|]. intros _.
    apply keepsFile_batches.
Qed.

Lemma keepsFile_discover baseUrl opts : keepsFile (discover baseUrl opts).
Proof.
  unfold discoverOllamaModels. destruct (underTest env); [auto with monad|].
  apply keepsFile_tryCatch; [apply keepsFile_body | auto 6 with monad].
Qed.

Lemma discover_caught baseUrl opts w e w1 :
  underTest env = false ->
  body baseUrl opts w = (Throws e, w1) ->
  discover baseUrl opts w = (Returns [], afterCatch opts e w1).
Proof.
  intros Ht Hb. unfold discoverOllamaModels, tryCatch, afterCatch.
  rewrite Ht, Hb. unfold bind, when. now destruct (loud opts).
Qed.

Lemma discover_returned baseUrl opts w ms w1 :
  underTest env = false ->
  body baseUrl opts w = (Returns ms, w1) ->
  discover baseUrl opts w = (Returns ms, w1).
Proof.
  intros Ht Hb. unfold discoverOllamaModels, tryCatch. now rewrite Ht, Hb.
Qed.

Lemma body_rejected baseUrl opts w :
  network (requests w) (tagsRequest (apiBaseOf baseUrl)) = Rejects ->
  body baseUrl opts w
  = (Throws FetchError, addRequest w (tagsRequest (apiBaseOf baseUrl))).
Proof.
  intros H. unfold discoverBody, bind at 1. rewrite ollamaFetch_eval.
  fold (tagsRequest (apiBaseOf baseUrl)). now rewrite H.
Qed.

Lemma body_not_ok baseUrl opts w r :
  network (requests w) (tagsRequest (apiBaseOf baseUrl)) = Responds r ->
  ok r = false ->
  exists w1, body baseUrl opts w = (Returns [], w1).
Proof.
  intros H Hok. unfold discoverBody, bind at 1. rewrite ollamaFetch_eval.
  fold (tagsRequest (apiBaseOf baseUrl)). rewrite H, Hok. simpl.
  unfold bind, when, ret. destruct (loud opts); simpl; eauto.
Qed.

Lemma body_not_json baseUrl opts w r :
  network (requests w) (tagsRequest (apiBaseOf baseUrl)) = Responds r ->
  ok r = true -> json r = None ->
  body baseUrl opts w
  = (Throws SyntaxError, addRequest w (tagsRequest (apiBaseOf baseUrl))).
Proof.
  intros H Hok Hj. unfold discoverBody, bind at 1. rewrite ollamaFetch_eval.
  fold (tagsRequest (apiBaseOf baseUrl)). rewrite H, Hok. simpl.
  unfold bind, responseJson. now rewrite Hj.
Qed.

(** C7.  [discoverOllamaModels] always returns a list: it never throws and
    never hangs.  Under a test environment it returns the empty list at
    once, with no request sent; whenever its body throws it returns the
    empty list, in particular when the request for the tag list is
    rejected and when the response is not JSON; a response that is not OK
    gives the empty list as well. *)
Theorem discoverOllamaModels_never_throws baseUrl opts w :
  exists ms w',
    discover baseUrl opts w = (Returns ms, w')
    /\ (underTest env = true -> ms = [] /\ w' = w)
    /\ (underTest env = false ->
        (forall e w1, body baseUrl opts w = (Throws e, w1) -> ms = [])
        /\ (network (requests w) (tagsRequest (apiBaseOf baseUrl)) = Rejects ->
            ms = [])
        /\ (forall r,
            network (requests w) (tagsRequest (apiBaseOf baseUrl)) = Responds r ->
            ok r = false \/ json r = None -> ms = [])).
Proof.
  destruct (underTest env) eqn:Ht.
  - exists [], w. unfold discoverOllamaModels. rewrite Ht.
    split; [reflexivity|]. split; [auto | discriminate].
  - destruct (body baseUrl opts w) as [[ms|e|] w1] eqn:Hb.
    + exists ms, w1. split; [now apply discover_returned|].
      split; [discriminate|]. intros _. split; [|split].
      * intros e w2 E. discriminate.
      * intros Hn. rewrite (body_rejected _ _ _ Hn) in Hb. discriminate.
      * intros r Hn [Hok | Hj].
        -- destruct (body_not_ok _ opts _ _ Hn Hok) as [w2 E]. congruence.
        -- destruct (ok r) eqn:Hok.
           ++ rewrite (body_not_json _ _ _ _ Hn Hok Hj) in Hb. discriminate.
           ++ destruct (body_not_ok _ opts _ _ Hn Hok) as [w2 E]. congruence.
    + exists [], (afterCatch opts e w1). split; [now apply discover_caught|].
      split; [discriminate | auto].
    + exfalso. apply (total_body baseUrl opts w). now rewrite Hb.
Qed.

(** *** A well-formed tag list is probed entry by entry *)

Lemma Forall2_firstn {A B} (R : A -> B -> Prop) (n : nat) l l' :
  Forall2 R l l' -> Forall2 R (firstn n l) (firstn n l').
Proof.
  intros H. revert n. induction H; intros [|n]; simpl; constructor; auto.
Qed.

Lemma Forall2_skipn {A B} (R : A -> B -> Prop) (n : nat) l l' :
  Forall2 R l l' -> Forall2 R (skipn n l) (skipn n l').
Proof.
  intros H. revert n. induction H; intros [|n]; simpl; auto.
Qed.

Lemma firstn_min {A} (n : nat) (l : list A) :
  firstn (Nat.min n (List.length l)) l = firstn n l.
Proof.
  destruct (Nat.le_ge_cases n (List.length l)) as [H|H].
  - now rewrite Nat.min_l.
  - rewrite Nat.min_r by exact H. rewrite firstn_all.
    symmetry. now apply firstn_all2.
Qed.

Lemma slice_prefix {A} (l : list A) (c : Z) :
  (0 <= c)%Z -> slice l 0 c = firstn (Z.to_nat c) l.
Proof.
  intros Hc. unfold slice, sliceIndex. simpl.
  destruct (Z.ltb_spec c 0); [lia|].
  rewrite (Z.min_l 0) by lia. simpl.
  rewrite Z.sub_0_r, <- (firstn_min (Z.to_nat c)). f_equal. lia.
Qed.

Lemma slice_batch {A} (l : list A) (i c : Z) :
  (0 <= i)%Z -> (i < Z.of_nat (List.length l))%Z -> (1 <= c)%Z ->
  slice l i (i + c) = firstn (Z.to_nat c) (skipn (Z.to_nat i) l).
Proof.
  intros Hi Hlen Hc. unfold slice, sliceIndex.
  destruct (Z.ltb_spec i 0); [lia|]. destruct (Z.ltb_spec (i + c) 0); [lia|].
  rewrite (Z.min_l i) by lia.
  rewrite <- (firstn_min (Z.to_nat c)). f_equal.
  rewrite length_skipn. lia.
Qed.

Lemma truthy_ofNat (n : nat) : truthy (ofNat n) = negb (n =? 0)%nat.
Proof. destruct n; reflexivity. Qed.

Lemma promiseAll_named apiBase batch names w :
  Forall2 named batch names ->
  exists ms w',
    promiseAll (map (inspect apiBase) batch) w = (Returns ms, w')
    /\ requests w' = (requests w ++ map (probeOf apiBase) names)%list
    /\ map id ms = names.
Proof.
  intros H. revert w. induction H as [|t s batch names Hts _ IH]; intros w.
  - exists [], w. simpl. now rewrite app_nil_r.
  - destruct (inspect_named apiBase t s w Hts) as [found [_ Hi]].
    destruct (IH (addRequest w (probeOf apiBase s))) as [ms [w' [Hp [Hr Hn]]]].
    eexists. exists w'. simpl. rewrite Hi, Hp. split; [reflexivity|].
    split; [|simpl; now rewrite Hn].
    rewrite Hr. simpl. now rewrite <- app_assoc.
Qed.

Lemma batches_named fuel apiBase toInspect names i discovered w :
  (1 <= OLLAMA_SHOW_CONCURRENCY)%Z -> (0 <= i)%Z ->
  (Z.of_nat (List.length toInspect) - i < Z.of_nat fuel)%Z ->
  Forall2 named toInspect names ->
  exists ms w',
    batches fuel apiBase toInspect i discovered w
    = (Returns (discovered ++ ms)%list, w')
    /\ requests w'
       = (requests w ++ map (probeOf apiBase) (skipn (Z.to_nat i) names))%list
    /\ map id ms = skipn (Z.to_nat i) names.
Proof.
  intros Hc Hi Hfuel Hn. pose proof (Forall2_length Hn) as Hlen.
  revert i discovered w Hi Hfuel.
  induction fuel as [|fuel IH]; intros i discovered w Hi Hfuel; simpl;
    destruct (Z.ltb_spec i (Z.of_nat (List.length toInspect))) as [Hlt|Hge];
    try lia.
  - exists [], w. rewrite skipn_all2 by lia. simpl. now rewrite !app_nil_r.
  - rewrite slice_batch by assumption.
    set (c := Z.to_nat OLLAMA_SHOW_CONCURRENCY).
    set (n := Z.to_nat i).
    destruct (promiseAll_named apiBase (firstn c (skipn n toInspect))
                (firstn c (skipn n names)) w) as [ms1 [w1 [Hp [Hr1 Hn1]]]].
    { now apply Forall2_firstn, Forall2_skipn. }
    destruct (IH (i + OLLAMA_SHOW_CONCURRENCY)%Z (discovered ++ ms1)%list w1)
      as [ms2 [w2 [Hb [Hr2 Hn2]]]]; [lia | lia |].
    replace (Z.to_nat (i + OLLAMA_SHOW_CONCURRENCY)) with (c + n)%nat in *
      by (unfold c, n; lia).
    rewrite <- skipn_skipn in Hr2, Hn2.
    exists (ms1 ++ ms2)%list, w2. unfold bind. rewrite Hp, Hb.
    split; [now rewrite app_assoc|]. split.
    + rewrite Hr2, Hr1, <- app_assoc, <- map_app. now rewrite firstn_skipn.
    + rewrite map_app, Hn1, Hn2. apply firstn_skipn.
  - exists [], w. rewrite skipn_all2 by lia. simpl. now rewrite !app_nil_r.
Qed.

#[local] Arguments inspectBatches : simpl never.
#[local] Arguments slice : simpl never.

(** C5, amended.  Let the backend answer the request for the tag list
    with [tags], let each of the first [OLLAMA_SHOW_MAX_MODELS] entries
    have a string as its [name] -- the entries past the cap may be
    anything -- and let the cap be a count and the concurrency at least
    1.  Then discovery sends, after the request for the tags, one probe
    for each of these entries and no other request, and it returns one
    descriptor for each of them, in their order; their number is the
    minimum of the length of the list and the cap. *)
Theorem discover_probes_min baseUrl opts w r data tags probed :
  underTest env = false ->
  (0 <= OLLAMA_SHOW_MAX_MODELS)%Z -> (1 <= OLLAMA_SHOW_CONCURRENCY)%Z ->
  network (requests w) (tagsRequest (apiBaseOf baseUrl)) = Responds r ->
  ok r = true -> json r = Some data ->
  getProp data "models" = Ok (Some (JArr tags)) ->
  Forall2 named (firstn (Z.to_nat OLLAMA_SHOW_MAX_MODELS) tags) probed ->
  exists ms w',
    discover baseUrl opts w = (Returns ms, w')
    /\ requests w'
       = (requests w ++ tagsRequest (apiBaseOf baseUrl)
            :: map (probeOf (apiBaseOf baseUrl)) probed)%list
    /\ map id ms = probed
    /\ Z.of_nat (List.length ms)
       = Z.min (Z.of_nat (List.length tags)) OLLAMA_SHOW_MAX_MODELS.
Proof.
  intros Ht Hmax Hconc Hnet Hok Hjson Hmodels Hnamed.
  pose proof (Forall2_length Hnamed) as Hlen.
  assert (Hcount : forall ms : list ModelDefinitionConfig,
             map id ms = probed ->
             Z.of_nat (List.length ms)
             = Z.min (Z.of_nat (List.length tags)) OLLAMA_SHOW_MAX_MODELS).
  { intros ms E. apply (f_equal (@List.length string)) in E.
    rewrite length_map, <- Hlen, length_firstn in E. lia. }
  assert (Hbody : exists ms w',
             body baseUrl opts w = (Returns ms, w')
             /\ requests w'
                = (requests w ++ tagsRequest (apiBaseOf baseUrl)
                     :: map (probeOf (apiBaseOf baseUrl)) probed)%list
             /\ map id ms = probed).
  { unfold discoverBody, bind at 1. rewrite ollamaFetch_eval.
    fold (tagsRequest (apiBaseOf baseUrl)). rewrite Hnet, Hok. simpl.
    unfold bind at 1, responseJson. rewrite Hjson. simpl.
    unfold bind at 1. rewrite Hmodels. simpl.
    unfold bind at 1. simpl.
    change (negb (Qeq_bool (inject_Z (Z.of_nat (List.length tags))) 0))
      with (truthy (ofNat (List.length tags))).
    rewrite truthy_ofNat.
    destruct (Nat.eqb_spec (List.length tags) 0) as [Hz|Hnz]; simpl.
    - destruct tags; [|discriminate]. rewrite firstn_nil in Hnamed.
      inversion Hnamed; subst.
      unfold bind, log, ret. simpl.
      eexists. eexists. split; [reflexivity|]. now split.
    - rewrite slice_prefix by assumption.
      set (toInspect := firstn (Z.to_nat OLLAMA_SHOW_MAX_MODELS) tags).
      unfold bind at 1.
      destruct (warnCapped OLLAMA_SHOW_MAX_MODELS (List.length toInspect)
                  (List.length tags) opts
                  (addRequest w (tagsRequest (apiBaseOf baseUrl))))
        as [[[]|e|] w1] eqn:Ew;
        try (unfold warnCapped, when, log, ret in Ew;
             destruct (_ && _) in Ew; discriminate).
      assert (Hw1 : requests w1
                    = (requests w ++ [tagsRequest (apiBaseOf baseUrl)])%list).
      { unfold warnCapped, when, log, ret in Ew.
        destruct (_ && _) in Ew; inversion Ew; reflexivity. }
      unfold bind at 1, Limit.limit. rewrite lessThan_int.
      destruct (Z.ltb_spec OLLAMA_SHOW_CONCURRENCY 1); [lia|]. simpl.
      destruct (batches_named (S (List.length toInspect)) (apiBaseOf baseUrl)
                  toInspect probed 0 [] w1)
        as [ms [w' [Hb [Hr Hn]]]]; try lia.
      { exact Hnamed. }
      exists ms, w'. simpl in Hb, Hr, Hn. rewrite Hb. split; [reflexivity|].
      split; [|exact Hn]. rewrite Hr, Hw1, <- app_assoc. reflexivity. }
  destruct Hbody as [ms [w' [Hb [Hr Hn]]]].
  exists ms, w'. split; [now apply discover_returned|].
  split; [exact Hr|]. split; [exact Hn | now apply Hcount].
Qed.

(** *** The resolver *)

Lemma truthyString_Some (k : string) :
  k <> "" -> truthyString (Some k) = true.
Proof. intros H. simpl. now destruct (String.eqb_spec k ""). Qed.

(** C1, amended.  When discovery yields no models and no API key
    resolves: without a cache file the resolver returns the empty map;
    with a cache file that holds a document whose [ollama] entry is truthy
    it returns the map with exactly that entry.  The cache file is not
    written: whatever the file holds and however the run ends, the
    resolver leaves the world as discovery left it, and the file as it
    was before the run. *)
Theorem resolve_falls_back_to_cache params w w1 :
  discover (ollamaBaseUrlOf params) (optionsOf params) w = (Returns [], w1) ->
  truthyString (keyOf params) = false ->
  (cacheFile w = Absent -> resolve params w = (Returns [], w1))
  /\ (forall doc entry,
      cacheFile w = Content doc ->
      getProp doc "ollama" = Ok (Some entry) -> truthy entry = true ->
      resolve params w = (Returns [("ollama", entry)], w1))
  /\ snd (resolve params w) = w1
  /\ cacheFile (snd (resolve params w)) = cacheFile w.
Proof.
  intros Hd Hkey.
  assert (Hfile : cacheFile w1 = cacheFile w).
  { pose proof (keepsFile_discover (ollamaBaseUrlOf params) (optionsOf params) w)
      as H. now rewrite Hd in H. }
  assert (Hresolve : resolve params w
                     = bind (loadModelCache)
                         (fun cached =>
                            bind (lift (getProp cached "ollama"))
                              (fun cachedOllama =>
                                 if truthy' cachedOllama
                                 then ret (match cachedOllama with
                                           | Some c => [("ollama", c)]
                                           | None => []
                                           end)
                                 else ret [])) w1).
  { unfold resolveImplicitProviders, buildOllamaProvider.
    unfold bind at 1 2. rewrite Hd. simpl. rewrite Hkey. reflexivity. }
  assert (Hworld : snd (resolve params w) = w1).
  { rewrite Hresolve. unfold loadModelCache, existsSync, bind.
    destruct (cacheFile w1) as [| |doc] eqn:Hdoc; simpl;
      unfold readJson, tryCatch; rewrite ?Hdoc; simpl; try reflexivity.
    unfold lift. destruct (getProp doc "ollama") as [[entry|]|e]; simpl;
      try reflexivity.
    now destruct (truthy entry). }
  split; [|split; [|split; [exact Hworld | now rewrite Hworld]]];
    rewrite Hresolve; unfold loadModelCache, existsSync, bind; rewrite Hfile.
  - intros ->. reflexivity.
  - intros doc entry Hdoc Hentry Htruthy. rewrite Hdoc. simpl.
    unfold readJson, tryCatch. rewrite Hfile, Hdoc. simpl.
    rewrite Hentry. simpl. now rewrite Htruthy.
Qed.

(** C10, amended.  When discovery yields no models and an API key
    resolves, the resolver returns the entry with the empty model list and
    that key, whatever the cache file holds; it sends no request and logs
    nothing on top of discovery; and when the cache file can be written it
    is replaced by the document with just this entry, while a failed write
    is swallowed and leaves the file as it was. *)
Theorem resolve_with_key_overwrites params w w1 key :
  discover (ollamaBaseUrlOf params) (optionsOf params) w = (Returns [], w1) ->
  keyOf params = Some key -> key <> "" ->
  exists w2,
    resolve params w
    = (Returns [("ollama", keyedEntry (apiBaseOf (ollamaBaseUrlOf params)) key)], w2)
    /\ requests w2 = requests w1 /\ logs w2 = logs w1
    /\ (writable = true ->
        cacheFile w2
        = Content (JObj [("ollama", keyedEntry (apiBaseOf (ollamaBaseUrlOf params)) key)]))
    /\ (writable = false -> cacheFile w2 = cacheFile w).
Proof.
  intros Hd Hkey Hne.
  assert (Hfile : cacheFile w1 = cacheFile w).
  { pose proof (keepsFile_discover (ollamaBaseUrlOf params) (optionsOf params) w)
      as H. now rewrite Hd in H. }
  unfold resolveImplicitProviders, buildOllamaProvider.
  unfold bind at 1 2. rewrite Hd. simpl. rewrite Hkey.
  rewrite (truthyString_Some key Hne). simpl.
  unfold bind, saveModelCache, tryCatch, writeJson, providerEntry. simpl.
  destruct writable; simpl.
  - eexists. split; [reflexivity|]. simpl.
    split; [reflexivity|]. split; [reflexivity|]. split; [reflexivity|].
    discriminate.
  - exists w1. split; [reflexivity|].
    split; [reflexivity|]. split; [reflexivity|]. split; [discriminate|].
    intros _. exact Hfile.
Qed.

End Surroundings.

(** ** The claims at sample inputs *)

Local Abbreviation sampleDiscover network :=
  (discoverOllamaModels Samples.defaultBase Samples.cost Samples.contextWindow
     Samples.maxTokens Samples.showMaxModels Samples.showConcurrency
     Samples.env network None).

Local Abbreviation sampleResolve envKey network writable :=
  (resolveImplicitProviders Samples.defaultBase Samples.cost
     Samples.contextWindow Samples.maxTokens Samples.showMaxModels
     Samples.showConcurrency unit Samples.openStore envKey Samples.noProfile
     Samples.env network writable Samples.params).

Local Abbreviation sampleOptions envKey :=
  (discoveryOptionsOf unit Samples.openStore envKey Samples.noProfile
     Samples.params).

(** The world after the one request an unreachable backend gets. *)
Local Abbreviation afterTags f :=
  (addRequest (Samples.world f) (tagsRequest Samples.defaultBase)).



Lemma sample_named :
  Forall2 named (firstn (Z.to_nat Samples.showMaxModels) Samples.tags)
    ["llama3"; "deepseek-R1:7b"; "phi3"].
Proof. repeat constructor. Defined.

Lemma discover_probes_min_witness :
  exists ms w',
    sampleDiscover Samples.backend None (Samples.world Absent) = (Returns ms, w')
    /\ requests w'
       = [tagsRequest Samples.defaultBase;
          probeOf Samples.defaultBase "llama3";
          probeOf Samples.defaultBase "deepseek-R1:7b";
          probeOf Samples.defaultBase "phi3"]
    /\ map id ms = ["llama3"; "deepseek-R1:7b"; "phi3"]
    /\ Z.of_nat (List.length ms) = 3%Z.
Proof.
  exact (discover_probes_min Samples.defaultBase Samples.cost
           Samples.contextWindow Samples.maxTokens Samples.showMaxModels
           Samples.showConcurrency Samples.env Samples.backend None None
           (Samples.world Absent) (Samples.answer Samples.tagList)
           Samples.tagList Samples.tags ["llama3"; "deepseek-R1:7b"; "phi3"]
           eq_refl ltac:(discriminate) ltac:(discriminate)
           eq_refl eq_refl eq_refl eq_refl sample_named).
Defined.

(** A tag list of three entries under a cap of three, the second entry
    without a name: discovery probes two models, not three, and returns
    no descriptor. *)
Lemma discover_nameless_entry_probes_fewer :
  MoreSamples.broken [] (tagsRequest Samples.defaultBase)
  = Responds
      (Samples.answer
         (JObj [("models",
                 JArr [Samples.tag "llama3";
                       JObj [("size", ofZ 4661224676)];
                       Samples.tag "phi3"])]))
  /\ Z.min 3 Samples.showMaxModels = 3%Z
  /\ sampleDiscover MoreSamples.broken None (Samples.world Absent)
     = (Returns [],
        {| requests := [tagsRequest Samples.defaultBase;
                        probeOf Samples.defaultBase "llama3";
                        showRequest Samples.defaultBase None];
           logs := [WarnFailed TypeError];
           cacheFile := Absent |}).
Proof. repeat split. Qed.

Lemma discoverOllamaModels_never_throws_witness :
  exists w', sampleDiscover Samples.unreachable None (Samples.world Absent)
             = (Returns [], w').
Proof.
  destruct (discoverOllamaModels_never_throws Samples.defaultBase Samples.cost
              Samples.contextWindow Samples.maxTokens Samples.showMaxModels
              Samples.showConcurrency Samples.env Samples.unreachable None None
              (Samples.world Absent)) as [ms [w' [Hd [_ Hfail]]]].
  destruct (Hfail eq_refl) as [_ [Hrejected _]].
  exists w'. rewrite <- (Hrejected eq_refl). exact Hd.
Defined.

Lemma reasoning_flag_witness :
  map (fun m => (id m, reasoning m)) Samples.discovered
  = [("llama3", false); ("deepseek-R1:7b", true); ("phi3", false)]
  /\ Forall (fun m =>
               (reasoning m = true <->
                (exists a b, toLowerCase (id m) = a ++ "r1" ++ b)
                \/ (exists a b, toLowerCase (id m) = a ++ "reasoning" ++ b))
               /\ (reasoning m = true <->
                   exists a x b,
                     id m = a ++ x ++ b
                     /\ (toLowerCase x = "r1" \/ toLowerCase x = "reasoning")))
            Samples.discovered.
Proof.
  split; [reflexivity|].
  apply (reasoning_flag Samples.defaultBase Samples.cost Samples.contextWindow
           Samples.maxTokens Samples.showMaxModels Samples.showConcurrency
           Samples.env Samples.backend None None (Samples.world Absent)
           Samples.discovered (snd Samples.discovery)).
  reflexivity.
Defined.

Lemma resolve_falls_back_to_cache_witness :
  sampleResolve Samples.noEnvKey Samples.unreachable true (Samples.world Absent)
  = (Returns [], afterTags Absent)
  /\ sampleResolve Samples.noEnvKey Samples.unreachable true
       (Samples.world (Content Samples.cachedDocument))
     = (Returns [("ollama", Samples.cachedEntry)],
        afterTags (Content Samples.cachedDocument))
  /\ cacheFile
       (snd (sampleResolve Samples.noEnvKey Samples.unreachable true
               (Samples.world Unreadable)))
     = Unreadable.
Proof.
  split; [|split].
  - apply (proj1 (resolve_falls_back_to_cache Samples.defaultBase Samples.cost
                    Samples.contextWindow Samples.maxTokens
                    Samples.showMaxModels Samples.showConcurrency unit
                    Samples.openStore Samples.noEnvKey Samples.noProfile
                    Samples.env Samples.unreachable true Samples.params
                    (Samples.world Absent) (afterTags Absent)
                    eq_refl eq_refl)).
    reflexivity.
  - apply (proj1 (proj2 (resolve_falls_back_to_cache Samples.defaultBase
                    Samples.cost Samples.contextWindow Samples.maxTokens
                    Samples.showMaxModels Samples.showConcurrency unit
                    Samples.openStore Samples.noEnvKey Samples.noProfile
                    Samples.env Samples.unreachable true Samples.params
                    (Samples.world (Content Samples.cachedDocument))
                    (afterTags (Content Samples.cachedDocument))
                    eq_refl eq_refl))
             Samples.cachedDocument Samples.cachedEntry);
      reflexivity.
  - exact (proj2 (proj2 (proj2 (resolve_falls_back_to_cache
                    Samples.defaultBase Samples.cost Samples.contextWindow
                    Samples.maxTokens Samples.showMaxModels
                    Samples.showConcurrency unit Samples.openStore
                    Samples.noEnvKey Samples.noProfile Samples.env
                    Samples.unreachable true Samples.params
                    (Samples.world Unreadable) (afterTags Unreadable)
                    eq_refl eq_refl)))).
Defined.

(** C1 as stated fails: with an API key the resolver returns an entry
    although discovery found nothing, without a cache file and with one
    alike, and the entry is not the cached one. *)
Lemma resolve_with_key_ignores_cache :
  fst (sampleDiscover Samples.unreachable (sampleOptions Samples.envKey)
         (Samples.world Absent))
  = Returns []
  /\ fst (sampleResolve Samples.envKey Samples.unreachable true
            (Samples.world Absent))
     <> Returns []
  /\ fst (sampleResolve Samples.envKey Samples.unreachable true
            (Samples.world (Content Samples.cachedDocument)))
     <> Returns [("ollama", Samples.cachedEntry)].
Proof. repeat split; discriminate. Qed.

(** The same after the warning that a loud discovery logs. *)
Local Abbreviation afterWarning f :=
  {| requests := [tagsRequest Samples.defaultBase];
     logs := [WarnFailed FetchError];
     cacheFile := f |}.

Lemma resolve_with_key_overwrites_witness :
  exists w2,
    sampleResolve Samples.envKey Samples.unreachable true
      (Samples.world (Content Samples.cachedDocument))
    = (Returns [("ollama", keyedEntry Samples.defaultBase "sk-local")], w2)
    /\ cacheFile w2
       = Content (JObj [("ollama",
                         keyedEntry Samples.defaultBase "sk-local")]).
Proof.
  destruct (resolve_with_key_overwrites Samples.defaultBase Samples.cost
              Samples.contextWindow Samples.maxTokens Samples.showMaxModels
              Samples.showConcurrency unit Samples.openStore Samples.envKey
              Samples.noProfile Samples.env Samples.unreachable true
              Samples.params (Samples.world (Content Samples.cachedDocument))
              (afterWarning (Content Samples.cachedDocument))
              "sk-local" eq_refl eq_refl ltac:(discriminate))
    as [w2 [Hr [_ [_ [Hw _]]]]].
  exists w2. split; [exact Hr | exact (Hw eq_refl)].
Defined.

(** C10 as stated fails: when the cache file cannot be written the old
    catalog stays in it. *)
Lemma resolve_with_key_keeps_unwritable_cache :
  fst (sampleDiscover Samples.unreachable (sampleOptions Samples.envKey)
         (Samples.world (Content Samples.cachedDocument)))
  = Returns []
  /\ fst (sampleResolve Samples.envKey Samples.unreachable false
            (Samples.world (Content Samples.cachedDocument)))
     = Returns [("ollama", keyedEntry Samples.defaultBase "sk-local")]
  /\ cacheFile (snd (sampleResolve Samples.envKey Samples.unreachable false
                       (Samples.world (Content Samples.cachedDocument))))
     = Content Samples.cachedDocument
  /\ Content Samples.cachedDocument
     <> Content (JObj [("ollama",
                        keyedEntry Samples.defaultBase "sk-local")]).
Proof. repeat split. discriminate. Qed.

End ProvidersFacts.

(* ================================================================== *)
(** * More about the concurrency limiter *)
(* ================================================================== *)

Module LimitMore.
Import JS JSFacts Limit Notions Views LimitFacts.
Local Open Scope Z_scope.

#[local] Arguments atLeast : simpl never.
#[local] Arguments lessThan : simpl never.

Lemma remove_length (t : nat) (l : list nat) :
  NoDup l -> In t l -> S (List.length (remove t l)) = List.length l.
Proof.
  intros Hn Hi. now rewrite (Permutation_length (remove_perm t l Hn Hi)).
Qed.

(** What [next()] does to the sizes of the queue and of the running
    set. *)
Lemma next_sizes (max : number) (s : state) :
  (next max s = s /\ (atLeast (int (active s)) max = true \/ queue s = []))
  \/ (atLeast (int (active s)) max = false
      /\ (List.length (queue (next max s)) + 1 = List.length (queue s))%nat
      /\ List.length (inFlight (next max s)) = (List.length (inFlight s) + 1)%nat
      /\ settled (next max s) = settled s
      /\ submitted (next max s) = submitted s).
Proof.
  unfold next. destruct (atLeast (int (active s)) max) eqn:H; simpl.
  - left. split; [reflexivity | now left].
  - destruct (queue s) as [|t rest]; simpl.
    + left. split; [reflexivity | now right].
    + right. rewrite length_app. simpl. repeat split; lia.
Qed.

(** X1.  After [n] submissions in a row to a fresh limiter for an
    integer [max], with nothing finishing in between, the first
    [min n max] tasks are in flight and the others wait in the queue,
    both in submission order. *)
Theorem fresh_limiter_saturates (max : Z) (n : nat) :
  1 <= max ->
  let s := Nat.iter n (schedule (int max)) initial in
  let k := Nat.min n (Z.to_nat max) in
  inFlight s = seq 0 k
  /\ queue s = seq k (n - k)
  /\ started s = seq 0 k
  /\ settled s = []
  /\ submitted s = n
  /\ active s = Z.of_nat k.
Proof.
  intros Hmax. induction n as [|n IH]; [now repeat split|].
  cbv zeta in *. destruct IH as [Hf [Hq [Hst [Hse [Hsub Ha]]]]].
  change (Nat.iter (S n) (schedule (int max)) initial)
    with (schedule (int max) (Nat.iter n (schedule (int max)) initial)).
  set (s := Nat.iter n (schedule (int max)) initial) in *.
  unfold schedule, next. cbn [queue active submitted started inFlight settled].
  rewrite length_app, Nat.add_comm. cbn [List.length Nat.add Nat.eqb].
  rewrite orb_false_r, atLeast_int.
  destruct (Z.geb_spec (active s) max) as [Hfull|Hfree].
  - (* every slot is taken: the task waits *)
    cbn [queue active submitted started inFlight settled].
    assert (Hk : Nat.min n (Z.to_nat max) = Z.to_nat max) by lia.
    assert (Hk' : Nat.min (S n) (Z.to_nat max) = Z.to_nat max) by lia.
    rewrite Hk in *. rewrite Hk'.
    rewrite Hf, Hq, Hst, Hse, Hsub, Ha.
    replace (S n - Z.to_nat max)%nat with (S (n - Z.to_nat max)) by lia.
    rewrite seq_S. replace (Z.to_nat max + (n - Z.to_nat max))%nat with n by lia.
    repeat split.
  - (* a slot is free: the queue was empty and the task starts *)
    assert (Hk : Nat.min n (Z.to_nat max) = n) by lia.
    assert (Hk' : Nat.min (S n) (Z.to_nat max) = S n) by lia.
    rewrite Hk in *. rewrite Hk'.
    rewrite Nat.sub_diag in *. rewrite seq_S, Hq.
    cbn [queue active submitted started inFlight settled run seq app].
    rewrite Hf, Hst, Hse, Hsub, Ha. cbn [seq Nat.add].
    repeat split. lia.
Qed.

Lemma fresh_limiter_saturates_witness :
  inFlight (Nat.iter 5 (schedule (int 2)) initial) = [0; 1]%nat
  /\ queue (Nat.iter 5 (schedule (int 2)) initial) = [2; 3; 4]%nat.
Proof.
  destruct (fresh_limiter_saturates 2 5 ltac:(lia)) as [H1 [H2 _]].
  split; [exact H1 | exact H2].
Defined.

(** Letting the running tasks finish empties the limiter. *)
Lemma drain_measure (max : number) (n : nat) (s : state) :
  atLeast max (int 1) = true -> core max s -> busy max s ->
  (2 * List.length (queue s) + 2 * List.length (inFlight s)
   + List.length (settled s) <= n)%nat ->
  exists es s',
    Forall finishing es
    /\ exec max es s = Some s'
    /\ queue s' = [] /\ inFlight s' = [] /\ settled s' = []
    /\ submitted s' = submitted s.
Proof.
  intros Hmax. revert s.
  induction n as [|n IH]; intros s Hcore Hbusy Hn.
  - exists [], s. split; [constructor|]. split; [reflexivity|].
    destruct (queue s), (inFlight s), (settled s); simpl in Hn; try lia.
    now repeat split.
  - destruct (inFlight s) as [|t fl] eqn:Hfl.
    + destruct (settled s) as [|t se] eqn:Hse.
      * (* nothing runs, so nothing waits *)
        exists [], s. split; [constructor|]. split; [reflexivity|].
        assert (Ha : active s = 0)
          by (rewrite (core_count _ _ Hcore), Hfl, Hse; reflexivity).
        destruct (queue s) as [|q qs] eqn:Hq; [now repeat split|].
        exfalso. destruct (atLeast_one max Hmax) as [_ Hroom].
        rewrite <- Ha, Hbusy in Hroom; [discriminate | now rewrite Hq].
      * (* the continuation of a settled task runs *)
        assert (Hen : enabled (Resume t) s = true)
          by (simpl; rewrite Hse; simpl; now rewrite Nat.eqb_refl).
        destruct (step_inv max (Resume t) s Hcore Hbusy Hen) as [Hc' Hb'].
        assert (Hnd : NoDup (settled s)).
        { pose proof (core_nodup _ _ Hcore) as H.
          now apply NoDup_app_remove_l in H. }
        assert (Hrm : S (List.length (remove t (settled s)))
                      = List.length (settled s)).
        { apply remove_length; [exact Hnd | rewrite Hse; now left]. }
        simpl in Hc', Hb'. unfold resume in *.
        match type of Hc' with core _ (next _ ?s1) => set (freed := s1) in * end.
        destruct (IH (next max freed) Hc' Hb') as [es [s' [Hes [Hex Hrest]]]].
        { destruct (next_sizes max freed) as [[-> _] | [_ [Hq [Hf [Hs _]]]]].
          - unfold freed; simpl. rewrite Hfl, Hse in *. simpl in *. lia.
          - rewrite Hs. unfold freed in *; simpl in *.
            rewrite Hfl, Hse in *. simpl in *. lia. }
        exists (Resume t :: es), s'. split; [constructor; [discriminate|exact Hes]|].
        split; [simpl; rewrite Hse; simpl; rewrite Nat.eqb_refl; exact Hex|].
        destruct Hrest as [H1 [H2 [H3 H4]]]. repeat split; try assumption.
        rewrite H4. destruct (next_sizes max freed) as [[-> _] | [_ [_ [_ [_ ->]]]]];
          reflexivity.
    + (* the promise of a task in flight settles *)
      assert (Hen : enabled (Settle t) s = true)
        by (simpl; rewrite Hfl; simpl; now rewrite Nat.eqb_refl).
      destruct (step_inv max (Settle t) s Hcore Hbusy Hen) as [Hc' Hb'].
      assert (Hnd : NoDup (inFlight s)).
      { pose proof (core_nodup _ _ Hcore) as H.
        now apply NoDup_app_remove_r in H. }
      assert (Hrm : S (List.length (remove t (inFlight s)))
                    = List.length (inFlight s)).
      { apply remove_length; [exact Hnd | rewrite Hfl; now left]. }
      simpl in Hc', Hb'.
      destruct (IH (settle t s) Hc' Hb') as [es [s' [Hes [Hex Hrest]]]].
      { unfold settle; simpl. rewrite length_app. simpl.
        rewrite Hfl in *. simpl in *. lia. }
      exists (Settle t :: es), s'. split; [constructor; [discriminate|exact Hes]|].
      split; [simpl; rewrite Hfl; simpl; rewrite Nat.eqb_refl; exact Hex|].
      exact Hrest.
Qed.

(** X2.  No task is lost and none waits for ever: from every state a
    limiter for a number [max >= 1] can reach, finishing the running
    tasks one after the other (no new submission) leads to a state in
    which nothing runs, nothing waits, and every task submitted so far
    has been started, in submission order. *)
Theorem limiter_drains (max : number) (s : state) :
  atLeast max (int 1) = true -> reachable max s ->
  exists es s',
    Forall finishing es
    /\ exec max es s = Some s'
    /\ queue s' = [] /\ inFlight s' = [] /\ settled s' = []
    /\ active s' = 0
    /\ started s' = seq 0 (submitted s).
Proof.
  intros Hmax Hr.
  destruct (reachable_inv max s Hr) as [Hcore Hbusy].
  destruct (drain_measure max _ s Hmax Hcore Hbusy (Nat.le_refl _))
    as [es [s' [Hes [Hex [Hq [Hf [Hse Hsub]]]]]]].
  exists es, s'. split; [exact Hes|]. split; [exact Hex|].
  destruct (exec_inv max es s s' Hcore Hbusy Hex) as [Hc' _].
  repeat split; try assumption.
  - rewrite (core_count _ _ Hc'), Hf, Hse. reflexivity.
  - pose proof (core_fifo _ _ Hc') as H. rewrite Hq, app_nil_r in H.
    now rewrite H, Hsub.
Qed.

Lemma limiter_drains_witness :
  exists es s',
    Forall finishing es
    /\ exec (int 2) es Samples.limiterState = Some s'
    /\ queue s' = [] /\ inFlight s' = [] /\ settled s' = []
    /\ active s' = 0
    /\ started s' = [0; 1; 2]%nat.
Proof.
  exact (limiter_drains (int 2) Samples.limiterState eq_refl sample_reachable).
Defined.

End LimitMore.

(* ================================================================== *)
(** * More about provider discovery *)
(* ================================================================== *)

Module ProvidersMore.
Import JS JSFacts Providers Trace Notions Views ProvidersFacts.
Local Open Scope string_scope.

(** ** Computations and relations between worlds *)

Section Preorder.

Variable R : World -> World -> Prop.
Hypothesis R_refl : forall w, R w w.
Hypothesis R_trans : forall a b c, R a b -> R b c -> R a c.

Lemma respects_ret {A} (a : A) : respects R (ret a).
Proof using R_refl R_trans. intros w. apply R_refl. Qed.

Lemma respects_throw {A} (e : error) : respects R (@throw A e).
Proof using R_refl R_trans. intros w. apply R_refl. Qed.

Lemma respects_diverge {A} : respects R (@diverge A).
Proof using R_refl R_trans. intros w. apply R_refl. Qed.

Lemma respects_lift {A} (r : result A) : respects R (lift r).
Proof using R_refl R_trans. destruct r; [apply respects_ret | apply respects_throw]. Qed.

Lemma respects_bind {A B} (m : M A) (k : A -> M B) :
  respects R m -> (forall a, respects R (k a)) -> respects R (bind m k).
Proof using R_refl R_trans.
  intros Hm Hk w. unfold bind. specialize (Hm w).
  destruct (m w) as [[a|e|] w']; simpl in *; try assumption.
  exact (R_trans _ _ _ Hm (Hk a w')).
Qed.

Lemma respects_tryCatch {A} (m : M A) (h : error -> M A) :
  respects R m -> (forall e, respects R (h e)) -> respects R (tryCatch m h).
Proof using R_refl R_trans.
  intros Hm Hh w. unfold tryCatch. specialize (Hm w).
  destruct (m w) as [[a|e|] w']; simpl in *; try assumption.
  exact (R_trans _ _ _ Hm (Hh e w')).
Qed.

Lemma respects_when (b : bool) (m : M unit) :
  respects R m -> respects R (when b m).
Proof using R_refl R_trans. destruct b; [auto | intros _; apply respects_ret]. Qed.

Lemma respects_promiseAll {A} (tasks : list (M A)) :
  Forall (respects R) tasks -> respects R (promiseAll tasks).
Proof using R_refl R_trans.
  induction 1 as [|t ts Ht _ IH]; intros w; simpl; [apply R_refl|].
  specialize (Ht w). destruct (t w) as [r w1]. specialize (IH w1).
  destruct (promiseAll ts w1) as [rs w2]. simpl in *.
  exact (R_trans _ _ _ Ht IH).
Qed.

End Preorder.

Lemma sends_refl (P : Request -> Prop) (w : World) : sends P w w.
Proof. exists []. now rewrite app_nil_r. Qed.

Lemma sends_trans (P : Request -> Prop) (a b c : World) :
  sends P a b -> sends P b c -> sends P a c.
Proof.
  intros [x [Hx Px]] [y [Hy Py]]. exists (x ++ y)%list.
  rewrite Hy, Hx, app_assoc. split; [reflexivity | now apply Forall_app].
Qed.

Lemma logged_refl (P : logEntry -> Prop) (w : World) : logged P w w.
Proof. exists []. now rewrite app_nil_r. Qed.

Lemma logged_trans (P : logEntry -> Prop) (a b c : World) :
  logged P a b -> logged P b c -> logged P a c.
Proof.
  intros [x [Hx Px]] [y [Hy Py]]. exists (x ++ y)%list.
  rewrite Hy, Hx, app_assoc. split; [reflexivity | now apply Forall_app].
Qed.

(** Splits a computation along its binds and case distinctions, for a
    relation with reflexivity [Hr] and transitivity [Ht]. *)
Ltac respects_cases Hr Ht :=
  repeat first
    [ progress (intros)
    | apply (respects_ret _ Hr Ht) | apply (respects_throw _ Hr Ht)
    | apply (respects_diverge _ Hr Ht) | apply (respects_lift _ Hr Ht)
    | apply (respects_bind _ Hr Ht) | apply (respects_tryCatch _ Hr Ht)
    | apply (respects_when _ Hr Ht)
    | solve [auto]
    | match goal with
      | |- context [match ?x with _ => _ end] => destruct x
      end ].

Ltac ensures_split :=
  repeat first
    [ progress (intros)
    | apply ensures_ret; solve [constructor | auto]
    | apply ensures_throw | apply ensures_diverge
    | apply ensures_then | apply ensures_tryCatch
    | match goal with
      | |- context [match ?x with _ => _ end] => destruct x
      end ].

#[local] Hint Resolve total_ret total_throw total_lift total_log total_bind
  total_tryCatch total_when total_promiseAll
  keepsFile_ret keepsFile_throw keepsFile_diverge keepsFile_lift keepsFile_log
  keepsFile_bind keepsFile_tryCatch keepsFile_when keepsFile_promiseAll : monad.

Section Surroundings.

Variable OLLAMA_API_BASE_URL : string.
Variable OLLAMA_DEFAULT_COST : value.
Variable OLLAMA_DEFAULT_CONTEXT_WINDOW : Z.
Variable OLLAMA_DEFAULT_MAX_TOKENS : Z.
Variable OLLAMA_SHOW_MAX_MODELS : Z.
Variable OLLAMA_SHOW_CONCURRENCY : Z.
Variable AuthProfileStore : Type.
Variable ensureAuthProfileStore : string -> AuthProfileStore.
Variable resolveEnvApiKeyVarName : string -> option string.
Variable resolveApiKeyFromProfiles : string -> AuthProfileStore -> option string.
Variable env : ProcessEnv.
Variable network : list Request -> Request -> reply.
Variable writable : bool.

Local Abbreviation apiBaseOf := (resolveOllamaApiBase OLLAMA_API_BASE_URL).
Local Abbreviation query := (queryOllamaContextWindow network).
Local Abbreviation inspect :=
  (inspectModel OLLAMA_DEFAULT_COST OLLAMA_DEFAULT_CONTEXT_WINDOW
     OLLAMA_DEFAULT_MAX_TOKENS network).
Local Abbreviation batches :=
  (inspectBatches OLLAMA_DEFAULT_COST OLLAMA_DEFAULT_CONTEXT_WINDOW
     OLLAMA_DEFAULT_MAX_TOKENS OLLAMA_SHOW_CONCURRENCY network).
Local Abbreviation body :=
  (discoverBody OLLAMA_API_BASE_URL OLLAMA_DEFAULT_COST
     OLLAMA_DEFAULT_CONTEXT_WINDOW OLLAMA_DEFAULT_MAX_TOKENS
     OLLAMA_SHOW_MAX_MODELS OLLAMA_SHOW_CONCURRENCY network).
Local Abbreviation discover :=
  (discoverOllamaModels OLLAMA_API_BASE_URL OLLAMA_DEFAULT_COST
     OLLAMA_DEFAULT_CONTEXT_WINDOW OLLAMA_DEFAULT_MAX_TOKENS
     OLLAMA_SHOW_MAX_MODELS OLLAMA_SHOW_CONCURRENCY env network).
Local Abbreviation build :=
  (buildOllamaProvider OLLAMA_API_BASE_URL OLLAMA_DEFAULT_COST
     OLLAMA_DEFAULT_CONTEXT_WINDOW OLLAMA_DEFAULT_MAX_TOKENS
     OLLAMA_SHOW_MAX_MODELS OLLAMA_SHOW_CONCURRENCY env network).
Local Abbreviation resolve :=
  (resolveImplicitProviders OLLAMA_API_BASE_URL OLLAMA_DEFAULT_COST
     OLLAMA_DEFAULT_CONTEXT_WINDOW OLLAMA_DEFAULT_MAX_TOKENS
     OLLAMA_SHOW_MAX_MODELS OLLAMA_SHOW_CONCURRENCY AuthProfileStore
     ensureAuthProfileStore resolveEnvApiKeyVarName resolveApiKeyFromProfiles
     env network writable).
Local Abbreviation keyOf :=
  (ollamaKeyOf AuthProfileStore ensureAuthProfileStore resolveEnvApiKeyVarName
     resolveApiKeyFromProfiles).
Local Abbreviation optionsOf :=
  (discoveryOptionsOf AuthProfileStore ensureAuthProfileStore
     resolveEnvApiKeyVarName resolveApiKeyFromProfiles).
Local Abbreviation load := loadModelCache.
Local Abbreviation save := (saveModelCache writable).

(** ** What a probe yields comes from the metadata *)

Lemma scan_sound (es : object) (cw : Z) :
  scanContextLength es = Some cw ->
  exists k q,
    In (k, JNum (Finite q)) es
    /\ endsWith k CONTEXT_LENGTH_SUFFIX = true
    /\ (1 <= q)%Q /\ cw = Qfloor q.
Proof.
  induction es as [|[k v] es IH]; simpl; [discriminate|].
  assert (Hrest : scanContextLength es = Some cw ->
                  exists k' q,
                    In (k', JNum (Finite q)) ((k, v) :: es)
                    /\ endsWith k' CONTEXT_LENGTH_SUFFIX = true
                    /\ (1 <= q)%Q /\ cw = Qfloor q).
  { intros H. destruct (IH H) as [k' [q [Hin Hq]]].
    exists k', q. split; [now right | exact Hq]. }
  destruct (endsWith k CONTEXT_LENGTH_SUFFIX) eqn:Hk; [|exact Hrest].
  destruct v as [| |[q| | |]| | |]; simpl; try exact Hrest.
  destruct (Qfloor q >? 0)%Z eqn:Hf; [|exact Hrest].
  intros E. inversion E; subst. exists k, q.
  split; [now left|]. split; [exact Hk|]. split; [|reflexivity].
  now apply floor_positive.
Qed.

(** X3.  Whenever a probe yields a context window, the backend answered
    the probe with an OK response whose JSON body has a truthy
    [model_info], and the window is the floor of a finite value of at
    least 1 stored there under a key ending in [.context_length]: a
    rejected or failed request, a body that is not JSON, a value that is
    a string, an infinity or below 1 never produce one. *)
Theorem probe_sound apiBase modelName w cw w' :
  query apiBase modelName w = (Returns (Some cw), w') ->
  exists r data info k q,
    network (requests w) (showRequest apiBase modelName) = Responds r
    /\ ok r = true /\ json r = Some data
    /\ getProp data "model_info" = Ok (Some info) /\ truthy info = true
    /\ In (k, JNum (Finite q)) (entries info)
    /\ endsWith k CONTEXT_LENGTH_SUFFIX = true
    /\ (1 <= q)%Q /\ cw = Qfloor q.
Proof.
  unfold queryOllamaContextWindow, tryCatch, bind at 1.
  rewrite ollamaFetch_eval. fold (showRequest apiBase modelName).
  destruct (network _ _) as [|r] eqn:Hnet; simpl; [discriminate|].
  destruct (ok r) eqn:Hok; simpl; [|discriminate].
  unfold bind, responseJson. destruct (json r) as [data|] eqn:Hj; simpl;
    [|discriminate].
  destruct (getProp data "model_info") as [[info|]|e] eqn:Hi; simpl;
    try discriminate.
  destruct (truthy info) eqn:Ht; simpl; [|discriminate].
  intros E. inversion E as [[Hscan Hw]].
  destruct (scan_sound _ _ Hscan) as [k [q [Hin [Hk [Hq Hcw]]]]].
  exists r, data, info, k, q. repeat split; assumption.
Qed.

(** ** The shape of the descriptors *)

Lemma ensures_query_positive apiBase modelName :
  ensures (fun found => forall cw, found = Some cw -> (0 < cw)%Z)
    (query apiBase modelName).
Proof.
  intros w found w' H.
  destruct (query_returns network apiBase modelName w) as [found' [Hq Hpos]].
  assert (found' = found) by congruence. now subst.
Qed.

Lemma ensures_inspect_assembled apiBase model :
  ensures (assembled OLLAMA_DEFAULT_COST OLLAMA_DEFAULT_CONTEXT_WINDOW
             OLLAMA_DEFAULT_MAX_TOKENS)
    (inspect apiBase model).
Proof.
  unfold inspectModel. apply ensures_then. intros modelId.
  eapply ensures_bind; [apply ensures_query_positive|].
  intros found Hpos.
  destruct modelId as [[| | | s | |]|]; try apply ensures_throw.
  apply ensures_ret. unfold assembled. simpl. repeat split.
  destruct found as [cw|]; [right; now apply Hpos | now left].
Qed.

Section Descriptors.

Variable P : ModelDefinitionConfig -> Prop.
Hypothesis inspect_ensures : forall apiBase model, ensures P (inspect apiBase model).

Lemma ensures_batches_all fuel apiBase toInspect i discovered :
  Forall P discovered ->
  ensures (Forall P) (batches fuel apiBase toInspect i discovered).
Proof.
  revert i discovered.
  induction fuel as [|fuel IH]; intros i discovered Hd; simpl;
    destruct (i <? _)%Z;
    try (apply ensures_diverge); try (now apply ensures_ret).
  apply (ensures_bind (Forall P)).
  - apply ensures_promiseAll, Forall_forall. intros t Ht.
    apply in_map_iff in Ht. destruct Ht as [model [<- _]].
    apply inspect_ensures.
  - intros ms Hms. apply IH. apply Forall_app. now split.
Qed.

Lemma ensures_body_all baseUrl opts : ensures (Forall P) (body baseUrl opts).
Proof.
  unfold discoverBody. apply ensures_then. intros response.
  destruct (negb (ok response)); [ensures_split|].
  apply ensures_then. intros data. apply ensures_then. intros models.
  apply ensures_then. intros len.
  destruct (negb (truthy' len)); [ensures_split|].
  destruct models as [[| | | s | tags |]|]; try apply ensures_throw.
  - ensures_split.
  - apply ensures_then. intros _. apply ensures_then. intros _.
    apply ensures_batches_all. constructor.
Qed.

Lemma ensures_discover_all baseUrl opts :
  ensures (Forall P) (discover baseUrl opts).
Proof.
  unfold discoverOllamaModels. destruct (underTest env).
  - apply ensures_ret. constructor.
  - apply ensures_tryCatch; [apply ensures_body_all | ensures_split].
Qed.

End Descriptors.

(** X4.  Every descriptor that discovery returns has its id as its name,
    text as its only input, the default cost and the default token limit,
    and a context window that is the default or a positive integer. *)
Theorem discovered_descriptors_assembled baseUrl opts w ms w' :
  discover baseUrl opts w = (Returns ms, w') ->
  Forall (assembled OLLAMA_DEFAULT_COST OLLAMA_DEFAULT_CONTEXT_WINDOW
            OLLAMA_DEFAULT_MAX_TOKENS) ms.
Proof.
  apply (ensures_discover_all _ ensures_inspect_assembled).
Qed.

(** ** An entry without a name *)

Lemma inspect_unnamed apiBase t w :
  unnamed t -> exists e w', inspect apiBase t w = (Throws e, w').
Proof.
  intros Hu. unfold inspectModel, bind at 1.
  destruct (getProp t "name") as [modelId|e] eqn:Hn; simpl; [|eauto].
  unfold bind.
  destruct (query_returns network apiBase modelId w) as [found [Hq _]].
  rewrite Hq.
  destruct modelId as [[| | | s | |]|]; simpl; unfold throw;
    try (eexists; eexists; reflexivity).
  exfalso. exact (Hu s Hn).
Qed.

Lemma promiseAll_throws {A} (tasks : list (M A)) w :
  Exists (fun t => forall w, exists e w', t w = (Throws e, w')) tasks ->
  exists e w', promiseAll tasks w = (Throws e, w').
Proof.
  intros H. revert w. induction H as [t ts Ht | t ts _ IH]; intros w; simpl.
  - destruct (Ht w) as [e [w1 ->]].
    destruct (promiseAll ts w1) as [rs w2]. eauto.
  - destruct (t w) as [r w1]. destruct (IH w1) as [e [w2 ->]].
    destruct r; eauto.
Qed.

Lemma batches_throws fuel apiBase toInspect i discovered w :
  (1 <= OLLAMA_SHOW_CONCURRENCY)%Z -> (0 <= i)%Z ->
  (Z.of_nat (List.length toInspect) - i < Z.of_nat fuel)%Z ->
  Exists unnamed (skipn (Z.to_nat i) toInspect) ->
  exists e w', batches fuel apiBase toInspect i discovered w = (Throws e, w').
Proof.
  intros Hc. revert i discovered w.
  induction fuel as [|fuel IH]; intros i discovered w Hi Hfuel Hbad; simpl;
    destruct (Z.ltb_spec i (Z.of_nat (List.length toInspect))) as [Hlt|Hge];
    try lia;
    try (rewrite skipn_all2 in Hbad by lia; inversion Hbad).
  rewrite slice_batch by assumption.
  set (c := Z.to_nat OLLAMA_SHOW_CONCURRENCY).
  set (n := Z.to_nat i) in *.
  rewrite <- (firstn_skipn c (skipn n toInspect)) in Hbad.
  apply Exists_app in Hbad. unfold bind. destruct Hbad as [Hbad | Hbad].
  - destruct (promiseAll_throws
                (map (inspect apiBase) (firstn c (skipn n toInspect))) w)
      as [e [w1 ->]]; [|eauto].
    apply Exists_exists in Hbad. destruct Hbad as [t [Ht Hu]].
    apply Exists_exists. exists (inspect apiBase t).
    split; [now apply in_map|]. intros w0. now apply inspect_unnamed.
  - pose proof (total_inspectAll OLLAMA_DEFAULT_COST
                  OLLAMA_DEFAULT_CONTEXT_WINDOW OLLAMA_DEFAULT_MAX_TOKENS
                  network apiBase (firstn c (skipn n toInspect)) w) as Htot.
    destruct (promiseAll _ w) as [[ms|e|] w1]; simpl in Htot;
      [|eauto|congruence].
    apply IH; [lia | lia |].
    rewrite skipn_skipn in Hbad.
    replace (Z.to_nat (i + OLLAMA_SHOW_CONCURRENCY)) with (c + n)%nat
      by (unfold c, n; lia).
    exact Hbad.
Qed.

#[local] Arguments inspectBatches : simpl never.
#[local] Arguments slice : simpl never.

(** X5.  One malformed entry voids the whole discovery: when an entry
    among those to be inspected has no string as its [name], discovery
    returns the empty list, also when every other model was probed
    successfully. *)
Theorem unnamed_entry_voids_discovery baseUrl opts w r data tags :
  underTest env = false ->
  (0 <= OLLAMA_SHOW_MAX_MODELS)%Z -> (1 <= OLLAMA_SHOW_CONCURRENCY)%Z ->
  network (requests w) (tagsRequest (apiBaseOf baseUrl)) = Responds r ->
  ok r = true -> json r = Some data ->
  getProp data "models" = Ok (Some (JArr tags)) ->
  Exists unnamed (firstn (Z.to_nat OLLAMA_SHOW_MAX_MODELS) tags) ->
  exists w', discover baseUrl opts w = (Returns [], w').
Proof.
  intros Ht Hmax Hconc Hnet Hok Hjson Hmodels Hbad.
  assert (Hbody : exists e w1, body baseUrl opts w = (Throws e, w1)).
  { unfold discoverBody, bind at 1. rewrite ollamaFetch_eval.
    fold (tagsRequest (apiBaseOf baseUrl)). rewrite Hnet, Hok. simpl.
    unfold bind at 1, responseJson. rewrite Hjson. simpl.
    unfold bind at 1. rewrite Hmodels. simpl.
    unfold bind at 1. simpl.
    change (negb (Qeq_bool (inject_Z (Z.of_nat (List.length tags))) 0))
      with (truthy (ofNat (List.length tags))).
    rewrite truthy_ofNat.
    destruct (Nat.eqb_spec (List.length tags) 0) as [Hz|Hnz]; simpl.
    { destruct tags; [|discriminate]. rewrite firstn_nil in Hbad.
      inversion Hbad. }
    rewrite slice_prefix by assumption.
    set (toInspect := firstn (Z.to_nat OLLAMA_SHOW_MAX_MODELS) tags) in *.
    unfold bind at 1.
    destruct (warnCapped OLLAMA_SHOW_MAX_MODELS (List.length toInspect)
                (List.length tags) opts
                (addRequest w (tagsRequest (apiBaseOf baseUrl))))
      as [[[]|e|] w1] eqn:Ew;
      try (unfold warnCapped, when, log, ret in Ew;
           destruct (_ && _) in Ew; discriminate).
    unfold bind at 1, Limit.limit. rewrite lessThan_int.
    destruct (Z.ltb_spec OLLAMA_SHOW_CONCURRENCY 1); [lia|]. simpl.
    apply batches_throws; try lia. exact Hbad. }
  destruct Hbody as [e [w1 Hb]].
  exists (afterCatch opts e w1).
  exact (discover_caught OLLAMA_API_BASE_URL OLLAMA_DEFAULT_COST
           OLLAMA_DEFAULT_CONTEXT_WINDOW OLLAMA_DEFAULT_MAX_TOKENS
           OLLAMA_SHOW_MAX_MODELS OLLAMA_SHOW_CONCURRENCY env network
           baseUrl opts w e w1 Ht Hb).
Qed.

(** ** What discovery sends *)

Lemma https_prefix (b x : string) :
  String.prefix "https" (b ++ String "/" x) = String.prefix "https" b.
Proof.
  apply eq_true_iff_eq. rewrite !prefix_iff. split.
  - intros [q H].
    destruct b as [|c1 [|c2 [|c3 [|c4 [|c5 b]]]]]; simpl in H;
      inversion H; subst. now exists b.
  - intros [q ->]. exists (q ++ String "/" x). now rewrite append_assoc.
Qed.

Lemma via_tagsRequest apiBase : via (tagsRequest apiBase) = agentFor apiBase.
Proof.
  unfold tagsRequest, request, agentFor. cbn [via].
  change (apiBase ++ "/api/tags") with (apiBase ++ String "/" "api/tags").
  now rewrite https_prefix.
Qed.

Lemma via_showRequest apiBase modelName :
  via (showRequest apiBase modelName) = agentFor apiBase.
Proof.
  unfold showRequest, request, agentFor. cbn [via].
  change (apiBase ++ "/api/show") with (apiBase ++ String "/" "api/show").
  now rewrite https_prefix.
Qed.

Lemma respects_fetch_sends (P : Request -> Prop) input method body timeout :
  P (request input method body timeout) ->
  respects (sends P) (ollamaFetch network input method body timeout).
Proof.
  intros HP w. rewrite ollamaFetch_eval. simpl.
  exists [request input method body timeout]. split; [reflexivity|].
  now constructor.
Qed.

Lemma respects_log_sends (P : Request -> Prop) e : respects (sends P) (log e).
Proof. intros w. exists []. simpl. now rewrite app_nil_r. Qed.

Lemma respects_responseJson (R : World -> World -> Prop) r :
  (forall w, R w w) -> (forall a b c, R a b -> R b c -> R a c) ->
  respects R (responseJson r).
Proof.
  intros Hr Ht. unfold responseJson.
  destruct (json r); [now apply respects_ret | now apply respects_throw].
Qed.

Lemma respects_query_sends apiBase modelName :
  respects (sends (isProbe apiBase)) (query apiBase modelName).
Proof.
  pose proof (sends_refl (isProbe apiBase)) as Hr.
  pose proof (sends_trans (isProbe apiBase)) as Ht.
  unfold queryOllamaContextWindow. apply (respects_tryCatch _ Hr Ht).
  - apply (respects_bind _ Hr Ht).
    + apply respects_fetch_sends. now exists modelName.
    + intros response. destruct (negb (ok response)); [now apply respects_ret|].
      apply (respects_bind _ Hr Ht); [now apply respects_responseJson|].
      respects_cases Hr Ht.
  - intros e. now apply respects_ret.
Qed.

Lemma respects_inspect_sends apiBase model :
  respects (sends (isProbe apiBase)) (inspect apiBase model).
Proof.
  pose proof (sends_refl (isProbe apiBase)) as Hr.
  pose proof (sends_trans (isProbe apiBase)) as Ht.
  unfold inspectModel. apply (respects_bind _ Hr Ht); [now apply respects_lift|].
  intros modelId. apply (respects_bind _ Hr Ht); [apply respects_query_sends|].
  respects_cases Hr Ht.
Qed.

Lemma batches_0 apiBase toInspect i discovered :
  batches 0 apiBase toInspect i discovered
  = if (i <? Z.of_nat (List.length toInspect))%Z then diverge
    else ret discovered.
Proof. reflexivity. Qed.

Lemma batches_S fuel apiBase toInspect i discovered :
  batches (S fuel) apiBase toInspect i discovered
  = if (i <? Z.of_nat (List.length toInspect))%Z
    then bind (promiseAll
                 (map (inspect apiBase)
                    (slice toInspect i (i + OLLAMA_SHOW_CONCURRENCY))))
           (fun batchDiscovered =>
              batches fuel apiBase toInspect (i + OLLAMA_SHOW_CONCURRENCY)
                (discovered ++ batchDiscovered)%list)
    else ret discovered.
Proof. reflexivity. Qed.

Section Batches.

Variable R : World -> World -> Prop.
Hypothesis R_refl : forall w, R w w.
Hypothesis R_trans : forall a b c, R a b -> R b c -> R a c.
Variable apiBase : string.
Hypothesis inspect_respects : forall model, respects R (inspect apiBase model).

Lemma respects_batches fuel toInspect i discovered :
  respects R (batches fuel apiBase toInspect i discovered).
Proof using R_refl R_trans inspect_respects.
  revert i discovered. induction fuel as [|fuel IH]; intros i discovered;
    [rewrite batches_0 | rewrite batches_S]; destruct (i <? _)%Z;
    try (now apply respects_ret); try (now apply respects_diverge).
  apply (respects_bind _ R_refl R_trans); [|intros ms; apply IH].
  apply (respects_promiseAll _ R_refl R_trans), Forall_forall. intros t Ht.
  apply in_map_iff in Ht. destruct Ht as [model [<- _]].
  apply inspect_respects.
Qed.

End Batches.

#[local] Arguments inspectBatches : simpl never.
#[local] Arguments slice : simpl never.

Lemma body_requests baseUrl opts w :
  exists probes,
    requests (snd (body baseUrl opts w))
    = (requests w ++ tagsRequest (apiBaseOf baseUrl) :: probes)%list
    /\ Forall (isProbe (apiBaseOf baseUrl)) probes.
Proof.
  pose proof (sends_refl (isProbe (apiBaseOf baseUrl))) as Hr.
  pose proof (sends_trans (isProbe (apiBaseOf baseUrl))) as Ht.
  pose proof (respects_batches _ Hr Ht _ (respects_inspect_sends (apiBaseOf baseUrl))) as Hb.
  pose proof (respects_log_sends (isProbe (apiBaseOf baseUrl))) as Hl.
  unfold discoverBody, bind at 1. rewrite ollamaFetch_eval.
  fold (tagsRequest (apiBaseOf baseUrl)).
  destruct (network _ _) as [|r].
  { exists []. split; [reflexivity | constructor]. }
  match goal with
  | |- context [snd (?k (addRequest w _))] =>
      assert (Hk : respects (sends (isProbe (apiBaseOf baseUrl))) k)
  end.
  { destruct (negb (ok r)); [respects_cases Hr Ht|].
    apply (respects_bind _ Hr Ht); [now apply respects_responseJson|].
    intros data. unfold warnCapped. respects_cases Hr Ht. }
  destruct (Hk (addRequest w (tagsRequest (apiBaseOf baseUrl))))
    as [probes [Hp Hall]].
  exists probes. rewrite Hp. simpl. rewrite <- app_assoc. now split.
Qed.

Lemma discover_world baseUrl opts w :
  underTest env = false ->
  exists out e,
    snd (discover baseUrl opts w) = snd (body baseUrl opts w)
    \/ (body baseUrl opts w = (out, snd (body baseUrl opts w))
        /\ snd (discover baseUrl opts w)
           = afterCatch opts e (snd (body baseUrl opts w))).
Proof.
  intros Ht. unfold discoverOllamaModels, tryCatch. rewrite Ht.
  destruct (body baseUrl opts w) as [[ms|e|] w1]; simpl.
  - exists (Returns ms), TypeError. now left.
  - exists (Throws e), e. right. split; [reflexivity|].
    unfold afterCatch, bind, when. now destruct (loud opts).
  - exists Diverges, TypeError. now left.
Qed.

Lemma afterCatch_requests opts e w : requests (afterCatch opts e w) = requests w.
Proof. unfold afterCatch. now destruct (loud opts). Qed.

(** X6.  Discovery talks to nobody else: under a test environment it
    sends nothing; otherwise it sends the request for the tag list to the
    resolved base first and after it only probes of that base, and every
    one of these requests goes to [/api/tags] or [/api/show] under the
    base, through the HTTPS pool exactly when the base starts with
    [https]. *)
Theorem discovery_requests baseUrl opts w :
  exists extra,
    requests (snd (discover baseUrl opts w)) = (requests w ++ extra)%list
    /\ (underTest env = true -> extra = [])
    /\ (underTest env = false ->
        exists probes,
          extra = tagsRequest (apiBaseOf baseUrl) :: probes
          /\ Forall (isProbe (apiBaseOf baseUrl)) probes)
    /\ Forall (fun r =>
                 via r = agentFor (apiBaseOf baseUrl)
                 /\ (url r = apiBaseOf baseUrl ++ "/api/tags"
                     \/ url r = apiBaseOf baseUrl ++ "/api/show"))
              extra.
Proof.
  destruct (underTest env) eqn:Ht.
  - exists []. unfold discoverOllamaModels. rewrite Ht. simpl.
    rewrite app_nil_r. repeat split; [discriminate | constructor].
  - destruct (body_requests baseUrl opts w) as [probes [Hreq Hall]].
    exists (tagsRequest (apiBaseOf baseUrl) :: probes). split; [|split; [|split]].
    + destruct (discover_world baseUrl opts w Ht) as [out [e [-> | [_ ->]]]];
        [|rewrite afterCatch_requests]; exact Hreq.
    + discriminate.
    + intros _. now exists probes.
    + constructor.
      * split; [apply via_tagsRequest | now left].
      * apply (Forall_impl _ (P := isProbe (apiBaseOf baseUrl))); [|exact Hall].
        intros r [modelName ->]. split; [apply via_showRequest | now right].
Qed.

(** ** What discovery logs *)

Lemma respects_fetch_logged (Q : logEntry -> Prop) input method body timeout :
  respects (logged Q) (ollamaFetch network input method body timeout).
Proof.
  intros w. rewrite ollamaFetch_eval. exists []. simpl. now rewrite app_nil_r.
Qed.

Lemma respects_log_logged (Q : logEntry -> Prop) e :
  Q e -> respects (logged Q) (log e).
Proof.
  intros HQ w. exists [e]. split; [reflexivity | now constructor].
Qed.

Lemma respects_query_logged (Q : logEntry -> Prop) apiBase modelName :
  respects (logged Q) (query apiBase modelName).
Proof.
  pose proof (logged_refl Q) as Hr. pose proof (logged_trans Q) as Ht.
  unfold queryOllamaContextWindow. apply (respects_tryCatch _ Hr Ht).
  - apply (respects_bind _ Hr Ht); [apply respects_fetch_logged|].
    intros response. destruct (negb (ok response)); [now apply respects_ret|].
    apply (respects_bind _ Hr Ht); [now apply respects_responseJson|].
    respects_cases Hr Ht.
  - intros e. now apply respects_ret.
Qed.

Lemma respects_inspect_logged (Q : logEntry -> Prop) apiBase model :
  respects (logged Q) (inspect apiBase model).
Proof.
  pose proof (logged_refl Q) as Hr. pose proof (logged_trans Q) as Ht.
  unfold inspectModel. apply (respects_bind _ Hr Ht); [now apply respects_lift|].
  intros modelId. apply (respects_bind _ Hr Ht); [apply respects_query_logged|].
  respects_cases Hr Ht.
Qed.

Lemma respects_when_off (R : World -> World -> Prop) (b : bool) (m : M unit) :
  (forall w, R w w) -> (forall a b c, R a b -> R b c -> R a c) ->
  b = false -> respects R (when b m).
Proof. intros Hr Ht ->. now apply respects_ret. Qed.

Lemma respects_discover_quiet baseUrl opts :
  loud opts = false ->
  respects (logged (eq DebugNoModels)) (discover baseUrl opts).
Proof.
  intros Hq.
  pose proof (logged_refl (eq DebugNoModels)) as Hr.
  pose proof (logged_trans (eq DebugNoModels)) as Ht.
  pose proof (fun apiBase => respects_batches _ Hr Ht apiBase (respects_inspect_logged _ apiBase)) as Hb.
  assert (Hcap : forall a b, respects (logged (eq DebugNoModels))
                               (warnCapped OLLAMA_SHOW_MAX_MODELS a b opts)).
  { intros a b. unfold warnCapped. apply respects_when_off; [exact Hr | exact Ht |].
    rewrite Hq. apply andb_false_r. }
  unfold discoverOllamaModels. destruct (underTest env); [now apply respects_ret|].
  apply (respects_tryCatch _ Hr Ht).
  - unfold discoverBody.
    apply (respects_bind _ Hr Ht); [apply respects_fetch_logged|].
    intros response. destruct (negb (ok response)).
    + apply (respects_bind _ Hr Ht); [now apply respects_when_off|].
      intros _. now apply respects_ret.
    + apply (respects_bind _ Hr Ht); [now apply respects_responseJson|].
      intros data. apply (respects_bind _ Hr Ht); [now apply respects_lift|].
      intros models.
      apply (respects_bind _ Hr Ht);
        [destruct models as [[]|];
         first [now apply respects_ret | now apply respects_lift]|].
      intros len. destruct (negb (truthy' len)).
      * apply (respects_bind _ Hr Ht);
          [now apply respects_log_logged | intros _; now apply respects_ret].
      * destruct models as [[| | | s | tags |]|];
          try (now apply respects_throw);
          (apply (respects_bind _ Hr Ht); [apply Hcap|]; intros _;
           apply (respects_bind _ Hr Ht); [now apply respects_lift|]; intros _).
        -- destruct (0 <? _)%nat;
             [now apply respects_throw | now apply respects_ret].
        -- apply Hb.
  - intros e. apply (respects_bind _ Hr Ht); [now apply respects_when_off|].
    intros _. now apply respects_ret.
Qed.

(** ** The resolver and the outside world *)

Lemma silently_refl w : silently w w.
Proof. now split. Qed.

Lemma silently_trans a b c : silently a b -> silently b c -> silently a c.
Proof. intros [H1 H2] [H3 H4]. split; congruence. Qed.

Lemma respects_save_silently cache : respects silently (save cache).
Proof.
  intros w. unfold saveModelCache, tryCatch, writeJson.
  destruct writable; split; reflexivity.
Qed.

Lemma respects_load_silently : respects silently load.
Proof.
  intros w. unfold loadModelCache, bind, existsSync, tryCatch, readJson.
  destruct (cacheFile w) eqn:E; simpl; rewrite ?E; split; reflexivity.
Qed.

Lemma discover_always_returns baseUrl opts w :
  exists ms w1, discover baseUrl opts w = (Returns ms, w1).
Proof.
  destruct (underTest env) eqn:Ht.
  - exists [], w. unfold discoverOllamaModels. now rewrite Ht.
  - destruct (body baseUrl opts w) as [[ms|e|] w1] eqn:Hb.
    + exists ms, w1.
      exact (discover_returned OLLAMA_API_BASE_URL OLLAMA_DEFAULT_COST
               OLLAMA_DEFAULT_CONTEXT_WINDOW OLLAMA_DEFAULT_MAX_TOKENS
               OLLAMA_SHOW_MAX_MODELS OLLAMA_SHOW_CONCURRENCY env network
               baseUrl opts w ms w1 Ht Hb).
    + exists [], (afterCatch opts e w1).
      exact (discover_caught OLLAMA_API_BASE_URL OLLAMA_DEFAULT_COST
               OLLAMA_DEFAULT_CONTEXT_WINDOW OLLAMA_DEFAULT_MAX_TOKENS
               OLLAMA_SHOW_MAX_MODELS OLLAMA_SHOW_CONCURRENCY env network
               baseUrl opts w e w1 Ht Hb).
    + exfalso.
      apply (total_body OLLAMA_API_BASE_URL OLLAMA_DEFAULT_COST
               OLLAMA_DEFAULT_CONTEXT_WINDOW OLLAMA_DEFAULT_MAX_TOKENS
               OLLAMA_SHOW_MAX_MODELS OLLAMA_SHOW_CONCURRENCY network
               baseUrl opts w).
      now rewrite Hb.
Qed.

(** The provider [resolveImplicitProviders] builds from the models
    [ms]. *)
Local Abbreviation providerOf params ms :=
  {| baseUrl := apiBaseOf (ollamaBaseUrlOf params);
     api := "ollama";
     models := ms |}.

(** The key it attaches. *)
Local Abbreviation apiKeyOf params :=
  (match keyOf params with Some k => k | None => "ollama-local" end).

Local Abbreviation entryOf params ms :=
  (providerEntry (providerOf params ms) (apiKeyOf params)).

(** The resolver after discovery has returned [ms]. *)
Lemma resolve_unfold params w ms w1 :
  discover (ollamaBaseUrlOf params) (optionsOf params) w = (Returns ms, w1) ->
  resolve params w
  = (if (0 <? List.length ms)%nat || truthyString (keyOf params)
     then bind (save [("ollama", entryOf params ms)])
            (fun _ => ret [("ollama", entryOf params ms)])
     else bind load
            (fun cached =>
               bind (lift (getProp cached "ollama"))
                 (fun cachedOllama =>
                    if truthy' cachedOllama
                    then ret (match cachedOllama with
                              | Some c => [("ollama", c)]
                              | None => []
                              end)
                    else ret [])))
      w1.
Proof.
  intros Hd. unfold resolveImplicitProviders, buildOllamaProvider.
  unfold bind at 1 2. rewrite Hd. reflexivity.
Qed.

Lemma load_eval w :
  load w
  = (Returns (match cacheFile w with Content doc => doc | _ => JObj [] end), w).
Proof.
  unfold loadModelCache, bind, existsSync, tryCatch, readJson.
  destruct (cacheFile w) eqn:E; simpl; rewrite ?E; reflexivity.
Qed.

Lemma save_eval cache w :
  save cache w
  = (Returns tt,
     if writable
     then {| requests := requests w; logs := logs w;
             cacheFile := Content (jsonClone (JObj cache)) |}
     else w).
Proof.
  unfold saveModelCache, tryCatch, writeJson. now destruct writable.
Qed.

(** X7.  The cache never fails its caller: loading returns the document
    in the file, or the empty object when the file is missing or cannot
    be read or parsed, and changes nothing; saving returns normally
    whether or not the file could be written, and touches nothing but the
    file. *)
Theorem cache_never_throws cache w :
  (exists doc,
     load w = (Returns doc, w)
     /\ (cacheFile w = Content doc
         \/ (doc = JObj [] /\ (cacheFile w = Absent \/ cacheFile w = Unreadable))))
  /\ (exists w1,
        save cache w = (Returns tt, w1) /\ silently w w1
        /\ (writable = false -> w1 = w)).
Proof.
  split.
  - rewrite load_eval. eexists. split; [reflexivity|].
    destruct (cacheFile w); auto.
  - rewrite save_eval. eexists. split; [reflexivity|].
    destruct writable; split; try split; try reflexivity. discriminate.
Qed.

(** X8.  What is saved is what is loaded next: after a save to a file
    that can be written, loading returns the saved object as JSON gives
    it back, numbers that are not finite turned into [null]; an object
    that JSON gives back unchanged is loaded as it was saved. *)
Theorem cache_round_trip cache w :
  writable = true ->
  fst (load (snd (save cache w))) = Returns (jsonClone (JObj cache))
  /\ (clean (JObj cache) ->
      fst (load (snd (save cache w))) = Returns (JObj cache)).
Proof.
  intros Hw. rewrite save_eval, Hw. cbn [snd]. rewrite load_eval.
  cbn [fst cacheFile]. split; [reflexivity|].
  intros Hc. unfold clean in Hc. now rewrite Hc.
Qed.

(** ** The resolver *)

Lemma respects_continuation_silently params ms :
  respects silently
    (if (0 <? List.length ms)%nat || truthyString (keyOf params)
     then bind (save [("ollama", entryOf params ms)])
            (fun _ => ret [("ollama", entryOf params ms)])
     else bind load
            (fun cached =>
               bind (lift (getProp cached "ollama"))
                 (fun cachedOllama =>
                    if truthy' cachedOllama
                    then ret (match cachedOllama with
                              | Some c => [("ollama", c)]
                              | None => []
                              end)
                    else ret []))).
Proof.
  pose proof silently_refl as Hr. pose proof silently_trans as Ht.
  pose proof respects_load_silently as Hl.
  pose proof respects_save_silently as Hs.
  destruct (_ || _).
  - apply (respects_bind _ Hr Ht); [apply Hs|]. intros _.
    now apply respects_ret.
  - apply (respects_bind _ Hr Ht); [apply Hl|]. intros cached.
    apply (respects_bind _ Hr Ht); [now apply respects_lift|].
    intros c. destruct (truthy' c); now apply respects_ret.
Qed.

Lemma resolver_quietly params w :
  silently
    (snd (discover (ollamaBaseUrlOf params) (optionsOf params) w))
    (snd (resolve params w)).
Proof.
  destruct (discover_always_returns (ollamaBaseUrlOf params) (optionsOf params) w)
    as [ms [w1 Hd]].
  rewrite (resolve_unfold params w ms w1 Hd), Hd. simpl.
  apply respects_continuation_silently.
Qed.

(** X9.  Apart from discovery the resolver neither talks to the network
    nor logs: the requests and the log after a run of the resolver are
    those after its discovery. *)
Theorem resolver_io_is_discovery params w :
  silently
    (snd (discover (ollamaBaseUrlOf params) (optionsOf params) w))
    (snd (resolve params w)).
Proof. apply resolver_quietly. Qed.

(** X10.  First-run silence: discovery is loud exactly when a key
    resolves or the backend was configured explicitly; when neither holds
    the resolver logs no warning, whatever the backend does, only the
    debug note that no models were found. *)
Theorem resolver_first_run_silence params w :
  loud (optionsOf params)
  = truthyString (keyOf params) || hasExplicitOllamaConfigOf params
  /\ (truthyString (keyOf params) = false ->
      hasExplicitOllamaConfigOf params = false ->
      exists extra,
        logs (snd (resolve params w)) = (logs w ++ extra)%list
        /\ Forall (eq DebugNoModels) extra).
Proof.
  assert (Hloud : loud (optionsOf params)
                  = truthyString (keyOf params)
                    || hasExplicitOllamaConfigOf params).
  { unfold discoveryOptionsOf, loud.
    destruct (truthyString _), (hasExplicitOllamaConfigOf params); reflexivity. }
  split; [exact Hloud|]. intros Hk He.
  rewrite Hk, He in Hloud.
  destruct (respects_discover_quiet (ollamaBaseUrlOf params) (optionsOf params)
              Hloud w) as [extra [Hlogs Hall]].
  exists extra. split; [|exact Hall].
  destruct (resolver_quietly params w) as [_ ->]. exact Hlogs.
Qed.

(** X11.  A run of the resolver ends in one of two ways.  Either it
    returns a map that is empty or has the single key [ollama] with a
    truthy value; or it throws a [TypeError], which happens only when
    nothing was discovered, no key resolved and the cache file holds the
    JSON document [null] -- and then it always happens. *)
Theorem resolve_outcome params w :
  ((exists m w',
      resolve params w = (Returns m, w')
      /\ (m = [] \/ exists v, m = [("ollama", v)] /\ truthy v = true))
   \/ (exists w',
         resolve params w = (Throws TypeError, w')
         /\ cacheFile w = Content JNull
         /\ truthyString (keyOf params) = false
         /\ fst (discover (ollamaBaseUrlOf params) (optionsOf params) w)
            = Returns []))
  /\ (cacheFile w = Content JNull ->
      truthyString (keyOf params) = false ->
      fst (discover (ollamaBaseUrlOf params) (optionsOf params) w) = Returns [] ->
      fst (resolve params w) = Throws TypeError).
Proof.
  destruct (discover_always_returns (ollamaBaseUrlOf params) (optionsOf params) w)
    as [ms [w1 Hd]].
  assert (Hfile : cacheFile w1 = cacheFile w).
  { pose proof (keepsFile_discover OLLAMA_API_BASE_URL OLLAMA_DEFAULT_COST
                  OLLAMA_DEFAULT_CONTEXT_WINDOW OLLAMA_DEFAULT_MAX_TOKENS
                  OLLAMA_SHOW_MAX_MODELS OLLAMA_SHOW_CONCURRENCY env network
                  (ollamaBaseUrlOf params) (optionsOf params) w) as H.
    now rewrite Hd in H. }
  rewrite Hd. cbn [fst].
  pose proof (resolve_unfold params w ms w1 Hd) as Hrun.
  destruct ((0 <? List.length ms)%nat) eqn:Hms;
    [|destruct (truthyString (keyOf params)) eqn:Hkey]; cbn [orb] in Hrun.
  - (* models were found *)
    unfold bind in Hrun. rewrite save_eval in Hrun. rewrite Hrun. split.
    + left. eexists. eexists.
      split; [reflexivity|]. right. eexists. split; reflexivity.
    + intros _ _ E. inversion E; subst. discriminate Hms.
  - (* a key resolved *)
    unfold bind in Hrun. rewrite save_eval in Hrun. rewrite Hrun. split.
    + left. eexists. eexists.
      split; [reflexivity|]. right. eexists. split; reflexivity.
    + discriminate.
  - (* the cache decides *)
    assert (Hnone : ms = []) by (destruct ms; [reflexivity | discriminate]).
    unfold bind at 1 in Hrun. rewrite load_eval, Hfile in Hrun.
    destruct (cacheFile w) as [| |doc] eqn:Hc.
    + rewrite Hrun. split; [|discriminate].
      left. exists [], w1. split; [reflexivity | now left].
    + rewrite Hrun. split; [|discriminate].
      left. exists [], w1. split; [reflexivity | now left].
    + unfold bind in Hrun.
      destruct (getProp doc "ollama") as [[c|]|e] eqn:Hg; simpl in Hrun;
        rewrite Hrun.
      * split; [|intros E; inversion E; subst; discriminate Hg].
        left. destruct (truthy c) eqn:Htc.
        -- exists [("ollama", c)], w1. split; [reflexivity|]. right. now exists c.
        -- exists [], w1. split; [reflexivity | now left].
      * split; [|intros E; inversion E; subst; discriminate Hg].
        left. exists [], w1. split; [reflexivity | now left].
      * assert (doc = JNull /\ e = TypeError) as [-> ->].
        { destruct doc; simpl in Hg; inversion Hg. now split. }
        split; [|intros _ _ _; reflexivity]. right. exists w1.
        split; [reflexivity|]. split; [reflexivity|]. split; [reflexivity|].
        now rewrite Hnone.
Qed.

(** X12.  When discovery finds models, the resolver returns the entry
    with these models and with the key that resolved -- the empty string
    if that is the key -- or with [ollama-local] when none did, and, when
    the cache file can be written, leaves exactly this entry in it. *)
Theorem resolve_with_models params w ms w1 :
  discover (ollamaBaseUrlOf params) (optionsOf params) w = (Returns ms, w1) ->
  ms <> [] ->
  exists w2,
    resolve params w = (Returns [("ollama", entryOf params ms)], w2)
    /\ silently w1 w2
    /\ (writable = true ->
        cacheFile w2
        = Content (jsonClone (JObj [("ollama", entryOf params ms)])))
    /\ (writable = false -> cacheFile w2 = cacheFile w1).
Proof.
  intros Hd Hms. rewrite (resolve_unfold params w ms w1 Hd).
  assert (H : (0 <? List.length ms)%nat = true)
    by (destruct ms; [contradiction | reflexivity]).
  rewrite H. cbn [orb]. unfold bind. rewrite save_eval.
  eexists. split; [reflexivity|].
  destruct writable; repeat split; try reflexivity; discriminate.
Qed.

(** ** From one run to the next *)

Lemma map_jsonClone_strings (l : list string) :
  map jsonClone (map JStr l) = map JStr l.
Proof. induction l as [|s l IH]; simpl; [reflexivity | now rewrite IH]. Qed.

Lemma jsonClone_modelJson (m : ModelDefinitionConfig) :
  clean (cost m) -> jsonClone (modelJson m) = modelJson m.
Proof.
  intros Hc. unfold modelJson. simpl. rewrite map_jsonClone_strings.
  unfold clean in Hc. now rewrite Hc.
Qed.

Lemma map_jsonClone_models (ms : list ModelDefinitionConfig) :
  Forall (fun m => clean (cost m)) ms ->
  map jsonClone (map modelJson ms) = map modelJson ms.
Proof.
  induction 1 as [|m ms Hm _ IH]; [reflexivity|].
  cbn [map]. now rewrite (jsonClone_modelJson m Hm), IH.
Qed.

Lemma jsonClone_providerEntry (p : Provider) (key : string) :
  Forall (fun m => clean (cost m)) (models p) ->
  jsonClone (providerEntry p key) = providerEntry p key.
Proof.
  intros H. unfold providerEntry. cbn [jsonClone map].
  now rewrite (map_jsonClone_models _ H).
Qed.

Lemma discover_assembled baseUrl opts w ms w' :
  discover baseUrl opts w = (Returns ms, w') ->
  Forall (assembled OLLAMA_DEFAULT_COST OLLAMA_DEFAULT_CONTEXT_WINDOW
            OLLAMA_DEFAULT_MAX_TOKENS) ms.
Proof. apply (ensures_discover_all _ ensures_inspect_assembled). Qed.

(** X13.  The cache carries a catalog from one run to the next: let a
    first run discover at least one model and write the cache file, and
    let a later run that finds this file find no model and no key.  Then
    the later run returns exactly the entry the first run returned,
    provided the default cost is a value that JSON gives back
    unchanged. *)
Theorem resolve_remembers params w ms w1 w' w1' :
  writable = true -> clean OLLAMA_DEFAULT_COST ->
  discover (ollamaBaseUrlOf params) (optionsOf params) w = (Returns ms, w1) ->
  ms <> [] ->
  cacheFile w' = cacheFile (snd (resolve params w)) ->
  discover (ollamaBaseUrlOf params) (optionsOf params) w' = (Returns [], w1') ->
  truthyString (keyOf params) = false ->
  fst (resolve params w) = Returns [("ollama", entryOf params ms)]
  /\ resolve params w' = (Returns [("ollama", entryOf params ms)], w1').
Proof.
  intros Hw Hclean Hd Hms Hsame Hd' Hkey.
  assert (Hentry : jsonClone (entryOf params ms) = entryOf params ms).
  { apply jsonClone_providerEntry. simpl.
    apply (Forall_impl _ (P := assembled OLLAMA_DEFAULT_COST
                                 OLLAMA_DEFAULT_CONTEXT_WINDOW
                                 OLLAMA_DEFAULT_MAX_TOKENS));
      [|exact (discover_assembled _ _ _ _ _ Hd)].
    intros m [_ [_ [Hcost _]]]. now rewrite Hcost. }
  assert (Hfile' : cacheFile w1' = cacheFile w').
  { pose proof (keepsFile_discover OLLAMA_API_BASE_URL OLLAMA_DEFAULT_COST
                  OLLAMA_DEFAULT_CONTEXT_WINDOW OLLAMA_DEFAULT_MAX_TOKENS
                  OLLAMA_SHOW_MAX_MODELS OLLAMA_SHOW_CONCURRENCY env network
                  (ollamaBaseUrlOf params) (optionsOf params) w') as H.
    now rewrite Hd' in H. }
  assert (Hfirst : resolve params w
                   = (Returns [("ollama", entryOf params ms)],
                      {| requests := requests w1; logs := logs w1;
                         cacheFile :=
                           Content (JObj [("ollama", entryOf params ms)]) |})).
  { rewrite (resolve_unfold params w ms w1 Hd).
    assert (H : (0 <? List.length ms)%nat = true)
      by (destruct ms; [contradiction | reflexivity]).
    rewrite H. cbn [orb]. unfold bind. rewrite save_eval, Hw.
    cbn [jsonClone map]. now rewrite Hentry. }
  rewrite Hfirst in Hsame |- *. cbn [snd fst cacheFile] in Hsame.
  split; [reflexivity|].
  rewrite (resolve_unfold params w' [] w1' Hd'), Hkey. cbn [List.length Nat.ltb orb].
  change (0 <? 0)%nat with false. cbn [orb].
  unfold bind at 1. rewrite load_eval, Hfile', Hsame.
  unfold bind. reflexivity.
Qed.

End Surroundings.

End ProvidersMore.

(* ================================================================== *)
(** * Properties of the audit logger *)
(* ================================================================== *)

Module AuditFacts.
Import JS Audit Views.
Local Open Scope string_scope.

Lemma lookup_withProp_same (o : object) (key : string) (v : value) :
  lookup key (withProp o key v) = Some v.
Proof.
  induction o as [|[k x] o IH]; simpl.
  - now rewrite String.eqb_refl.
  - destruct (String.eqb k key) eqn:E; simpl; rewrite E; [reflexivity | exact IH].
Qed.

Lemma lookup_withProp_other (o : object) (key k' : string) (v : value) :
  k' <> key -> lookup k' (withProp o key v) = lookup k' o.
Proof.
  intros Hne. induction o as [|[k x] o IH]; simpl.
  - destruct (String.eqb_spec key k'); [congruence | reflexivity].
  - destruct (String.eqb_spec k key) as [->|Hk]; simpl.
    + destruct (String.eqb_spec key k'); [congruence | reflexivity].
    + destruct (String.eqb k k'); [reflexivity | exact IH].
Qed.

Lemma lookup_cloned (o : object) (key : string) :
  lookup key (map (fun '(k, x) => (k, jsonClone x)) o)
  = option_map jsonClone (lookup key o).
Proof.
  induction o as [|[k x] o IH]; simpl; [reflexivity|].
  destruct (String.eqb k key); [reflexivity | exact IH].
Qed.

Lemma requested (args : list string) :
  existsb (String.eqb "--audit") args = true <-> In "--audit" args.
Proof.
  rewrite existsb_exists. split.
  - intros [x [Hx E]]. apply String.eqb_eq in E. now subst.
  - intros H. exists "--audit". split; [exact H | apply String.eqb_refl].
Qed.

Section FileSystem.

Variable require : string -> result unit.
Variable openSync : state -> string -> option nat.
Variable writeSync : state -> nat -> bool.

Local Abbreviation audit := (Audit.audit require openSync writeSync).
Local Abbreviation happen := (Views.happen require openSync writeSync).
Local Abbreviation happenAll := (Views.happenAll require openSync writeSync).

(** The line [audit] writes for [rec] at time [now]. *)
Local Abbreviation lineOf now rec :=
  (jsonClone (JObj (withProp rec "ts" (JStr now)))).

(** The states [audit] can leave behind. *)
Lemma audit_cases now rec s :
  exists s',
    audit now rec s = (Ok tt, s')
    /\ OPENCLAW_AUDIT s' = OPENCLAW_AUDIT s
    /\ argv s' = argv s /\ cwd s' = cwd s
    /\ (disabled s = true -> s' = s)
    /\ ((_fd s' = _fd s /\ descriptors s' = descriptors s)
        \/ (exists d,
              _fd s = None /\ _fd s' = Some d
              /\ descriptors s'
                 = (descriptors s ++ [(d, (cwd s ++ AUDIT_FILE)%string)])%list))
    /\ (appended s' = appended s
        \/ (exists d,
              _fd s' = Some d /\ disabled s = false
              /\ appended s' = (appended s ++ [(d, lineOf now rec)])%list)).
Proof.
  unfold Audit.audit. destruct (disabled s) eqn:Hd.
  { exists s. repeat split; auto. }
  unfold tryCatch, _open. unfold bind, lift.
  destruct (require "node:fs") as [[]|e] eqn:Hreq.
  2:{ (* [require] is not bound: nothing happens *)
      exists s. destruct (_fd s); (split; [reflexivity|]);
        (split; [reflexivity|]); (split; [reflexivity|]);
        (split; [reflexivity|]); (split; [discriminate|]);
        (split; [left; now split | now left]). }
  destruct (_fd s) as [d|] eqn:Hfd.
  - unfold write. rewrite Hfd. destruct (writeSync s d).
    + eexists. split; [reflexivity|]. cbn.
      split; [reflexivity|]. split; [reflexivity|]. split; [reflexivity|].
      split; [discriminate|]. split; [left; now split|].
      right. exists d. now repeat split.
    + exists s. split; [reflexivity|].
      split; [reflexivity|]. split; [reflexivity|]. split; [reflexivity|].
      split; [discriminate|]. split; [left; now split | now left].
  - destruct (openSync s _) as [d|] eqn:Ho.
    + unfold write. cbn [_fd]. destruct (writeSync _ d).
      * eexists. split; [reflexivity|]. cbn.
        split; [reflexivity|]. split; [reflexivity|]. split; [reflexivity|].
        split; [discriminate|]. split.
        -- right. exists d. now repeat split.
        -- right. exists d. now repeat split.
      * eexists. split; [reflexivity|]. cbn.
        split; [reflexivity|]. split; [reflexivity|]. split; [reflexivity|].
        split; [discriminate|]. split; [|now left].
        right. exists d. now repeat split.
    + exists s. split; [reflexivity|].
      split; [reflexivity|]. split; [reflexivity|]. split; [reflexivity|].
      split; [discriminate|]. split; [left; now split | now left].
Qed.

(** X14.  [audit] never throws, whatever [require] and the file system
    do.  It changes neither the environment nor the arguments; when
    [OPENCLAW_AUDIT] is not [1] it does nothing at all; otherwise it
    leaves the lines written so far as they are and adds at most one: the
    record, as JSON, on the descriptor it holds. *)
Theorem audit_is_best_effort now rec s :
  exists s',
    audit now rec s = (Ok tt, s')
    /\ OPENCLAW_AUDIT s' = OPENCLAW_AUDIT s /\ argv s' = argv s
    /\ (OPENCLAW_AUDIT s <> Some "1" -> s' = s)
    /\ (appended s' = appended s
        \/ exists d,
             _fd s' = Some d
             /\ appended s' = (appended s ++ [(d, lineOf now rec)])%list).
Proof.
  destruct (audit_cases now rec s)
    as [s' [Ha [He [Hv [_ [Hoff [_ Hap]]]]]]].
  exists s'. split; [exact Ha|]. split; [exact He|]. split; [exact Hv|].
  split.
  - intros Hne. apply Hoff. unfold disabled.
    destruct (OPENCLAW_AUDIT s) as [v|]; [|reflexivity].
    destruct (String.eqb_spec v "1"); [subst; contradiction | reflexivity].
  - destruct Hap as [H | [d [Hd [_ H]]]]; [now left | right; now exists d].
Qed.


(** X16.  The line carries the time of the call as its [ts], whatever
    [ts] the caller passed, and every other field of the record as JSON
    gives it back. *)
Theorem audit_line_fields now rec :
  exists fields,
    lineOf now rec = JObj fields
    /\ lookup "ts" fields = Some (JStr now)
    /\ forall key, key <> "ts" ->
                   lookup key fields = option_map jsonClone (lookup key rec).
Proof.
  eexists. split; [reflexivity|]. split.
  - rewrite lookup_cloned, lookup_withProp_same. reflexivity.
  - intros key Hne. now rewrite lookup_cloned, lookup_withProp_other.
Qed.

Lemma happen_opened_once h s : opened_once s -> opened_once (happen h s).
Proof.
  intros Hs. destruct h as [now rec | dir]; [|exact Hs].
  unfold Views.happen.
  destruct (audit_cases now rec s)
    as [s' [Ha [_ [_ [_ [_ [Hdesc Hap]]]]]]].
  rewrite Ha. cbn [snd].
  destruct Hs as [[Hfd [Hds Hls]] | [d [dir [Hfd [Hds Hls]]]]].
  - destruct Hdesc as [[Hf' Hd'] | [d [_ [Hf' Hd']]]].
    + left. rewrite Hf', Hd'. repeat split; try assumption.
      destruct Hap as [-> | [d [Hfd' _]]]; [assumption | congruence].
    + right. exists d, (cwd s). rewrite Hd', Hds. repeat split; try assumption.
      destruct Hap as [-> | [d' [Hfd' [_ ->]]]]; rewrite Hls;
        [constructor|]. constructor; [|constructor]. simpl. congruence.
  - right. exists d, dir.
    destruct Hdesc as [[Hf' Hd'] | [d' [Hnone _]]]; [|congruence].
    rewrite Hf', Hd'. repeat split; try assumption.
    destruct Hap as [-> | [d' [Hfd' [_ ->]]]]; [assumption|].
    apply Forall_app. split; [assumption|].
    constructor; [|constructor]. simpl. congruence.
Qed.

Lemma happenAll_opened_once hs s :
  opened_once s -> opened_once (happenAll hs s).
Proof.
  revert s. induction hs as [|h hs IH]; intros s Hs; [exact Hs|].
  apply IH. now apply happen_opened_once.
Qed.

(** X17.  The log file is opened at most once in the life of the
    process: after any sequence of calls of [audit] and changes of the
    working directory, either nothing was opened and nothing written, or
    there is one descriptor, for [.openclaw_audit.log] in the directory
    that was current when it was opened, and every line written went to
    it. *)
Theorem audit_opens_once hs env args dir :
  let s := happenAll hs (start env args dir) in
  (_fd s = None /\ descriptors s = [] /\ appended s = [])
  \/ (exists d dir',
        _fd s = Some d
        /\ descriptors s = [(d, (dir' ++ AUDIT_FILE)%string)]
        /\ Forall (fun line => fst line = d) (appended s)).
Proof.
  apply happenAll_opened_once. left. now repeat split.
Qed.

Lemma happen_disabled h s :
  disabled s = true -> descriptors s = [] -> appended s = [] ->
  disabled (happen h s) = true
  /\ descriptors (happen h s) = [] /\ appended (happen h s) = [].
Proof.
  intros Hd Hds Hls. destruct h as [now rec | dir]; [|now repeat split].
  unfold Views.happen, Audit.audit. rewrite Hd. now repeat split.
Qed.

(** X18.  After start-up the logger is on exactly when [--audit] is among
    the arguments or [OPENCLAW_AUDIT] is [1].  When it is off it stays
    off: no later call of [audit] opens or writes anything. *)
Theorem audit_on_request env args dir hs :
  let s := snd (GatewayCli.load (start env args dir)) in
  (disabled s = false <-> In "--audit" args \/ env = Some "1")
  /\ (~ In "--audit" args -> env <> Some "1" ->
      descriptors (happenAll hs s) = [] /\ appended (happenAll hs s) = []).
Proof.
  cbv zeta. unfold GatewayCli.load, enableAuditIfRequested, start. cbn [argv].
  destruct (existsb (String.eqb "--audit") args) eqn:Hreq; cbn [snd].
  - apply requested in Hreq. split.
    + split; [now left | reflexivity].
    + contradiction.
  - assert (Hno : ~ In "--audit" args).
    { intros H. apply requested in H. congruence. }
    assert (Hdis : forall v, disabled
                     {| _fd := None; OPENCLAW_AUDIT := v; argv := args;
                        cwd := dir; descriptors := []; appended := [] |}
                   = false <-> v = Some "1").
    { intros [v|]; unfold disabled; cbn [OPENCLAW_AUDIT].
      - destruct (String.eqb_spec v "1"); simpl; split; congruence.
      - split; discriminate. }
    split.
    + rewrite Hdis. tauto.
    + intros _ Henv.
      assert (Hoff : disabled
                       {| _fd := None; OPENCLAW_AUDIT := env; argv := args;
                          cwd := dir; descriptors := []; appended := [] |}
                     = true).
      { destruct (disabled _) eqn:E; [reflexivity|].
        apply Hdis in E. contradiction. }
      set (s := {| _fd := None; OPENCLAW_AUDIT := env; argv := args;
                   cwd := dir; descriptors := []; appended := [] |}) in *.
      assert (Hs : disabled s = true /\ descriptors s = [] /\ appended s = [])
        by now repeat split.
      clearbody s. clear Hoff. revert s Hs.
      induction hs as [|h hs IH]; intros s [H1 [H2 H3]]; [now split|].
      apply IH. now apply happen_disabled.
Qed.

End FileSystem.

End AuditFacts.

(* ================================================================== *)
(** * More about the base URL *)
(* ================================================================== *)

Module BaseUrlFacts.
Import JS JSFacts Providers.
Local Open Scope string_scope.

Lemma all_slashes_end_in_slash (slashes : string) :
  forallb isSlash (chars slashes) = true -> slashes <> "" ->
  exists p, slashes = p ++ "/".
Proof.
  intros Hall Hne.
  destruct (exists_last (l := chars slashes)) as [l [c Hl]].
  { intros E. apply Hne. apply chars_inj. now rewrite E. }
  rewrite Hl, forallb_app in Hall. apply andb_true_iff in Hall.
  destruct Hall as [_ Hc]. simpl in Hc. rewrite andb_true_r in Hc.
  apply Ascii.eqb_eq in Hc. subst c.
  exists (str l). apply chars_inj. rewrite chars_app, chars_str. exact Hl.
Qed.

(** X19.  Without a configured URL, or with the empty string, the
    default base is used.  A non-empty URL that ends neither in a slash
    nor in [/v1] is returned as it is, so resolving a resolved URL of that
    kind changes nothing.  A URL made of slashes only resolves to the
    empty string, not to the default. *)
Theorem resolveOllamaApiBase_fixed_points (dflt s : string) :
  resolveOllamaApiBase dflt None = dflt
  /\ resolveOllamaApiBase dflt (Some "") = dflt
  /\ (s <> "" ->
      (forall p, s <> p ++ "/" /\ s <> p ++ "/v1" /\ s <> p ++ "/V1") ->
      resolveOllamaApiBase dflt (Some s) = s)
  /\ (s <> "" -> forallb isSlash (chars s) = true ->
      resolveOllamaApiBase dflt (Some s) = "").
Proof.
  split; [reflexivity|]. split; [reflexivity|]. split.
  - intros Hne Hnorm. unfold resolveOllamaApiBase.
    destruct (String.eqb_spec s "") as [|_]; [contradiction|].
    destruct (stripTrailingSlashes_spec s) as [slashes [Hsplit [Hall _]]].
    assert (Hstrip : stripTrailingSlashes s = s).
    { destruct slashes as [|c slashes'] eqn:Es.
      - now rewrite append_nil_r in Hsplit.
      - destruct (all_slashes_end_in_slash (String c slashes') Hall)
          as [p Hp]; [discriminate|].
        exfalso. apply (proj1 (Hnorm (stripTrailingSlashes s ++ p))).
        rewrite append_assoc, <- Hp. exact Hsplit. }
    rewrite Hstrip.
    destruct (stripV1Suffix_spec s) as [[v [Hv Hs]] | [Hsame _]];
      [|exact Hsame].
    exfalso. destruct (Hnorm (stripV1Suffix s)) as [_ [H1 H2]].
    destruct Hv as [-> | ->]; [now apply H1 | now apply H2].
  - intros Hne Hall. unfold resolveOllamaApiBase.
    destruct (String.eqb_spec s "") as [|_]; [contradiction|].
    unfold stripTrailingSlashes.
    rewrite (proj2 (dropWhileEnd_nil isSlash (chars s)) Hall). reflexivity.
Qed.

End BaseUrlFacts.

(* ================================================================== *)
(** * The further properties at sample inputs *)
(* ================================================================== *)

Module MoreWitnesses.
Import JS JSFacts Providers Trace Notions Views.
Local Open Scope string_scope.

Local Abbreviation quietly := (Some {| quiet := Some true |}).

Lemma probe_sound_witness :
  exists r data info k q,
    Samples.backend [] (showRequest Samples.defaultBase (Some (JStr "llama3")))
    = Responds r
    /\ ok r = true /\ json r = Some data
    /\ getProp data "model_info" = Ok (Some info) /\ truthy info = true
    /\ In (k, JNum (Finite q)) (entries info)
    /\ endsWith k CONTEXT_LENGTH_SUFFIX = true
    /\ (1 <= q)%Q /\ 8192%Z = Qfloor q.
Proof.
  exact (ProvidersMore.probe_sound Samples.backend Samples.defaultBase
           (Some (JStr "llama3")) (Samples.world Absent) 8192%Z
           (addRequest (Samples.world Absent)
              (probeOf Samples.defaultBase "llama3"))
           eq_refl).
Defined.

Lemma discovered_descriptors_assembled_witness :
  Forall (assembled Samples.cost Samples.contextWindow Samples.maxTokens)
    Samples.discovered.
Proof.
  exact (ProvidersMore.discovered_descriptors_assembled Samples.defaultBase
           Samples.cost Samples.contextWindow Samples.maxTokens
           Samples.showMaxModels Samples.showConcurrency Samples.env
           Samples.backend None None (Samples.world Absent)
           Samples.discovered (snd Samples.discovery) eq_refl).
Defined.

Lemma sample_unnamed : unnamed (JObj [("size", ofZ 4661224676)]).
Proof. intros s H. discriminate H. Defined.

Lemma unnamed_entry_voids_discovery_witness :
  exists w',
    discoverOllamaModels Samples.defaultBase Samples.cost Samples.contextWindow
      Samples.maxTokens Samples.showMaxModels Samples.showConcurrency
      Samples.env MoreSamples.broken None None (Samples.world Absent)
    = (Returns [], w').
Proof.
  refine (ProvidersMore.unnamed_entry_voids_discovery Samples.defaultBase
            Samples.cost Samples.contextWindow Samples.maxTokens
            Samples.showMaxModels Samples.showConcurrency Samples.env
            MoreSamples.broken None None (Samples.world Absent)
            _ _ _ eq_refl _ _ eq_refl eq_refl eq_refl eq_refl _).
  - discriminate.
  - discriminate.
  - apply Exists_cons_tl, Exists_cons_hd. exact sample_unnamed.
Defined.

Lemma cache_round_trip_witness :
  fst (loadModelCache
         (snd (saveModelCache true [("ollama", Samples.cachedEntry)]
                 (Samples.world Unreadable))))
  = Returns Samples.cachedDocument.
Proof.
  apply (proj2 (ProvidersMore.cache_round_trip true
                  [("ollama", Samples.cachedEntry)]
                  (Samples.world Unreadable) eq_refl)).
  reflexivity.
Defined.

Lemma first_discovery :
  MoreSamples.firstDiscovery
  = (Returns MoreSamples.firstModels, snd MoreSamples.firstDiscovery).
Proof. reflexivity. Defined.

Lemma first_models : MoreSamples.firstModels <> [].
Proof. discriminate. Defined.

Lemma resolve_with_models_witness :
  exists w2,
    MoreSamples.firstRun
    = (Returns
         [("ollama",
           providerEntry
             {| baseUrl := Samples.defaultBase; api := "ollama";
                models := MoreSamples.firstModels |}
             "ollama-local")],
       w2)
    /\ silently (snd MoreSamples.firstDiscovery) w2.
Proof.
  destruct (ProvidersMore.resolve_with_models Samples.defaultBase Samples.cost
              Samples.contextWindow Samples.maxTokens Samples.showMaxModels
              Samples.showConcurrency unit Samples.openStore Samples.noEnvKey
              Samples.noProfile Samples.env MoreSamples.flaky true
              Samples.params (Samples.world Absent) MoreSamples.firstModels
              (snd MoreSamples.firstDiscovery) first_discovery first_models)
    as [w2 [Hr [Hs _]]].
  exists w2. split; [exact Hr | exact Hs].
Defined.

Lemma resolve_remembers_witness :
  fst MoreSamples.firstRun
  = Returns
      [("ollama",
        providerEntry
          {| baseUrl := Samples.defaultBase; api := "ollama";
             models := MoreSamples.firstModels |}
          "ollama-local")]
  /\ fst (resolveImplicitProviders Samples.defaultBase Samples.cost
            Samples.contextWindow Samples.maxTokens Samples.showMaxModels
            Samples.showConcurrency unit Samples.openStore Samples.noEnvKey
            Samples.noProfile Samples.env MoreSamples.flaky true
            Samples.params (snd MoreSamples.firstRun))
     = fst MoreSamples.firstRun.
Proof.
  destruct (ProvidersMore.resolve_remembers Samples.defaultBase Samples.cost
              Samples.contextWindow Samples.maxTokens Samples.showMaxModels
              Samples.showConcurrency unit Samples.openStore Samples.noEnvKey
              Samples.noProfile Samples.env MoreSamples.flaky true
              Samples.params (Samples.world Absent) MoreSamples.firstModels
              (snd MoreSamples.firstDiscovery) (snd MoreSamples.firstRun)
              (addRequest (snd MoreSamples.firstRun)
                 (tagsRequest Samples.defaultBase))
              eq_refl eq_refl first_discovery first_models eq_refl eq_refl
              eq_refl)
    as [H1 H2].
  split; [exact H1|].
  exact (eq_trans (f_equal fst H2) (eq_sym H1)).
Defined.

Lemma sample_normal (s : string) :
  endsWith s "/" = false -> endsWith s "/v1" = false ->
  endsWith s "/V1" = false ->
  forall p, s <> p ++ "/" /\ s <> p ++ "/v1" /\ s <> p ++ "/V1".
Proof.
  intros H1 H2 H3 p. repeat split; intros E.
  - assert (H : endsWith s "/" = true) by (apply endsWith_iff; eauto).
    congruence.
  - assert (H : endsWith s "/v1" = true) by (apply endsWith_iff; eauto).
    congruence.
  - assert (H : endsWith s "/V1" = true) by (apply endsWith_iff; eauto).
    congruence.
Defined.

Lemma resolveOllamaApiBase_fixed_points_witness :
  resolveOllamaApiBase Samples.defaultBase (Some "https://models.example:11434")
  = "https://models.example:11434".
Proof.
  refine (proj1 (proj2 (proj2
            (BaseUrlFacts.resolveOllamaApiBase_fixed_points
               Samples.defaultBase "https://models.example:11434"))) _ _).
  - discriminate.
  - apply sample_normal; reflexivity.
Defined.


End MoreWitnesses.
